(** * Verification of the fuzzy subtitle matcher

    A shallow embedding of the [FuzzyMatcher] class of
    [src/services/movie-database.js] (the enhanced fuzzy matching service)
    and of the ranking it performs for the subtitles handler.

    Conventions of the embedding:
    - a JavaScript string is a [string]; each [ascii] is read as one UTF-16
      code unit in the range 0..255 (Latin-1), so the development speaks
      about inputs whose code units are below 256;
    - a score is a rational number ([Q]): arithmetic is exact;
    - a JavaScript number that holds an integer or [NaN] is an [option Z];
      integers are not rounded, which is the arithmetic of the code for
      integers of magnitude below 2^53 ([Props.safeInteger]);
    - [null] is [None];
    - an exception is the [Throw] case of the [result] type. *)

From Stdlib Require Import String Ascii ZArith NArith QArith Qabs Lqa List Bool Lia DecimalString DecimalPos.
From stdpp Require Import gmap strings list.

Import ListNotations.
Local Open Scope Z_scope.
#[local] Set Warnings "-clear-no-such-hyp".

(** ** Exceptions *)

Inductive error : Type :=
| SyntaxError (msg : string)      (* thrown by [new RegExp] *)
| Unsupported (what : string).    (* pattern syntax outside the modelled fragment *)

Inductive result (A : Type) : Type :=
| Ok (a : A)
| Throw (e : error).
Arguments Ok {A} a.
Arguments Throw {A} e.

Global Instance result_bind : MBind result :=
  fun A B f x => match x with Ok a => f a | Throw e => Throw e end.
Global Instance result_ret : MRet result := @Ok.

(** ** JavaScript strings and numbers *)

Module Js.

Definition code (c : ascii) : N := N_of_ascii c.
Definition chr (n : N) : ascii := ascii_of_N n.

Definition between (lo hi : N) (c : ascii) : bool :=
  ((lo <=? code c) && (code c <=? hi))%N.

Definition isDigit (c : ascii) : bool := between 48 57 c.
Definition isUpper (c : ascii) : bool := between 65 90 c.
Definition isLower (c : ascii) : bool := between 97 122 c.

(** [\w] *)
Definition isWordChar (c : ascii) : bool :=
  isDigit c || isUpper c || isLower c || (code c =? 95)%N.

(** [\s] and the characters removed by [trim], below code unit 256. *)
Definition isWhiteSpace (c : ascii) : bool :=
  between 9 13 c || (code c =? 32)%N || (code c =? 160)%N.

Definition isLineTerminator (c : ascii) : bool :=
  (code c =? 10)%N || (code c =? 13)%N.

(** [String.prototype.toLowerCase], one code unit. *)
Definition toLowerChar (c : ascii) : ascii :=
  if isUpper c || (between 192 222 c && negb (code c =? 215)%N)
  then chr (code c + 32) else c.

(** The regular expression [Canonicalize] operation under the [i] flag:
    upper-casing, where the upper-case form is one code unit of the same
    range. *)
Definition canonicalize (c : ascii) : ascii :=
  if isLower c || (between 224 254 c && negb (code c =? 247)%N)
  then chr (code c - 32) else c.

Fixpoint toLowerCase (s : string) : string :=
  match s with
  | EmptyString => EmptyString
  | String c t => String (toLowerChar c) (toLowerCase t)
  end.

Definition len (s : string) : Z := Z.of_nat (String.length s).

Fixpoint startsWith (p s : string) : bool :=
  match p, s with
  | EmptyString, _ => true
  | String a p', String b s' => Ascii.eqb a b && startsWith p' s'
  | String _ _, EmptyString => false
  end.

(** [s.indexOf(sub)], [-1] when absent. *)
Fixpoint indexOfFrom (i : Z) (sub s : string) : Z :=
  if startsWith sub s then i
  else match s with
       | EmptyString => -1
       | String _ t => indexOfFrom (i + 1) sub t
       end.
Definition indexOf (s sub : string) : Z := indexOfFrom 0 sub s.

Definition includes (s sub : string) : bool := 0 <=? indexOf s sub.

Fixpoint endsWith (s suffix : string) : bool :=
  String.eqb s suffix ||
  match s with
  | EmptyString => false
  | String _ t => endsWith t suffix
  end.

Fixpoint take (n : nat) (s : string) : string :=
  match n, s with
  | S n', String c t => String c (take n' t)
  | _, _ => EmptyString
  end.

Fixpoint drop (n : nat) (s : string) : string :=
  match n, s with
  | S n', String _ t => drop n' t
  | _, _ => s
  end.

Definition clamp (lo hi x : Z) : Z := Z.max lo (Z.min hi x).

(** [s.substring(a, b)]: both ends clamped to the string, swapped when out
    of order. *)
Definition substring (s : string) (a b : Z) : string :=
  let a' := clamp 0 (len s) a in
  let b' := clamp 0 (len s) b in
  let lo := Z.min a' b' in
  let hi := Z.max a' b' in
  take (Z.to_nat (hi - lo)) (drop (Z.to_nat lo) s).

(** [s.substring(a)] *)
Definition substringFrom (s : string) (a : Z) : string :=
  substring s a (len s).

(** [s.split(sep)] for a one-character separator: never an empty list. *)
Fixpoint split (sep : ascii) (s : string) : list string :=
  match s with
  | EmptyString => [EmptyString]
  | String c t =>
      if Ascii.eqb c sep then EmptyString :: split sep t
      else match split sep t with
           | w :: ws => String c w :: ws
           | [] => [String c EmptyString]
           end
  end.

(** [words.join(' ')] *)
Fixpoint join (sep : string) (l : list string) : string :=
  match l with
  | [] => EmptyString
  | [w] => w
  | w :: ws => w +:+ sep +:+ join sep ws
  end.

Fixpoint trimStart (s : string) : string :=
  match s with
  | String c t => if isWhiteSpace c then trimStart t else s
  | EmptyString => EmptyString
  end.

Definition trimEnd (s : string) : string :=
  String.rev (trimStart (String.rev s)).

Definition trim (s : string) : string := trimEnd (trimStart s).

Fixpoint repeat (c : ascii) (n : nat) : string :=
  match n with
  | O => EmptyString
  | S n' => String c (repeat c n')
  end.

(** [s.padStart(n, c)] for a one-character filler. *)
Definition padStart (n : nat) (c : ascii) (s : string) : string :=
  repeat c (n - String.length s) +:+ s.

(** The value of a string in a boolean context. *)
Definition truthy (o : option string) : bool :=
  match o with
  | Some s => negb (String.eqb s EmptyString)
  | None => false
  end.

(** A number that is an integer or [NaN]. *)
Definition num : Type := option Z.

(** [n.toString()] *)
Definition numToString (n : num) : string :=
  match n with
  | Some z => NilZero.string_of_int (Z.to_int z)
  | None => "NaN"
  end.

Definition digitValue (radix : Z) (c : ascii) : option Z :=
  let v := if isDigit c then Some (Z.of_N (code c) - 48)
           else if between 97 102 c then Some (Z.of_N (code c) - 87)
           else if between 65 70 c then Some (Z.of_N (code c) - 55)
           else None in
  match v with
  | Some d => if d <? radix then Some d else None
  | None => None
  end.

Fixpoint parseDigits (radix : Z) (acc : option Z) (s : string) : option Z :=
  match s with
  | EmptyString => acc
  | String c t =>
      match digitValue radix c with
      | Some d => parseDigits radix (Some (radix * default 0 acc + d)) t
      | None => acc
      end
  end.

(** [parseInt(s)]: leading white space, a sign, a [0x] prefix, then the
    longest run of digits; [NaN] when that run is empty. *)
Definition parseInt (s : string) : num :=
  let s := trimStart s in
  let '(sign, s) :=
    match s with
    | String "-"%char t => (-1, t)
    | String "+"%char t => (1, t)
    | _ => (1, s)
    end in
  let '(radix, s) :=
    match s with
    | String "0"%char (String "x"%char t) => (16, t)
    | String "0"%char (String "X"%char t) => (16, t)
    | _ => (10, s)
    end in
  match parseDigits radix None s with
  | Some v => Some (sign * v)
  | None => None
  end.

(** [a === b] on numbers: [NaN] equals nothing. *)
Definition numEq (a b : num) : bool :=
  match a, b with
  | Some x, Some y => x =? y
  | _, _ => false
  end.

Definition numSub (a b : num) : num :=
  match a, b with
  | Some x, Some y => Some (x - y)
  | _, _ => None
  end.

Definition numAbs (a : num) : num := option_map Z.abs a.

(** Comparisons with a [NaN] operand are false. *)
Definition numLe (a b : num) : bool :=
  match a, b with
  | Some x, Some y => x <=? y
  | _, _ => false
  end.

Definition numGt (a b : num) : bool :=
  match a, b with
  | Some x, Some y => y <? x
  | _, _ => false
  end.

(** Node's [path.extname] and [path.basename(p, ext)] (POSIX flavour). *)
Fixpoint lastSegment (acc s : string) : string :=
  match s with
  | EmptyString => acc
  | String c t =>
      if Ascii.eqb c "/"%char then
        (if String.eqb t EmptyString then acc else lastSegment t t)
      else lastSegment acc t
  end.

Fixpoint stripTrailingSlashes (r : string) : string :=
  match r with
  | String "/"%char t => stripTrailingSlashes t
  | _ => r
  end.

Definition pathTail (p : string) : string :=
  let p := String.rev (stripTrailingSlashes (String.rev p)) in
  lastSegment p p.

Fixpoint lastDotFrom (best : option nat) (i : nat) (s : string) : option nat :=
  match s with
  | EmptyString => best
  | String c t =>
      lastDotFrom (if Ascii.eqb c "."%char then Some i else best) (S i) t
  end.

Definition extname (p : string) : string :=
  let b := pathTail p in
  if String.eqb b ".." then EmptyString else
  match lastDotFrom None 0 b with
  | Some (S i) => drop (S i) b
  | _ => EmptyString
  end.

Definition basename (p ext : string) : string :=
  let b := pathTail p in
  if negb (String.eqb ext EmptyString) && negb (String.eqb b ext) && endsWith b ext
  then take (String.length b - String.length ext) b
  else b.

(** The keys every object literal inherits from [Object.prototype]; their
    values are functions or objects: all true in a boolean context, and
    not a number in an arithmetic one. *)
Definition inheritedKeys : list string :=
  ["constructor"; "__defineGetter__"; "__defineSetter__"; "hasOwnProperty";
   "__lookupGetter__"; "__lookupSetter__"; "isPrototypeOf";
   "propertyIsEnumerable"; "toString"; "valueOf"; "__proto__";
   "toLocaleString"].

End Js.

(** ** Regular expressions

    The patterns of the matcher are written in the source as regular
    expression literals or built from strings with [new RegExp].  Both are
    kept here as pattern sources and go through [parse], which returns the
    syntax error that [new RegExp] throws on an ill-formed source.  Matching
    is the backtracking semantics of the language: alternatives left to
    right, greedy and lazy quantifiers, capture groups, back-references,
    word boundaries and anchors. *)

Module RegExp.

Inductive citem : Type :=
| CChar (c : ascii)
| CRange (lo hi : ascii)
| CDigit | CNotDigit
| CSpace | CNotSpace
| CWord | CNotWord.

Inductive regex : Type :=
| REmpty
| RChar (c : ascii)
| RAny                                     (* . *)
| RClass (neg : bool) (items : list citem) (* [...] and \d \w \s *)
| RSeq (a b : regex)
| RAlt (a b : regex)
| RQuant (min : nat) (max : option nat) (greedy : bool) (a : regex)
| RGroup (idx : nat) (a : regex)
| RBackref (idx : nat)
| RWordB | RNotWordB                       (* \b \B *)
| RBegin | REnd.                           (* ^ $ *)

(** *** Parsing a pattern source *)

Fixpoint readNat (acc : option nat) (s : string) : option nat * string :=
  match s with
  | String c t =>
      if Js.isDigit c
      then readNat (Some (10 * default 0%nat acc + N.to_nat (Js.code c - 48))%nat) t
      else (acc, s)
  | EmptyString => (acc, s)
  end.

(** A braced quantifier [{n}], [{n,}] or [{n,m}] at the head of [s]
    (after the opening brace): its bounds and the rest of the source. *)
Definition readBraces (s : string) : option (nat * option nat * string) :=
  match readNat None s with
  | (Some n, String "}"%char t) => Some (n, Some n, t)
  | (Some n, String ","%char t) =>
      match readNat None t with
      | (None, String "}"%char t') => Some (n, None, t')
      | (Some m, String "}"%char t') => Some (n, Some m, t')
      | _ => None
      end
  | _ => None
  end.

(** The quantifier, if any, that follows an atom. *)
Definition readQuantifier (a : regex) (s : string) : result (regex * string) :=
  let lazy (mn : nat) (mx : option nat) (t : string) :=
    match t with
    | String "?"%char t' => Ok (RQuant mn mx false a, t')
    | _ => Ok (RQuant mn mx true a, t)
    end in
  match s with
  | String "*"%char t => lazy 0%nat None t
  | String "+"%char t => lazy 1%nat None t
  | String "?"%char t => lazy 0%nat (Some 1%nat) t
  | String "{"%char t =>
      match readBraces t with
      | Some (mn, Some mx, t') =>
          if (mx <? mn)%nat
          then Throw (SyntaxError "numbers out of order in {} quantifier")
          else lazy mn (Some mx) t'
      | Some (mn, None, t') => lazy mn None t'
      | None => Ok (a, s)
      end
  | _ => Ok (a, s)
  end.

Definition classEscape (c : ascii) : option citem :=
  match c with
  | "d"%char => Some CDigit | "D"%char => Some CNotDigit
  | "s"%char => Some CSpace | "S"%char => Some CNotSpace
  | "w"%char => Some CWord | "W"%char => Some CNotWord
  | _ => None
  end.

Definition controlEscape (c : ascii) : option ascii :=
  match c with
  | "t"%char => Some (Js.chr 9) | "n"%char => Some (Js.chr 10)
  | "v"%char => Some (Js.chr 11) | "f"%char => Some (Js.chr 12)
  | "r"%char => Some (Js.chr 13)
  | _ => None
  end.

Definition unmodelledEscape (c : ascii) : bool :=
  existsb (Ascii.eqb c) (list_ascii_of_string "cxuk").

(** One member of a character class; [s] is the source after a backslash
    or at a plain character. *)
Definition readClassAtom (s : string) : result (citem * string) :=
  match s with
  | String "\"%char (String e t) =>
      match classEscape e, controlEscape e with
      | Some ci, _ => Ok (ci, t)
      | None, Some c => Ok (CChar c, t)
      | None, None =>
          if Ascii.eqb e "b"%char then Ok (CChar (Js.chr 8), t)
          else if Ascii.eqb e "0"%char then
            match t with
            | String d _ =>
                if Js.isDigit d then Throw (Unsupported "octal escape")
                else Ok (CChar (Js.chr 0), t)
            | EmptyString => Ok (CChar (Js.chr 0), t)
            end
          else if Js.isDigit e then Throw (Unsupported "octal escape")
          else if unmodelledEscape e then Throw (Unsupported "escape")
          else Ok (CChar e, t)
      end
  | String "\"%char EmptyString => Throw (SyntaxError "\ at end of pattern")
  | String c t => Ok (CChar c, t)
  | EmptyString => Throw (SyntaxError "Unterminated character class")
  end.

(** The members of a class up to the closing bracket. *)
Fixpoint readClassItems (fuel : nat) (s : string) : result (list citem * string) :=
  match fuel with
  | O => Throw (Unsupported "pattern too long")
  | S fuel' =>
      match s with
      | EmptyString => Throw (SyntaxError "Unterminated character class")
      | String "]"%char t => Ok ([], t)
      | _ =>
          '(a, s1) ← readClassAtom s;
          match s1 with
          | String "-"%char (String c2 t2) =>
              if Ascii.eqb c2 "]"%char then
                '(rest, s3) ← readClassItems fuel' s1;
                Ok (a :: rest, s3)
              else
                '(b, s2) ← readClassAtom (String c2 t2);
                match a, b with
                | CChar lo, CChar hi =>
                    if (Js.code hi <? Js.code lo)%N
                    then Throw (SyntaxError "Range out of order in character class")
                    else
                      '(rest, s3) ← readClassItems fuel' s2;
                      Ok (CRange lo hi :: rest, s3)
                | _, _ =>
                    '(rest, s3) ← readClassItems fuel' s2;
                    Ok (a :: CChar "-"%char :: b :: rest, s3)
                end
          | _ =>
              '(rest, s3) ← readClassItems fuel' s1;
              Ok (a :: rest, s3)
          end
      end
  end.

Definition readClass (s : string) : result (regex * string) :=
  let fuel := S (String.length s) in
  match s with
  | String "^"%char t =>
      '(items, rest) ← readClassItems fuel t; Ok (RClass true items, rest)
  | _ =>
      '(items, rest) ← readClassItems fuel s; Ok (RClass false items, rest)
  end.

(** An atom escape outside a class: the atom and whether it is an
    assertion (which takes no quantifier). *)
Definition readEscape (s : string) : result (regex * bool * string) :=
  match s with
  | EmptyString => Throw (SyntaxError "\ at end of pattern")
  | String e t =>
      if Ascii.eqb e "b"%char then Ok (RWordB, true, t)
      else if Ascii.eqb e "B"%char then Ok (RNotWordB, true, t)
      else match classEscape e, controlEscape e with
           | Some ci, _ => Ok (RClass false [ci], false, t)
           | None, Some c => Ok (RChar c, false, t)
           | None, None =>
               if Ascii.eqb e "0"%char then
                 match t with
                 | String d _ =>
                     if Js.isDigit d then Throw (Unsupported "octal escape")
                     else Ok (RChar (Js.chr 0), false, t)
                 | EmptyString => Ok (RChar (Js.chr 0), false, t)
                 end
               else if Js.isDigit e then
                 match readNat None s with
                 | (Some n, t') => Ok (RBackref n, false, t')
                 | (None, _) => Throw (Unsupported "escape")
                 end
               else if unmodelledEscape e then Throw (Unsupported "escape")
               else Ok (RChar e, false, t)
           end
  end.

(** Disjunction, alternative and term of the pattern grammar.  The group
    counter [g] numbers the capture groups from the left. *)
Fixpoint parseDisjunction (fuel : nat) (s : string) (g : nat)
  : result (regex * string * nat) :=
  match fuel with
  | O => Throw (Unsupported "pattern too long")
  | S fuel' =>
      '(a, s1, g1) ← parseAlternative fuel' s g;
      match s1 with
      | String "|"%char t =>
          '(b, s2, g2) ← parseDisjunction fuel' t g1;
          Ok (RAlt a b, s2, g2)
      | _ => Ok (a, s1, g1)
      end
  end
with parseAlternative (fuel : nat) (s : string) (g : nat)
  : result (regex * string * nat) :=
  match fuel with
  | O => Throw (Unsupported "pattern too long")
  | S fuel' =>
      match s with
      | EmptyString => Ok (REmpty, s, g)
      | String "|"%char _ => Ok (REmpty, s, g)
      | String ")"%char _ => Ok (REmpty, s, g)
      | _ =>
          '(a, s1, g1) ← parseTerm fuel' s g;
          '(b, s2, g2) ← parseAlternative fuel' s1 g1;
          Ok (RSeq a b, s2, g2)
      end
  end
with parseTerm (fuel : nat) (s : string) (g : nat)
  : result (regex * string * nat) :=
  match fuel with
  | O => Throw (Unsupported "pattern too long")
  | S fuel' =>
      let quantified (a : regex) (t : string) (g' : nat) :=
        '(q, t') ← readQuantifier a t; Ok (q, t', g') in
      match s with
      | EmptyString => Ok (REmpty, s, g)
      | String "^"%char t => Ok (RBegin, t, g)
      | String "$"%char t => Ok (REnd, t, g)
      | String "."%char t => quantified RAny t g
      | String "*"%char _ => Throw (SyntaxError "Nothing to repeat")
      | String "+"%char _ => Throw (SyntaxError "Nothing to repeat")
      | String "?"%char _ => Throw (SyntaxError "Nothing to repeat")
      | String "{"%char t =>
          match readBraces t with
          | Some _ => Throw (SyntaxError "Nothing to repeat")
          | None => quantified (RChar "{"%char) t g
          end
      | String "\"%char t =>
          '(a, assertion, t') ← readEscape t;
          if assertion : bool then Ok (a, t', g) else quantified a t' g
      | String "["%char t =>
          '(a, t') ← readClass t; quantified a t' g
      | String "("%char (String "?"%char (String ":"%char t)) =>
          '(a, s1, g1) ← parseDisjunction fuel' t g;
          match s1 with
          | String ")"%char t' => quantified a t' g1
          | _ => Throw (SyntaxError "Unterminated group")
          end
      | String "("%char (String "?"%char (String c _)) =>
          if existsb (Ascii.eqb c) (list_ascii_of_string "=!<")
          then Throw (Unsupported "lookaround or named group")
          else Throw (SyntaxError "Invalid group")
      | String "("%char (String "?"%char EmptyString) =>
          Throw (SyntaxError "Invalid group")
      | String "("%char t =>
          '(a, s1, g1) ← parseDisjunction fuel' t (S g);
          match s1 with
          | String ")"%char t' => quantified (RGroup g a) t' g1
          | _ => Throw (SyntaxError "Unterminated group")
          end
      | String c t => quantified (RChar c) t g
      end
  end.

Fixpoint maxBackref (r : regex) : nat :=
  match r with
  | RBackref n => n
  | RSeq a b | RAlt a b => Nat.max (maxBackref a) (maxBackref b)
  | RQuant _ _ _ a | RGroup _ a => maxBackref a
  | _ => 0%nat
  end.

(** [parse src]: the pattern of [new RegExp(src)], or the error thrown. *)
Definition parse (src : string) : result regex :=
  '(r, rest, g) ← parseDisjunction (3 * String.length src + 3) src 1%nat;
  match rest with
  | EmptyString =>
      if (maxBackref r <? g)%nat then Ok r
      else Throw (Unsupported "octal escape")
  | _ => Throw (SyntaxError "Unmatched ')'")
  end.

(** *** Matching *)

(** The matcher state: the code unit before the current position (none at
    the start of the input), the rest of the input, and the captures. *)
Record mstate : Type := MState {
  ms_prev : option ascii;
  ms_rest : string;
  ms_caps : list (nat * string)
}.

Definition cont : Type := mstate -> option mstate.

Definition charEq (ic : bool) (a b : ascii) : bool :=
  if ic then Ascii.eqb (Js.canonicalize a) (Js.canonicalize b)
  else Ascii.eqb a b.

Definition itemHas (ci : citem) (c : ascii) : bool :=
  match ci with
  | CChar x => Ascii.eqb x c
  | CRange lo hi => Js.between (Js.code lo) (Js.code hi) c
  | CDigit => Js.isDigit c
  | CNotDigit => negb (Js.isDigit c)
  | CSpace => Js.isWhiteSpace c
  | CNotSpace => negb (Js.isWhiteSpace c)
  | CWord => Js.isWordChar c
  | CNotWord => negb (Js.isWordChar c)
  end.

(** Class membership; under the [i] flag a code unit is in the class when
    one of its case variants is. *)
Definition classHas (ic : bool) (items : list citem) (c : ascii) : bool :=
  existsb (fun ci =>
    itemHas ci c ||
    (ic && (itemHas ci (Js.canonicalize c) || itemHas ci (Js.toLowerChar c))))
    items.

Definition step (s : mstate) (c : ascii) (t : string) : mstate :=
  MState (Some c) t (ms_caps s).

Definition isWordAt (o : option ascii) : bool :=
  match o with
  | Some c => Js.isWordChar c
  | None => false
  end.

Definition nextChar (s : mstate) : option ascii :=
  match ms_rest s with
  | String c _ => Some c
  | EmptyString => None
  end.

Definition atWordBoundary (s : mstate) : bool :=
  xorb (isWordAt (ms_prev s)) (isWordAt (nextChar s)).

Definition getCap (i : nat) (s : mstate) : string :=
  match List.find (fun p => Nat.eqb (fst p) i) (ms_caps s) with
  | Some p => snd p
  | None => EmptyString
  end.

Definition setCap (i : nat) (v : string) (s : mstate) : mstate :=
  MState (ms_prev s) (ms_rest s)
    ((i, v) :: List.filter (fun p => negb (Nat.eqb (fst p) i)) (ms_caps s)).

Definition clearCaps (gs : list nat) (s : mstate) : mstate :=
  MState (ms_prev s) (ms_rest s)
    (List.filter (fun p => negb (existsb (Nat.eqb (fst p)) gs)) (ms_caps s)).

(** The text consumed between two states of one match. *)
Definition consumed (from to : mstate) : string :=
  Js.take (String.length (ms_rest from) - String.length (ms_rest to))
          (ms_rest from).

Fixpoint groupsOf (r : regex) : list nat :=
  match r with
  | RGroup i a => i :: groupsOf a
  | RSeq a b | RAlt a b => groupsOf a ++ groupsOf b
  | RQuant _ _ _ a => groupsOf a
  | _ => []
  end.

(** Matching a back-reference: the captured text, code unit by code unit. *)
Fixpoint matchText (ic : bool) (txt : string) (s : mstate) : option mstate :=
  match txt with
  | EmptyString => Some s
  | String c txt' =>
      match ms_rest s with
      | String x t =>
          if charEq ic c x then matchText ic txt' (step s x t) else None
      | EmptyString => None
      end
  end.

Definition decMax (mx : option nat) : option nat := option_map Nat.pred mx.

(** [run ic r s k]: match [r] at state [s], then the continuation [k];
    the first success in backtracking order.  A quantifier makes at most
    [min] iterations and then one per code unit consumed, an iteration
    that consumes nothing being rejected; the fuel of its loop is that
    bound. *)
Fixpoint run (ic : bool) (r : regex) (s : mstate) (k : cont) {struct r}
  : option mstate :=
  match r with
  | REmpty => k s
  | RChar c =>
      match ms_rest s with
      | String x t => if charEq ic c x then k (step s x t) else None
      | EmptyString => None
      end
  | RAny =>
      match ms_rest s with
      | String x t => if Js.isLineTerminator x then None else k (step s x t)
      | EmptyString => None
      end
  | RClass neg items =>
      match ms_rest s with
      | String x t =>
          if xorb neg (classHas ic items x) then k (step s x t) else None
      | EmptyString => None
      end
  | RSeq a b => run ic a s (fun s' => run ic b s' k)
  | RAlt a b =>
      match run ic a s k with
      | Some s' => Some s'
      | None => run ic b s k
      end
  | RGroup i a => run ic a s (fun s' => k (setCap i (consumed s s') s'))
  | RBackref i =>
      match matchText ic (getCap i s) s with
      | Some s' => k s'
      | None => None
      end
  | RWordB => if atWordBoundary s then k s else None
  | RNotWordB => if atWordBoundary s then None else k s
  | RBegin => match ms_prev s with None => k s | Some _ => None end
  | REnd => match ms_rest s with EmptyString => k s | String _ _ => None end
  | RQuant mn0 mx0 greedy a =>
      (fix rep (fuel : nat) (mn : nat) (mx : option nat) (s : mstate) (k : cont)
         {struct fuel} : option mstate :=
         match fuel with
         | O => None
         | S fuel' =>
             match mx with
             | Some O => k s
             | _ =>
                 let again (s' : mstate) :=
                   if Nat.eqb mn 0 &&
                      Nat.eqb (String.length (ms_rest s')) (String.length (ms_rest s))
                   then None
                   else rep fuel' (Nat.pred mn) (decMax mx) s' k in
                 let s0 := clearCaps (groupsOf a) s in
                 if Nat.ltb 0 mn then run ic a s0 again
                 else if greedy then
                   match run ic a s0 again with
                   | Some s' => Some s'
                   | None => k s
                   end
                 else
                   match k s with
                   | Some s' => Some s'
                   | None => run ic a s0 again
                   end
             end
         end) (String.length (ms_rest s) + mn0 + 2)%nat mn0 mx0 s k
  end.

(** *** Regular expression objects and the string methods that take them *)

Record t : Type := Re {
  source : string;
  ast : regex;
  ignoreCase : bool
}.

(** [new RegExp(src, flags)]; of the flags only [i] changes what a match
    is, the [g] flag is the choice between the [*All] and the first-match
    functions below. *)
Definition new (src : string) (ic : bool) : result t :=
  r ← parse src; Ok (Re src r ic).

(** A regular expression literal.  Its source is a constant of the
    program; [literals_compile] below shows that every literal used
    parses, so the fallback (a pattern that matches nothing) is never
    taken. *)
Definition lit (src : string) (ic : bool) : t :=
  match parse src with
  | Ok r => Re src r ic
  | Throw _ => Re src (RClass false []) ic
  end.

(** A successful match: the matched text, the captures, the code unit
    before the end of the match and the input after it. *)
Record found : Type := Found {
  f_text : string;
  f_caps : list (nat * string);
  f_last : option ascii;
  f_rest : string
}.

Definition group (i : nat) (m : found) : string :=
  match List.find (fun p => Nat.eqb (fst p) i) (f_caps m) with
  | Some p => snd p
  | None => EmptyString
  end.

(** A match starting exactly at the current position. *)
Definition matchAt (re : t) (prev : option ascii) (rest : string) : option found :=
  let s0 := MState prev rest [] in
  match run (ignoreCase re) (ast re) s0 Some with
  | Some s1 => Some (Found (consumed s0 s1) (ms_caps s1) (ms_prev s1) (ms_rest s1))
  | None => None
  end.

(** The leftmost match at or after the current position, with the text
    skipped before it. *)
Fixpoint searchFrom (re : t) (prev : option ascii) (rest : string)
  : option (string * found) :=
  match matchAt re prev rest with
  | Some m => Some (EmptyString, m)
  | None =>
      match rest with
      | EmptyString => None
      | String c rest' =>
          match searchFrom re (Some c) rest' with
          | Some (skipped, m) => Some (String c skipped, m)
          | None => None
          end
      end
  end.

(** [re.test(s)] *)
Definition test (re : t) (s : string) : bool :=
  match searchFrom re None s with
  | Some _ => true
  | None => false
  end.

(** [s.match(re)] without the [g] flag: the first match and its index. *)
Definition matchFirst (re : t) (s : string) : option (Z * found) :=
  match searchFrom re None s with
  | Some (skipped, m) => Some (Js.len skipped, m)
  | None => None
  end.

(** [s.replace(re, f)] without the [g] flag. *)
Definition replaceFirst (re : t) (f : found -> string) (s : string) : string :=
  match searchFrom re None s with
  | Some (skipped, m) => skipped +:+ f m +:+ f_rest m
  | None => s
  end.

(** The successive matches of a global regular expression: after a match
    the search resumes at its end, one code unit further when the match
    was empty.  Each match comes with the text skipped before it; the last
    component is the text after the last match. *)
Fixpoint scan (fuel : nat) (re : t) (prev : option ascii) (rest : string)
  : list (string * found) * string :=
  match fuel with
  | O => ([], rest)
  | S fuel' =>
      match searchFrom re prev rest with
      | None => ([], rest)
      | Some (skipped, m) =>
          match f_text m, f_rest m with
          | EmptyString, String c rest' =>
              let '(ms, tail) := scan fuel' re (Some c) rest' in
              match ms with
              | (sk, m') :: ms' => ((skipped, m) :: (String c sk, m') :: ms', tail)
              | [] => ([(skipped, m)], String c tail)
              end
          | EmptyString, EmptyString => ([(skipped, m)], EmptyString)
          | _, _ =>
              let '(ms, tail) := scan fuel' re (f_last m) (f_rest m) in
              ((skipped, m) :: ms, tail)
          end
      end
  end.

Definition scanAll (re : t) (s : string) : list (string * found) * string :=
  scan (S (String.length s)) re None s.

(** [s.replace(re, f)] with the [g] flag. *)
Definition replaceAll (re : t) (f : found -> string) (s : string) : string :=
  let '(ms, tail) := scanAll re s in
  List.fold_right (fun p acc => fst p +:+ f (snd p) +:+ acc) tail ms.

(** [s.match(re)] with the [g] flag: the matched texts, [null] when there
    is none. *)
Definition matchAll (re : t) (s : string) : option (list string) :=
  match fst (scanAll re s) with
  | [] => None
  | ms => Some (List.map (fun p => f_text (snd p)) ms)
  end.

(** [s.replace(pat, by)] with a string pattern: the first occurrence. *)
Fixpoint replaceString (pat by_ s : string) : string :=
  if Js.startsWith pat s then by_ +:+ Js.drop (String.length pat) s
  else match s with
       | EmptyString => EmptyString
       | String c t => String c (replaceString pat by_ t)
       end.

End RegExp.

(** ** Scores *)

Definition Qltb (x y : Q) : bool := negb (Qle_bool y x).
Definition Qmin (x y : Q) : Q := if Qle_bool x y then x else y.
Definition Qmax (x y : Q) : Q := if Qle_bool x y then y else x.

(** The quotient of two lengths or counts.  Every division of the source is
    guarded against a zero divisor or has a divisor that is at least 1. *)
Definition ratio (a b : nat) : Q :=
  inject_Z (Z.of_nat a) / inject_Z (Z.of_nat b).

(** ** The edit distance of the [fastest-levenshtein] package

    [lev] is the textbook recurrence; [distance] computes the same number
    row by row, as the imported function does in quadratic time. *)

Definition min3 (a b c : nat) : nat := Nat.min a (Nat.min b c).

Fixpoint lev (a b : string) {struct a} : nat :=
  match a with
  | EmptyString => String.length b
  | String x a' =>
      (fix inner (b : string) : nat :=
         match b with
         | EmptyString => String.length a
         | String y b' =>
             min3 (S (lev a' b)) (S (inner b'))
                  ((if Ascii.eqb x y then 0 else 1) + lev a' b')
         end) b
  end.

(** The distances from the empty string to every suffix of [b]. *)
Fixpoint baseRow (b : string) : list nat :=
  match b with
  | EmptyString => [0%nat]
  | String _ b' => String.length b :: baseRow b'
  end.

(** From the distances of [a'] to every suffix of [b] to those of
    [String x a']. *)
Fixpoint rowStep (x : ascii) (b : string) (prev : list nat) : list nat :=
  match b, prev with
  | String y b', p0 :: prev' =>
      let cur' := rowStep x b' prev' in
      min3 (S p0) (S (hd 0%nat cur'))
           ((if Ascii.eqb x y then 0 else 1) + hd 0%nat prev') :: cur'
  | _, p0 :: _ => [S p0]
  | _, [] => []
  end.

Fixpoint distRow (a b : string) : list nat :=
  match a with
  | EmptyString => baseRow b
  | String x a' => rowStep x b (distRow a' b)
  end.

Definition distance (a b : string) : nat := hd 0%nat (distRow a b).

(** The suffixes of a string, longest first: the columns of a row. *)
Fixpoint suffixes (b : string) : list string :=
  b :: match b with
       | String _ b' => suffixes b'
       | EmptyString => []
       end.

Definition cost (x y : ascii) : nat := if Ascii.eqb x y then 0 else 1.

(** ** The matcher *)

Module FuzzyMatcher.

Import RegExp.
Local Open Scope Q_scope.

(** *** Tables of the constructor *)

Definition stopWords : gset string := list_to_set
  ["the"; "a"; "an"; "and"; "or"; "but"; "in"; "on"; "at"; "to"; "for"; "of";
   "with"; "by"; "is"; "are"; "was"; "were";
   "this"; "that"; "these"; "those"; "be"; "been"; "being"; "have"; "has";
   "had"; "do"; "does"; "did"; "will"; "would";
   "could"; "should"; "may"; "might"; "must"; "can"; "shall"; "de"; "la";
   "le"; "el"; "les"; "los"; "las"; "un"; "une";
   "der"; "die"; "das"; "ein"; "eine"; "il"; "lo"; "la"; "gli"; "le"; "i"].

(** The release patterns; all carry the [g] flag, the second component is
    the [i] flag. *)
Definition releasePatterns : list (string * bool) :=
  [("\b(yify|rarbg|etrg|ettv|x264|h264|h265|hevc|xvid|divx|ac3|dts|bluray|brrip|webrip|hdtv|dvdrip|720p|1080p|2160p|4k|uhd)\b", true);
   ("\b(internal|proper|repack|dubbed|subbed|unrated|extended|directors?.cut|theatrical|imax|limited|festival|screener|cam|ts|tc)\b", true);
   ("\b(aac|mp3|flac|dts-hd|truehd|atmos|dolby|surround|5\.1|7\.1)\b", true);
   ("\b(multi|dual|audio|subs?|hard\.?coded|hc|forced)\b", true);
   ("\[.*?\]", false);
   ("\{.*?\}", false);
   ("\(.*?(720p|1080p|2160p|4k|x264|h264|h265|bluray|webrip|hdtv|dvdrip|year|\d{4}).*?\)", true);
   ("-\w+$", false);
   ("\.(mkv|mp4|avi|mov|wmv|flv|webm|m4v)$", true)].

Definition abbreviations : list (string * string) :=
  [("vs", "versus"); ("pt", "part"); ("vol", "volume"); ("ep", "episode");
   ("ch", "chapter"); ("no", "number"); ("nr", "number"); ("num", "number");
   ("&", "and"); ("w/", "with"); ("wo/", "without")].

(** The accented letters by code unit, in the order of the source.  The
    last key is above 255 and so never occurs in a modelled string. *)
Definition charMap : list (N * string) :=
  [(224%N, "a"); (225%N, "a"); (226%N, "a"); (227%N, "a"); (228%N, "a");
   (229%N, "a"); (230%N, "ae");
   (231%N, "c"); (232%N, "e"); (233%N, "e"); (234%N, "e"); (235%N, "e");
   (236%N, "i"); (237%N, "i");
   (238%N, "i"); (239%N, "i"); (241%N, "n"); (242%N, "o"); (243%N, "o");
   (244%N, "o"); (245%N, "o");
   (246%N, "o"); (248%N, "o"); (249%N, "u"); (250%N, "u"); (251%N, "u");
   (252%N, "u"); (253%N, "y");
   (255%N, "y"); (223%N, "ss"); (339%N, "oe")].

Definition romanToNum : gmap string string := list_to_map
  [("i", "1"); ("ii", "2"); ("iii", "3"); ("iv", "4"); ("v", "5");
   ("vi", "6"); ("vii", "7"); ("viii", "8"); ("ix", "9"); ("x", "10")].

Definition phoneticMap : list (string * string) :=
  [("ph", "f"); ("gh", "f"); ("ck", "k"); ("qu", "k"); ("x", "ks");
   ("th", "t"); ("sh", "s"); ("ch", "s"); ("wh", "w")].

Definition const (s : string) : found -> string := fun _ => s.

(** *** normalizeText *)

(** [abbrev.replace(/[.*+?^${}()|[\]\\]/g, '\\$&')] *)
Definition escapeRegExp (s : string) : string :=
  replaceAll (lit "[.*+?^${}()|[\]\\]" false)
             (fun m => String "\"%char (f_text m)) s.

Definition replaceAccented (normalized : string) (entry : N * string) : string :=
  let '(accented, plain) := entry in
  if (accented <? 256)%N
  then replaceAll (lit (String (Js.chr accented) EmptyString) false)
                  (const plain) normalized
  else normalized.

Definition expandAbbreviation (normalized : string) (entry : string * string)
  : string :=
  let '(abbrev, expansion) := entry in
  replaceAll (lit ("\b" +:+ escapeRegExp abbrev +:+ "\b") true)
             (const expansion) normalized.

Definition removeRelease (normalized : string) (pattern : string * bool)
  : string :=
  replaceAll (lit (fst pattern) (snd pattern)) (const " ") normalized.

Definition romanNumeral (m : found) : string :=
  match romanToNum !! Js.toLowerCase (group 1 m) with
  | Some n => if String.eqb n EmptyString then f_text m else n
  | None => f_text m
  end.

Definition removeStopWords (normalized : string) : list string :=
  List.filter
    (fun word => (0 <? String.length word)%nat && negb (bool_decide (word ∈ stopWords)))
    (Js.split " " normalized).

Definition normalizeText (text : string) : string :=
  if String.eqb text EmptyString then EmptyString else
  let normalized := Js.toLowerCase text in
  let normalized := List.fold_left replaceAccented charMap normalized in
  let normalized := List.fold_left expandAbbreviation abbreviations normalized in
  let normalized := List.fold_left removeRelease releasePatterns normalized in
  let normalized :=
    replaceAll (lit "\b(?:part\s+)?([ivx]+)\b" false) romanNumeral normalized in
  let normalized := replaceAll (lit "['']" false) (const EmptyString) normalized in
  let normalized := replaceAll (lit "[^\w\s]" false) (const " ") normalized in
  let normalized := replaceAll (lit "\s+" false) (const " ") normalized in
  let normalized := Js.trim normalized in
  Js.join " " (removeStopWords normalized).

(** *** generatePhoneticCode *)

Definition phoneticReplace (code : string) (entry : string * string) : string :=
  replaceAll (lit (fst entry) false) (const (snd entry)) code.

Definition generatePhoneticCode (word : string) : string :=
  if String.eqb word EmptyString then EmptyString else
  let code := Js.toLowerCase word in
  let code := replaceAll (lit "(.)\1+" false) (group 1) code in
  let code := List.fold_left phoneticReplace phoneticMap code in
  match code with
  | String c rest =>
      String c (replaceAll (lit "[aeiou]" false) (const EmptyString) rest)
  | EmptyString => "undefined"
  end.

(** *** The five metrics *)

Definition calculateLevenshteinSimilarity (str1 str2 : string) : Q :=
  let maxLen := Nat.max (String.length str1) (String.length str2) in
  if Nat.eqb maxLen 0 then 1
  else 1 - ratio (distance str1 str2) maxLen.

Definition charSet (s : string) : gset ascii :=
  list_to_set (list_ascii_of_string s).

Definition calculateJaccardSimilarity (str1 str2 : string) : Q :=
  let set1 := charSet str1 in
  let set2 := charSet str2 in
  let intersection := set1 ∩ set2 in
  let union := set1 ∪ set2 in
  if Nat.eqb (size union) 0 then 0
  else ratio (size intersection) (size union).

(** The inner loop of the phonetic metric: a word of the second list with
    the same, non-empty, phonetic code. *)
Definition hasPhoneticMatch (words2 : list string) (word1 : string) : bool :=
  let code1 := generatePhoneticCode word1 in
  existsb (fun word2 =>
             String.eqb code1 (generatePhoneticCode word2) &&
             (0 <? String.length code1)%nat) words2.

Definition calculatePhoneticSimilarity (str1 str2 : string) : Q :=
  let words1 := Js.split " " str1 in
  let words2 := Js.split " " str2 in
  let total := Nat.max (List.length words1) (List.length words2) in
  let matches :=
    List.fold_left
      (fun matches word1 =>
         if hasPhoneticMatch words2 word1 then S matches else matches)
      words1 0%nat in
  if Nat.eqb total 0 then 0 else ratio matches total.

Fixpoint ngramsFrom (fuel : nat) (n : nat) (s : string) : list string :=
  match fuel with
  | O => []
  | S fuel' =>
      Js.take n s ::
      match s with
      | String _ t => ngramsFrom fuel' n t
      | EmptyString => []
      end
  end.

(** The substrings of length [n] of the padded string, from index 0 to
    [paddedStr.length - n]. *)
Definition generateNGrams (str : string) (n : nat) : list string :=
  let pad := Js.repeat " " (n - 1) in
  let paddedStr := pad +:+ str +:+ pad in
  ngramsFrom (S (String.length paddedStr) - n) n paddedStr.

Definition calculateNGramSimilarity (str1 str2 : string) (n : nat) : Q :=
  let ngrams1 := generateNGrams str1 n in
  let ngrams2 := generateNGrams str2 n in
  if Nat.eqb (List.length ngrams1) 0 && Nat.eqb (List.length ngrams2) 0 then 1
  else if Nat.eqb (List.length ngrams1) 0 || Nat.eqb (List.length ngrams2) 0 then 0
  else
    let set1 : gset string := list_to_set ngrams1 in
    let set2 : gset string := list_to_set ngrams2 in
    ratio (size (set1 ∩ set2)) (size (set1 ∪ set2)).

(** The inner loop of the token metric: the best partner of [word1] among
    the words of the second list that are neither exact matches nor
    already used.  The length ratio never divides by zero: two empty
    words are equal, hence exact matches, and are skipped before. *)
Definition bestPartner (exactMatches used2 : gset string) (word1 : string)
    (words2 : list string) : Q * option string :=
  List.fold_left
    (fun (best : Q * option string) word2 =>
       if bool_decide (word2 ∈ exactMatches) || bool_decide (word2 ∈ used2)
       then best
       else
         let lengthRatio :=
           ratio (Nat.min (String.length word1) (String.length word2))
                 (Nat.max (String.length word1) (String.length word2)) in
         if Qltb lengthRatio (5 # 10) then best
         else
           let similarity := calculateLevenshteinSimilarity word1 word2 in
           if Qltb (fst best) similarity && Qltb (7 # 10) similarity
           then (similarity, Some word2)
           else best)
    words2 (0, None).

(** The outer loop: the sum of the best similarities and the words of the
    second list used up. *)
Definition partialLoop (exactMatches : gset string) (words1 words2 : list string)
  : Q * gset string :=
  List.fold_left
    (fun (st : Q * gset string) word1 =>
       if bool_decide (word1 ∈ exactMatches) then st
       else
         let '(bestMatch, bestWord) :=
           bestPartner exactMatches (snd st) word1 words2 in
         match bestWord with
         | Some w =>
             if Js.truthy bestWord
             then (fst st + bestMatch, {[ w ]} ∪ snd st)
             else st
         | None => st
         end)
    words1 (0, ∅).

Definition calculateWordSimilarity (words1 words2 : list string) : Q :=
  if Nat.eqb (List.length words1) 0 && Nat.eqb (List.length words2) 0 then 1
  else if Nat.eqb (List.length words1) 0 || Nat.eqb (List.length words2) 0 then 0
  else
    let set1 : gset string := list_to_set words1 in
    let set2 : gset string := list_to_set words2 in
    let exactMatches := set1 ∩ set2 in
    let partialMatches := fst (partialLoop exactMatches words1 words2) in
    let totalWords := Nat.max (List.length words1) (List.length words2) in
    let exactScore := ratio (size exactMatches) totalWords in
    let partialScore := partialMatches / inject_Z (Z.of_nat totalWords) in
    exactScore + partialScore * (7 # 10).

(** *** calculateSimilarity *)

(** The weighted sum of the five metrics, before the final [Math.min]. *)
Definition weightedScore (norm1 norm2 : string) : Q :=
  let levenshteinSim := calculateLevenshteinSimilarity norm1 norm2 in
  let jaccardSim := calculateJaccardSimilarity norm1 norm2 in
  let phoneticSim := calculatePhoneticSimilarity norm1 norm2 in
  let wordSim := calculateWordSimilarity (Js.split " " norm1) (Js.split " " norm2) in
  let ngramSim := calculateNGramSimilarity norm1 norm2 2 in
  levenshteinSim * (25 # 100) +
  jaccardSim * (20 # 100) +
  phoneticSim * (15 # 100) +
  wordSim * (25 # 100) +
  ngramSim * (15 # 100).

Definition calculateSimilarity (str1 str2 : string) : Q :=
  if String.eqb str1 EmptyString || String.eqb str2 EmptyString then 0 else
  let norm1 := normalizeText str1 in
  let norm2 := normalizeText str2 in
  if String.eqb norm1 norm2 then 1
  else if Nat.eqb (String.length norm1) 0 || Nat.eqb (String.length norm2) 0 then 0
  else if Js.includes norm1 norm2 || Js.includes norm2 norm1 then
    let longer := if (String.length norm2 <? String.length norm1)%nat then norm1 else norm2 in
    let shorter := if (String.length norm1 <=? String.length norm2)%nat then norm1 else norm2 in
    (85 # 100) + (15 # 100) * ratio (String.length shorter) (String.length longer)
  else Qmin 1 (weightedScore norm1 norm2).

(** *** extractTitle and extractYear *)

Definition cleanPatterns : list (string * bool) :=
  [("\b\d{3,4}p\b.*$", true);
   ("\bhdtv\b.*$", true);
   ("\bbluray\b.*$", true);
   ("\bwebrip\b.*$", true);
   ("\bx264\b.*$", true);
   ("\bh264\b.*$", true);
   ("\[-.*?-\]$", false)].

Definition extractTitle (filename : string) : string :=
  let basename :=
    replaceFirst (lit "\.(srt|vtt|ass|ssa|sub)$" true) (const EmptyString) filename in
  let basename :=
    replaceFirst (lit "^(www\.|download\.|get\.|watch\.|stream\.)" true)
                 (const EmptyString) basename in
  let basename :=
    replaceFirst (lit "\.(com|org|net|tv|me|to)$" true) (const EmptyString) basename in
  let basename :=
    match matchFirst (lit "\b(19|20)\d{2}\b" false) basename with
    | Some (_, yearMatch) =>
        let yearIndex := Js.indexOf basename (f_text yearMatch) in
        let afterYear := Js.trim (Js.substringFrom basename (yearIndex + 4)) in
        if (String.length afterYear <? 10)%nat ||
           test (lit "^[\s\-._\[\]()]*$" false) afterYear
        then Js.trim (Js.substring basename 0 yearIndex)
        else basename
    | None => basename
    end in
  let basename :=
    replaceFirst
      (lit "\b(s\d{1,2}e\d{1,2}|season\s*\d+|episode\s*\d+|\d+x\d+)\b.*$" true)
      (const EmptyString) basename in
  let basename :=
    List.fold_left
      (fun b (pattern : string * bool) =>
         replaceFirst (lit (fst pattern) (snd pattern)) (const EmptyString) b)
      cleanPatterns basename in
  normalizeText basename.

(** The window of the file name around a candidate year: up to 10 code
    units before it and 16 after it. *)
Definition yearContext (filename year : string) : string :=
  let yearIndex := Js.indexOf filename year in
  let before := Js.substring filename (Z.max 0 (yearIndex - 10)) yearIndex in
  let after := Js.substring filename (yearIndex + 4) (yearIndex + 20) in
  before +:+ year +:+ after.

(** The test applied to each candidate year of [extractYear]. *)
Definition yearAccepted (filename year : string) : bool :=
  let yearNum := Js.parseInt year in
  Js.numLe (Some 1920%Z) yearNum && Js.numLe yearNum (Some 2030%Z) &&
  negb (test (lit "\d{3,4}p" true) (yearContext filename year)).

Definition yearPattern : RegExp.t := lit "\b(19[2-9]\d|20[0-5]\d)\b" false.

Definition extractYear (filename : string) : option string :=
  match matchAll yearPattern filename with
  | None => None
  | Some yearMatches =>
      match List.find (yearAccepted filename) yearMatches with
      | Some year => Some year
      | None => List.head yearMatches
      end
  end.

(** *** Match results *)

Record matchResult : Type := MatchResult {
  score : Q;
  method : string;
  pattern : option string
}.

Definition mk (sc : Q) (m : string) : matchResult := MatchResult sc m None.

(** The first pattern of the list that matches, as the loops over
    [directPatterns], [separatorPatterns] and [exactPatterns] find it. *)
Definition firstMatching (patterns : list RegExp.t) (s : string) : option RegExp.t :=
  List.find (fun p => test p s) patterns.

(** *** matchesImdbId *)

(** The loop over the 6 to 8 digit runs of the file name. *)
Fixpoint fuzzyImdb (numericId : string) (idMatches : list string)
  : option matchResult :=
  match idMatches with
  | [] => None
  | m :: rest =>
      let similarity := calculateLevenshteinSimilarity m numericId in
      if Nat.eqb (String.length m) (String.length numericId) &&
         Qle_bool (8 # 10) similarity
      then Some (mk (similarity * (9 # 10)) "fuzzy_imdb_exact_length")
      else if (String.length numericId <? String.length m)%nat &&
              Js.includes m numericId
      then Some (mk (85 # 100) "imdb_substring")
      else if (String.length m <? String.length numericId)%nat &&
              Js.includes numericId m
      then Some (mk (75 # 100) "imdb_partial")
      else fuzzyImdb numericId rest
  end.

Definition matchesImdbId (filename imdbId : string) : result matchResult :=
  let numericId := replaceString "tt" EmptyString imdbId in
  let filenameLC := Js.toLowerCase filename in
  directPatterns ← mapM (fun p : string * bool => RegExp.new (fst p) (snd p))
    [("\btt" +:+ numericId +:+ "\b", true);
     ("\b" +:+ numericId +:+ "\b", false);
     ("imdb[\s\-_]*" +:+ numericId, true);
     ("\[" +:+ numericId +:+ "\]", false);
     ("\(" +:+ numericId +:+ "\)", false);
     ("\b" +:+ imdbId +:+ "\b", true)];
  match firstMatching directPatterns filenameLC with
  | Some p => Ok (MatchResult 1 "direct_imdb" (Some (source p)))
  | None =>
      match
        match matchAll (lit "\b\d{6,8}\b" false) filename with
        | Some idMatches => fuzzyImdb numericId idMatches
        | None => None
        end
      with
      | Some r => Ok r
      | None =>
          separatorPatterns ← mapM (fun src => RegExp.new src true)
            ["imdb[\s\-_\.]*" +:+ numericId;
             "tt[\s\-_\.]*" +:+ numericId;
             "\b" +:+ numericId +:+ "[\s\-_\.]*imdb"];
          match firstMatching separatorPatterns filenameLC with
          | Some _ => Ok (mk (9 # 10) "imdb_with_separator")
          | None => Ok (mk 0 "no_imdb_match")
          end
      end
  end.

(** *** matchesByTitle *)

Definition yearAdjustment (targetYear fileYear : option string) : Q * Q :=
  if Js.truthy targetYear && Js.truthy fileYear then
    let yearDiff :=
      Js.numAbs (Js.numSub (Js.parseInt (default EmptyString fileYear))
                           (Js.parseInt (default EmptyString targetYear))) in
    if Js.numEq yearDiff (Some 0%Z) then (25 # 100, 0)
    else if Js.numEq yearDiff (Some 1%Z) then (15 # 100, 0)
    else if Js.numLe yearDiff (Some 3%Z) then (5 # 100, 0)
    else if Js.numGt yearDiff (Some 10%Z) then (0, 2 # 10)
    else (0, 0)
  else if Js.truthy targetYear && negb (Js.truthy fileYear) then (5 # 100, 0)
  else if negb (Js.truthy targetYear) && Js.truthy fileYear then (3 # 100, 0)
  else (1 # 10, 0).

Definition matchesByTitle (filename targetTitle : string)
    (targetYear : option string) (threshold : Q) : matchResult :=
  let fileTitle := extractTitle filename in
  let fileYear := extractYear filename in
  if String.eqb fileTitle EmptyString then mk 0 "no_title" else
  let normalizedTarget := normalizeText targetTitle in
  let titleSimilarity := calculateSimilarity fileTitle normalizedTarget in
  let '(yearBonus, yearPenalty) := yearAdjustment targetYear fileYear in
  let lengthRatio :=
    ratio (Nat.min (String.length fileTitle) (String.length normalizedTarget))
          (Nat.max (String.length fileTitle) (String.length normalizedTarget)) in
  let lengthBonus := if Qltb (7 # 10) lengthRatio then 1 # 10 else 0 in
  let fileWords := List.length (Js.split " " fileTitle) in
  let targetWords := List.length (Js.split " " normalizedTarget) in
  let wordCountRatio :=
    ratio (Nat.min fileWords targetWords) (Nat.max fileWords targetWords) in
  let wordCountBonus := if Qltb (8 # 10) wordCountRatio then 5 # 100 else 0 in
  let finalScore :=
    titleSimilarity + yearBonus + lengthBonus + wordCountBonus - yearPenalty in
  let finalScore := Qmax 0 (Qmin 1 finalScore) in
  let finalScore :=
    if Qltb threshold finalScore then
      let finalScore :=
        if test (lit "\b(sample|trailer|teaser|preview|clip|demo|test)\b" true) filename
        then finalScore * (5 # 10) else finalScore in
      if (String.length normalizedTarget <? 5)%nat && Qltb titleSimilarity (9 # 10)
      then finalScore * (6 # 10) else finalScore
    else finalScore in
  if Qle_bool threshold finalScore
  then mk finalScore "enhanced_title_match"
  else mk finalScore "below_threshold".

(** *** matchesEpisode *)

(** The sources of [exactPatterns], in the order of the source; all carry
    the [i] flag. *)
Definition exactPatternSources (season episode : Js.num) : list string :=
  let s := Js.numToString season in
  let e := Js.numToString episode in
  let seasonPadded := Js.padStart 2 "0" s in
  let episodePadded := Js.padStart 2 "0" e in
  let sep := "[\s\-_\.]" in
  [ "s" +:+ seasonPadded +:+ "e" +:+ episodePadded +:+ "\b";
    "s" +:+ s +:+ "e" +:+ e +:+ "\b";
    s +:+ "x" +:+ episodePadded +:+ "\b";
    s +:+ "x" +:+ e +:+ "\b";
    "s" +:+ seasonPadded +:+ sep +:+ "*e" +:+ episodePadded;
    "s" +:+ s +:+ sep +:+ "*e" +:+ e;
    "season" +:+ sep +:+ "*" +:+ s +:+ sep +:+ "*episode" +:+ sep +:+ "*" +:+ e;
    "season" +:+ sep +:+ "*" +:+ seasonPadded +:+ sep +:+ "*episode" +:+ sep
      +:+ "*" +:+ episodePadded;
    "s" +:+ s +:+ sep +:+ "?ep?" +:+ e +:+ "\b";
    "s" +:+ seasonPadded +:+ sep +:+ "?ep?" +:+ episodePadded +:+ "\b";
    "\bs" +:+ s +:+ episodePadded +:+ "\b";
    "\bs" +:+ seasonPadded +:+ episodePadded +:+ "\b";
    "\.s" +:+ seasonPadded +:+ "\.e" +:+ episodePadded +:+ "\.";
    "\." +:+ s +:+ "x" +:+ episodePadded +:+ "\.";
    "\[s" +:+ seasonPadded +:+ "e" +:+ episodePadded +:+ "\]";
    "\(s" +:+ seasonPadded +:+ "e" +:+ episodePadded +:+ "\)";
    "season[\s\-_]*" +:+ s +:+ "[\s\-_]*ep[\s\-_]*" +:+ e;
    "s" +:+ s +:+ "[\s\-_]*" +:+ episodePadded ].

Definition exactPatterns (season episode : Js.num) : result (list RegExp.t) :=
  mapM (fun src => RegExp.new src true) (exactPatternSources season episode).

(** The loop over the adjacent pairs of 1 to 3 digit runs. *)
Fixpoint fuzzyEpisode (season episode : Js.num) (numberMatches : list string)
  : option matchResult :=
  match numberMatches with
  | a :: ((b :: _) as rest) =>
      let s := Js.parseInt a in
      let e := Js.parseInt b in
      if Js.numEq s season && Js.numEq e episode
      then Some (mk (95 # 100) "fuzzy_episode_exact")
      else if Js.numEq s season &&
              Js.numEq (Js.numAbs (Js.numSub e episode)) (Some 1%Z)
      then Some (mk (8 # 10) "fuzzy_episode_close")
      else if Js.numEq s season
      then Some (mk (6 # 10) "fuzzy_season_only")
      else fuzzyEpisode season episode rest
  | _ => None
  end.

(** The loop over the digit runs when the season is 1. *)
Definition episodeOnly (filenameLC : string) (episode : Js.num)
    (numberMatches : list string) : bool :=
  existsb
    (fun m =>
       let num := Js.parseInt m in
       Js.numEq num episode &&
       Js.numLe num (Some 50%Z) &&
       negb (Js.includes filenameLC (Js.numToString num +:+ "p")) &&
       negb (Js.includes filenameLC (Js.numToString num +:+ "k")))
    numberMatches.

Definition matchesEpisode (filename : string) (season episode : Js.num)
  : result matchResult :=
  let filenameLC := Js.toLowerCase filename in
  patterns ← exactPatterns season episode;
  match firstMatching patterns filenameLC with
  | Some p => Ok (MatchResult 1 "exact_episode" (Some (source p)))
  | None =>
      let numberMatches := matchAll (lit "\b\d{1,3}\b" false) filenameLC in
      match
        match numberMatches with
        | Some ms =>
            if (2 <=? List.length ms)%nat then fuzzyEpisode season episode ms
            else None
        | None => None
        end
      with
      | Some r => Ok r
      | None =>
          if Js.numEq season (Some 1%Z) &&
             match numberMatches with
             | Some ms => episodeOnly filenameLC episode ms
             | None => false
             end
          then Ok (mk (7 # 10) "episode_only_s1")
          else
            multiSeasonPattern ←
              RegExp.new ("season[\s\-_]*" +:+ Js.numToString season) true;
            if test multiSeasonPattern filenameLC
            then Ok (mk (5 # 10) "season_pack")
            else Ok (mk 0 "no_match")
      end
  end.

(** *** analyzeFilename *)

Definition analyzeFilename (filename : string)
    (targetTitle targetYear : option string) : matchResult :=
  let basename := Js.basename filename (Js.extname filename) in
  let score := 0 in
  let score :=
    if Js.truthy targetYear &&
       Js.includes basename (default EmptyString targetYear)
    then score + (2 # 10) else score in
  let score :=
    if Js.truthy targetTitle then
      let titleWords := Js.split " " (normalizeText (default EmptyString targetTitle)) in
      let filenameWords := Js.split " " (normalizeText basename) in
      let wordMatches :=
        List.filter
          (fun word =>
             existsb (fun fw => Js.includes fw word || Js.includes word fw)
                     filenameWords)
          titleWords in
      if (0 <? List.length wordMatches)%nat
      then score + ratio (List.length wordMatches) (List.length titleWords) * (3 # 10)
      else score
    else score in
  let score :=
    if test (lit "\b(1080p|720p|4k|bluray|web-dl|webrip)\b" true) basename
    then score + (1 # 10) else score in
  let score :=
    if test (lit "\b(sample|trailer|preview|cam|ts|screener)\b" true) basename
    then score - (3 # 10) else score in
  mk (Qmax 0 (Qmin 1 score)) "filename_analysis".

(** *** findBestMatches *)

Record file : Type := File {
  name : string;
  path : string;
  download_url : string
}.

Record strategy : Type := Strategy {
  s_result : matchResult;
  s_name : string;
  weight : Q
}.

Definition s_score (s : strategy) : Q := score (s_result s).

(** [strategies.reduce((best, current) =>
      current.score > best.score ? current : best)] *)
Definition bestOf (strategies : list strategy) (first : strategy) : strategy :=
  List.fold_left
    (fun best current => if Qltb (s_score best) (s_score current) then current else best)
    strategies first.

Definition sumQ (l : list Q) : Q := List.fold_left Qplus l 0.

Definition combineMovie (strategies : list strategy) : matchResult :=
  match strategies with
  | [] => mk 0 "none"
  | first :: rest =>
      let bestStrategy := s_result (bestOf rest first) in
      if (1 <? List.length
                 (List.filter (fun s => Qltb (5 # 10) (s_score s)) strategies))%nat
      then
        let combinedScore :=
          sumQ (List.map (fun s => s_score s * weight s) strategies) /
          sumQ (List.map weight strategies) in
        if Qltb (score bestStrategy) combinedScore
        then mk combinedScore "multi_strategy"
        else bestStrategy
      else bestStrategy
  end.

Definition movieStrategies (imdbMatch : matchResult) (filename : string)
    (targetTitle targetYear : option string) : list strategy :=
  [Strategy imdbMatch "imdb" (7 # 10)] ++
  (if Js.truthy targetTitle
   then [Strategy (matchesByTitle filename (default EmptyString targetTitle)
                                  targetYear (5 # 10))
                  "title" (6 # 10)]
   else []) ++
  [Strategy (analyzeFilename filename targetTitle targetYear) "filename" (4 # 10)].

(** The combination of the episode and the identifier result of a series
    request with season and episode. *)
Definition combineSeries (episodeMatch imdbMatch : matchResult) : matchResult :=
  if Qltb 0 (score episodeMatch) && Qltb 0 (score imdbMatch) then
    mk (score episodeMatch * (7 # 10) + score imdbMatch * (3 # 10)) "series_combined"
  else if Qltb (6 # 10) (score episodeMatch) then episodeMatch
  else if Qltb (7 # 10) (score imdbMatch) && Qltb (2 # 10) (score episodeMatch) then
    mk (score imdbMatch * (6 # 10) + score episodeMatch * (4 # 10))
       "series_imdb_weighted"
  else if Qltb (score imdbMatch) (score episodeMatch) then episodeMatch
  else imdbMatch.

(** The body of the loop over the files: the match result of one file. *)
Definition matchFile (type id : string) (targetTitle targetYear : option string)
    (f : file) : result matchResult :=
  if String.eqb type "movie" then
    imdbMatch ← matchesImdbId (name f) id;
    Ok (combineMovie (movieStrategies imdbMatch (name f) targetTitle targetYear))
  else if String.eqb type "series" then
    let parts := Js.split ":" id in
    let imdbId := List.nth 0 parts EmptyString in
    let season := List.nth_error parts 1 in
    let episode := List.nth_error parts 2 in
    if Js.truthy season && Js.truthy episode then
      let seasonNum := Js.parseInt (default EmptyString season) in
      let episodeNum := Js.parseInt (default EmptyString episode) in
      episodeMatch ← matchesEpisode (name f) seasonNum episodeNum;
      imdbMatch ← matchesImdbId (name f) imdbId;
      Ok (combineSeries episodeMatch imdbMatch)
    else matchesImdbId (name f) imdbId
  else Ok (mk 0 "none").

Record ranked : Type := Ranked {
  r_file : file;
  r_match : matchResult
}.

Definition methodPriority : gmap string Z := list_to_map
  [("direct_imdb", 10%Z); ("exact_episode", 9%Z); ("series_combined", 8%Z);
   ("enhanced_title_match", 7%Z); ("multi_strategy", 6%Z);
   ("fuzzy_imdb_exact_length", 5%Z); ("fuzzy_episode_exact", 4%Z)].

(** [methodPriority[method] || 0]: the number of the table, 0 for a
    method that is not in it, and for a method that is a key of
    [Object.prototype] the inherited value, which is not a number. *)
Inductive priority : Type :=
| Priority (p : Z)
| InheritedValue.

Definition priorityOf (m : matchResult) : priority :=
  match methodPriority !! method m with
  | Some p => if (p =? 0)%Z then Priority 0 else Priority p
  | None =>
      if existsb (String.eqb (method m)) Js.inheritedKeys
      then InheritedValue else Priority 0
  end.

(** The comparator handed to [sort]: negative when [a] goes first.  The
    difference with an inherited value is [NaN], which [sort] reads as
    [+0]. *)
Definition compareMatches (a b : ranked) : Q :=
  if Qltb (Qabs (score (r_match a) - score (r_match b))) (1 # 100)
  then match priorityOf (r_match a), priorityOf (r_match b) with
       | Priority aPriority, Priority bPriority =>
           inject_Z (bPriority - aPriority)
       | _, _ => 0
       end
  else score (r_match b) - score (r_match a).

(** [Array.prototype.sort] as V8, the engine of Node, runs it on an array
    of fewer than 64 elements, which is one run of its merge sort: the
    leading run is counted, and reversed when it is strictly descending;
    every later element is then placed into the sorted part by a binary
    search.  The comparator puts its first argument first when its result
    is negative.  A longer array is merged from runs of this kind; under a
    comparator that is a consistent total preorder every stable sort
    returns the same order, and the model sorts a longer array as one run
    too. *)
Definition before {A : Type} (cmp : A -> A -> Q) (x y : A) : bool :=
  Qltb (cmp x y) 0.

(** The elements that continue the run after [previousElement], and the
    rest: a descending run goes on while the next element goes before the
    previous one, an ascending run while it does not. *)
Fixpoint continueRun {A : Type} (cmp : A -> A -> Q) (isDescending : bool)
    (previousElement : A) (l : list A) : list A * list A :=
  match l with
  | [] => ([], [])
  | currentElement :: rest =>
      if Bool.eqb (before cmp currentElement previousElement) isDescending
      then let '(run, rest') := continueRun cmp isDescending currentElement rest in
           (currentElement :: run, rest')
      else ([], l)
  end.

Definition countAndMakeRun {A : Type} (cmp : A -> A -> Q) (l : list A)
  : list A * list A :=
  match l with
  | elementHigh :: elementLow :: rest =>
      let isDescending := before cmp elementLow elementHigh in
      let '(run, rest') := continueRun cmp isDescending elementLow rest in
      let run := elementHigh :: elementLow :: run in
      (if isDescending then List.rev run else run, rest')
  | _ => (l, [])
  end.

(** The binary search for the place of [pivot] between [left] and
    [right]; each step halves the distance, which [fuel] bounds. *)
Fixpoint searchPlace {A : Type} (cmp : A -> A -> Q) (pivot : A)
    (sorted : list A) (fuel left right : nat) : nat :=
  match fuel with
  | O => left
  | S fuel' =>
      if (left <? right)%nat then
        let mid := (left + (right - left) / 2)%nat in
        match sorted !! mid with
        | Some element =>
            if before cmp pivot element
            then searchPlace cmp pivot sorted fuel' left mid
            else searchPlace cmp pivot sorted fuel' (S mid) right
        | None => left
        end
      else left
  end.

Definition insertPivot {A : Type} (cmp : A -> A -> Q) (sorted : list A)
    (pivot : A) : list A :=
  let left :=
    searchPlace cmp pivot sorted (List.length sorted) 0 (List.length sorted) in
  take left sorted ++ pivot :: drop left sorted.

Definition binaryInsertionSort {A : Type} (cmp : A -> A -> Q)
    (run rest : list A) : list A :=
  List.fold_left (insertPivot cmp) rest run.

Definition sort {A : Type} (cmp : A -> A -> Q) (l : list A) : list A :=
  let '(run, rest) := countAndMakeRun cmp l in
  binaryInsertionSort cmp run rest.

(** The candidates that pass the threshold, in the order of the files. *)
Fixpoint collect (type id : string) (targetTitle targetYear : option string)
    (minScore : Q) (files : list file) : result (list ranked) :=
  match files with
  | [] => Ok []
  | f :: rest =>
      matchResult ← matchFile type id targetTitle targetYear f;
      matches ← collect type id targetTitle targetYear minScore rest;
      if Qle_bool minScore (score matchResult)
      then Ok (Ranked f matchResult :: matches)
      else Ok matches
  end.

Definition defaultMinScore : Q := 4 # 10.

Definition findBestMatches (files : list file) (type id : string)
    (targetTitle targetYear : option string) (minScore : Q)
  : result (list ranked) :=
  matches ← collect type id targetTitle targetYear minScore files;
  Ok (sort compareMatches matches).

(** *** The call of the subtitles handler *)

(** The two fields of the metadata that the handler reads; each may be
    missing. *)
Record movieInfo : Type := MovieInfo {
  title : option string;
  year : option string
}.

Definition handlerMinScore : Q := 3 # 10.

(** [handleSubtitlesRequest] from the fetched file list on: the metadata is
    looked up for movies only, its title and its year are passed on each
    as it is, and an exception of the matcher ends in the handler's
    [catch], which answers with no subtitles. *)
Definition handlerMatches (files : list file) (type id : string)
    (info : option movieInfo) : list ranked :=
  let '(targetTitle, targetYear) :=
    match (if String.eqb type "movie" then info else None) with
    | Some i => (title i, year i)
    | None => (None, None)
    end in
  match findBestMatches files type id targetTitle targetYear handlerMinScore with
  | Ok matches => matches
  | Throw _ => []
  end.

End FuzzyMatcher.

(** * Statements

    The predicates in which the properties below are stated. *)

Module Spec.

Import FuzzyMatcher.
Local Open Scope Q_scope.

(** What the inner loop of the token metric returns: a similarity in
    [0, 1] and, if any, a word of the second list that is neither an exact
    match nor used. *)
Definition partnerOk (exactMatches used2 : gset string) (words2 : list string)
    (best : Q * option string) : Prop :=
  (0 <= fst best <= 1) /\
  forall w, snd best = Some w ->
            In w words2 /\ (w ∉ exactMatches) /\ (w ∉ used2).

(** The invariant of the outer loop: the sum of the partial similarities
    is at most the number of words used, all taken from the second list
    outside the exact matches. *)
Definition partialOk (exactMatches : gset string) (words2 : list string)
    (st : Q * gset string) : Prop :=
  (0 <= fst st <= inject_Z (Z.of_nat (size (snd st)))) /\
  snd st ⊆ (list_to_set words2 : gset string) ∖ exactMatches.

(** The sources of the regular expression literals of the matcher, and of
    the expressions it builds from its own constant tables. *)
Definition literalSources : list string :=
  "[.*+?^${}()|[\]\\]" ::
  List.map (fun e : N * string => String (Js.chr (fst e)) EmptyString)
           (List.filter (fun e : N * string => (fst e <? 256)%N) charMap) ++
  List.map (fun e : string * string => "\b" +:+ escapeRegExp (fst e) +:+ "\b")
           abbreviations ++
  List.map fst releasePatterns ++
  ["\b(?:part\s+)?([ivx]+)\b"; "['']"; "[^\w\s]"; "\s+"; "(.)\1+"; "[aeiou]"] ++
  List.map fst phoneticMap ++
  ["\.(srt|vtt|ass|ssa|sub)$"; "^(www\.|download\.|get\.|watch\.|stream\.)";
   "\.(com|org|net|tv|me|to)$"; "\b(19|20)\d{2}\b"; "^[\s\-._\[\]()]*$";
   "\b(s\d{1,2}e\d{1,2}|season\s*\d+|episode\s*\d+|\d+x\d+)\b.*$"] ++
  List.map fst cleanPatterns ++
  ["\b(19[2-9]\d|20[0-5]\d)\b"; "\d{3,4}p"; "\b\d{6,8}\b";
   "\b(sample|trailer|teaser|preview|clip|demo|test)\b"; "\b\d{1,3}\b";
   "\b(1080p|720p|4k|bluray|web-dl|webrip)\b";
   "\b(sample|trailer|preview|cam|ts|screener)\b"].

Definition compiles (src : string) : bool :=
  match RegExp.parse src with
  | Ok _ => true
  | Throw _ => false
  end.

(** A code unit with no meaning in a pattern: none of the syntax
    characters. *)
Definition plainChar (c : ascii) : bool :=
  negb (existsb (Ascii.eqb c) (list_ascii_of_string "^$\.*+?()[]{}|")).

Fixpoint plainStr (s : string) : bool :=
  match s with
  | EmptyString => true
  | String c t => plainChar c && plainStr t
  end.

(** The rest of a source does not begin with a quantifier. *)
Definition nextOk (s : string) : bool :=
  match s with
  | String c _ => negb (existsb (Ascii.eqb c) (list_ascii_of_string "*+?{"))
  | EmptyString => true
  end.

(** A source that parses as one alternative without groups, to its end,
    with any fuel above its length. *)
Definition AltOk (s : string) : Prop :=
  forall (fuel g : nat),
    (String.length s + 2 <= fuel)%nat ->
    exists b, RegExp.parseAlternative fuel s g = Ok (b, EmptyString, g) /\
              RegExp.maxBackref b = 0%nat.



(** Two tokens share a phonetic code: the codes are equal and not
    empty. *)
Definition sharesCode (word1 word2 : string) : bool :=
  String.eqb (generatePhoneticCode word1) (generatePhoneticCode word2) &&
  (0 <? String.length (generatePhoneticCode word1))%nat.

(** The tokens of the first text that share a phonetic code with a token
    of the second. *)
Definition phoneticCount (a b : string) : nat :=
  List.length
    (List.filter (fun word1 => existsb (sharesCode word1) (Js.split " " b))
                 (Js.split " " a)).

Definition tokenCount (a : string) : nat := List.length (Js.split " " a).

(** A token of a normalized text: not empty, without a space, and not a
    stop word. *)
Definition noSpace (w : string) : bool :=
  forallb (fun c => negb (Ascii.eqb c " ")) (list_ascii_of_string w).

Definition isToken (w : string) : bool :=
  (0 <? String.length w)%nat && noSpace w && negb (bool_decide (w ∈ stopWords)).





(** A file of the listing known by its name alone. *)
Definition fileNamed (n : string) : file := File n n n.


End Spec.

(** * The services around the matcher

    The modules of the addon that feed the matcher and use its ranking:
    the GitHub listing ([src/services/github-service.js]), the file name
    parser ([src/utils/subtitle-parser.js]), the metadata cache (the head
    of [src/services/movie-database.js]) and the subtitles handler
    ([src/handlers/subtitles-handler.js]).  A network request is a call of
    an oracle on an abstract state of the world. *)

(** ** The GitHub service *)

Module GithubService.

Import RegExp.

(** An entry of the answer of the contents API. *)
Record item : Type := Item {
  i_name : string;
  i_path : string;
  i_type : string;
  i_download_url : string;
  i_size : Z;
  i_sha : string
}.

(** What [fetch] and the decoding of its answer come to: an exception (a
    rejected request, a status that is not ok, a body that is not JSON),
    a JSON value that is not an array, or a listing. *)
Inductive response : Type :=
| Failed
| NotArray
| Listing (data : list item).

(** A subtitle file of the repository: the part the matcher reads, and
    the two fields kept beside it. *)
Record subtitleFile : Type := SubtitleFile {
  sf_file : FuzzyMatcher.file;
  sf_size : Z;
  sf_sha : string
}.

Definition isSubtitleFile (filename : string) : bool :=
  test (lit "\.(srt|vtt|ass|ssa|sub)$" true) filename.

Definition getSupportedExtensions : list string :=
  ["srt"; "vtt"; "ass"; "ssa"; "sub"].

(** [validateRepoFormat]; [None] is a value that is not a string. *)
Definition validateRepoFormat (repo : option string) : bool :=
  match repo with
  | None => false
  | Some repo =>
      if String.eqb repo EmptyString then false
      else
        match Js.split "/" repo with
        | [owner; name] =>
            (0 <? String.length owner)%nat && (0 <? String.length name)%nat
        | _ => false
        end
  end.

Definition contentsUrl (repo path : string) : string :=
  "https://api.github.com/repos/" +:+ repo +:+ "/contents/" +:+ path.

Section Fetch.

Variable world : Type.
Variable fetch : string -> world -> response * world.

(** The loop over the entries of one listing; [recur] is the recursive
    call on a subdirectory, which catches its own exceptions. *)
Fixpoint scanItems (recur : string -> world -> option (list subtitleFile * world))
    (data : list item) (files : list subtitleFile) (w : world)
  : option (list subtitleFile * world) :=
  match data with
  | [] => Some (files, w)
  | item :: rest =>
      if String.eqb (i_type item) "file" && isSubtitleFile (i_name item) then
        scanItems recur rest
          (files ++ [SubtitleFile
                       (FuzzyMatcher.File (i_name item) (i_path item)
                                          (i_download_url item))
                       (i_size item) (i_sha item)]) w
      else if String.eqb (i_type item) "dir" then
        '(subFiles, w') ← recur (i_path item) w;
        scanItems recur rest (files ++ subFiles) w'
      else scanItems recur rest files w
  end.

(** [fetchGitHubFiles]: the recursion follows the directories of the
    answers, so it is bounded here by [fuel], the depth explored; [None]
    is a listing deeper than that. *)
Fixpoint fetchGitHubFiles (fuel : nat) (repo path : string) (w : world)
  : option (list subtitleFile * world) :=
  match fuel with
  | O => None
  | S fuel' =>
      let '(r, w1) := fetch (contentsUrl repo path) w in
      match r with
      | Failed => Some ([], w1)
      | NotArray => Some ([], w1)
      | Listing data => scanItems (fetchGitHubFiles fuel' repo) data [] w1
      end
  end.

End Fetch.

End GithubService.

(** ** The file name parser *)

Module SubtitleParser.

Import RegExp.

(** The three accented letters of the language patterns, by code unit. *)
Definition ntilde : string := String (Js.chr 241) EmptyString.
Definition ccedilla : string := String (Js.chr 231) EmptyString.
Definition ecirc : string := String (Js.chr 234) EmptyString.

(** Pattern source, language code and priority, in the order of the
    source; every pattern carries the [i] flag. *)
Definition languagePatterns : list (string * string * Z) :=
  [("\b(en|eng|english)\b", "en", 10);
   ("\b(us|usa|american)\b", "en", 8);
   ("\b(uk|british)\b", "en", 8);
   ("\b(es|esp|spanish|espanol|espa" +:+ ntilde +:+ "ol)\b", "es", 10);
   ("\b(latin|latino|latam)\b", "es", 8);
   ("\b(fr|fre|french|francais|fran" +:+ ccedilla +:+ "ais)\b", "fr", 10);
   ("\b(de|ger|german|deutsch)\b", "de", 10);
   ("\b(it|ita|italian|italiano)\b", "it", 10);
   ("\b(pt|por|portuguese|portugues|portugu" +:+ ecirc +:+ "s)\b", "pt", 10);
   ("\b(br|brazil|brazilian)\b", "pt-br", 9);
   ("\b(ru|rus|russian)\b", "ru", 10);
   ("\b(zh|chi|chinese|mandarin)\b", "zh", 10);
   ("\b(ja|jpn|japanese)\b", "ja", 10);
   ("\b(ko|kor|korean)\b", "ko", 10);
   ("\b(ar|ara|arabic)\b", "ar", 10);
   ("\b(hi|hin|hindi)\b", "hi", 10);
   ("\b(nl|dut|dutch)\b", "nl", 10);
   ("\b(sv|swe|swedish)\b", "sv", 10);
   ("\b(no|nor|norwegian)\b", "no", 10);
   ("\b(da|dan|danish)\b", "da", 10);
   ("\b(fi|fin|finnish)\b", "fi", 10)].

(** The body of the loop of [detectLanguage]: a pattern that matches
    replaces the best match when its priority is strictly higher. *)
Definition betterMatch (filenameLC : string) (bestMatch : string * Z)
    (entry : string * string * Z) : string * Z :=
  let '(pattern, code, priority) := entry in
  if test (lit pattern true) filenameLC && (snd bestMatch <? priority)
  then (code, priority) else bestMatch.

Definition detectLanguage (basename : string) : string :=
  let filenameLC := Js.toLowerCase basename in
  let bestMatch :=
    List.fold_left (betterMatch filenameLC) languagePatterns ("other", 0) in
  if test (lit "\b(multi|dual)\b" true) filenameLC then "multi"
  else fst bestMatch.

Definition detectForced (basename : string) : bool :=
  test (lit "\b(forced|foreign)\b" true) basename.

Definition detectSDH (basename : string) : bool :=
  test (lit "\b(sdh|deaf|hard\.?of\.?hearing|cc|closed\.?caption)\b" true) basename.

Definition qualityPatterns : list (string * string) :=
  [("\b2160p\b", "4K"); ("\b1080p\b", "1080p"); ("\b720p\b", "720p");
   ("\b480p\b", "480p"); ("\b4k\b", "4K"); ("\buhd\b", "4K"); ("\bhd\b", "HD")].

Definition detectQuality (basename : string) : option string :=
  option_map snd
    (List.find (fun p : string * string => test (lit (fst p) true) basename)
               qualityPatterns).

(** [String.prototype.toUpperCase]: the sharp s becomes two letters.  The
    upper-case forms of the code units 181 and 255 lie above 255; they are
    left as they are, and the one caller passes letters and digits of the
    basic alphabet only. *)
Definition toUpperUnit (c : ascii) : string :=
  if (Js.code c =? 223)%N then "SS"
  else String (Js.canonicalize c) EmptyString.

Fixpoint toUpperCase (s : string) : string :=
  match s with
  | EmptyString => EmptyString
  | String c t => toUpperUnit c +:+ toUpperCase t
  end.

Definition releaseGroupPatterns : list string :=
  ["\[([A-Z0-9]+)\]$"; "-([A-Z0-9]+)$"; "\.([A-Z0-9]+)$"; "\(([A-Z0-9]+)\)$"].

(** The loop over the patterns: the first that matches gives the group. *)
Fixpoint firstGroup (patterns : list string) (basename : string) : option string :=
  match patterns with
  | [] => None
  | pattern :: rest =>
      match matchFirst (lit pattern true) basename with
      | Some (_, m) => Some (toUpperCase (group 1 m))
      | None => firstGroup rest basename
      end
  end.

Definition detectReleaseGroup (basename : string) : option string :=
  firstGroup releaseGroupPatterns basename.

Record metadata : Type := Metadata {
  filename : string;
  basename : string;
  extension : string;
  language : string;
  format : string;
  isForced : bool;
  isSDH : bool;
  quality : option string;
  releaseGroup : option string
}.

Definition parseSubtitleFilename (filename : string) : metadata :=
  let basename := Js.basename filename (Js.extname filename) in
  let extension :=
    Js.substringFrom (Js.toLowerCase (Js.extname filename)) 1 in
  Metadata filename basename extension (detectLanguage basename) extension
           (detectForced basename) (detectSDH basename)
           (detectQuality basename) (detectReleaseGroup basename).

Definition cleanFilename (filename : string) : string :=
  let cleaned := Js.basename filename (Js.extname filename) in
  let cleaned :=
    replaceAll
      (lit "\.(720p|1080p|2160p|4k|x264|h264|h265|bluray|webrip|hdtv|dvdrip)" true)
      (fun _ => EmptyString) cleaned in
  let cleaned := replaceAll (lit "\[.*?\]" false) (fun _ => EmptyString) cleaned in
  let cleaned := replaceFirst (lit "-[A-Z0-9]+$" true) (fun _ => EmptyString) cleaned in
  let cleaned := replaceAll (lit "\." false) (fun _ => " ") cleaned in
  let cleaned := replaceAll (lit "\s+" false) (fun _ => " ") cleaned in
  Js.trim cleaned.

Definition languageMap : gmap string string := list_to_map
  [("en", "English"); ("es", "Spanish"); ("fr", "French"); ("de", "German");
   ("it", "Italian"); ("pt", "Portuguese"); ("pt-br", "Portuguese (Brazil)");
   ("ru", "Russian"); ("zh", "Chinese"); ("ja", "Japanese"); ("ko", "Korean");
   ("ar", "Arabic"); ("hi", "Hindi"); ("nl", "Dutch"); ("sv", "Swedish");
   ("no", "Norwegian"); ("da", "Danish"); ("fi", "Finnish");
   ("multi", "Multiple Languages"); ("other", "Other")].

(** The keys that the table inherits from [Object.prototype]. *)
Definition inheritedKeys : list string := Js.inheritedKeys.

Inductive languageName : Type :=
| Name (s : string)
| Inherited (key : string).   (* the inherited value of that key, not a string *)

(** [languageMap[code] || code] *)
Definition getLanguageName (code : string) : languageName :=
  match languageMap !! code with
  | Some name => if String.eqb name EmptyString then Name code else Name name
  | None =>
      if existsb (String.eqb code) inheritedKeys then Inherited code
      else Name code
  end.

End SubtitleParser.

(** ** The metadata cache *)

Module MovieDatabase.

(** A movie of the cache; a field that the answer leaves out is
    [undefined], here [None]. *)
Record movieInfo : Type := MovieInfo {
  imdbId : option string;
  title : option string;
  year : option string;
  director : option string;
  genre : option string;
  plot : option string;
  runtime : option string;
  rating : option string
}.

(** The JSON object of an answer of the OMDB API. *)
Record omdbData : Type := OmdbData {
  d_Response : option string;
  d_imdbID : option string;
  d_Title : option string;
  d_Year : option string;
  d_Director : option string;
  d_Genre : option string;
  d_Plot : option string;
  d_Runtime : option string;
  d_imdbRating : option string;
  d_Error : option string
}.

(** A request that throws (rejected, or a body that is not a JSON
    object), or its decoded answer. *)
Inductive omdbResponse : Type :=
| NetworkError
| Json (data : omdbData).

(** [movieCache], a [Map]: the entries in the order of their first
    insertion, one per key; the value [null] is [None]. *)
Definition cache : Type := list (string * option movieInfo).

(** [movieCache.set(k, v)]: an existing key keeps its place. *)
Fixpoint set (k : string) (v : option movieInfo) (c : cache) : cache :=
  match c with
  | [] => [(k, v)]
  | (k', v') :: rest =>
      if String.eqb k' k then (k, v) :: rest else (k', v') :: set k v rest
  end.

(** [movieCache.get(k)], [None] when the key is absent. *)
Fixpoint get (k : string) (c : cache) : option (option movieInfo) :=
  match c with
  | [] => None
  | (k', v') :: rest => if String.eqb k' k then Some v' else get k rest
  end.

Definition has (k : string) (c : cache) : bool :=
  match get k c with
  | Some _ => true
  | None => false
  end.

Definition omdbUrl (imdbId : string) : string :=
  "https://www.omdbapi.com/?i=" +:+ imdbId +:+ "&apikey=trilogy".

Definition fromOmdb (data : omdbData) : movieInfo :=
  MovieInfo (d_imdbID data) (d_Title data) (d_Year data) (d_Director data)
            (d_Genre data) (d_Plot data) (d_Runtime data) (d_imdbRating data).

(** [data.Response === 'True'] *)
Definition isFound (data : omdbData) : bool :=
  match d_Response data with
  | Some r => String.eqb r "True"
  | None => false
  end.

Section Lookup.

Variable world : Type.
Variable fetch : string -> world -> omdbResponse * world.

(** [getMovieInfo]: the value returned, the cache and the world after the
    call. *)
Definition getMovieInfo (imdbId : string) (c : cache) (w : world)
  : option movieInfo * cache * world :=
  if has imdbId c then (default None (get imdbId c), c, w)
  else
    let '(r, w1) := fetch (omdbUrl imdbId) w in
    match r with
    | Json data =>
        if isFound data then
          let movieInfo := fromOmdb data in
          (Some movieInfo, set imdbId (Some movieInfo) c, w1)
        else (None, set imdbId None c, w1)
    | NetworkError => (None, c, w1)
    end.

End Lookup.

(** [searchMoviesByTitle]: the cached movies whose title contains the
    query, both in lower case, in the order of the cache. *)
Definition searchMoviesByTitle (title_ : string) (c : cache) : list movieInfo :=
  let normalizedTitle := Js.toLowerCase title_ in
  List.fold_left
    (fun results (entry : string * option movieInfo) =>
       match snd entry with
       | Some movieInfo =>
           if Js.truthy (title movieInfo) &&
              Js.includes (Js.toLowerCase (default EmptyString (title movieInfo)))
                          normalizedTitle
           then results ++ [movieInfo] else results
       | None => results
       end)
    c [].

(** [addMovie], for movie data that is an object. *)
Definition addMovie (imdbId : string) (movieData : movieInfo) (c : cache) : cache :=
  set imdbId (Some movieData) c.

(** [getAllMovies]: the object built from the entries that are not
    [null].  Assigning to the key [__proto__] of an object sets its
    prototype and adds no key. *)
Definition getAllMovies (c : cache) : gmap string movieInfo :=
  List.fold_left
    (fun (movies : gmap string movieInfo) (entry : string * option movieInfo) =>
       match snd entry with
       | Some movieInfo =>
           if String.eqb (fst entry) "__proto__" then movies
           else <[fst entry := movieInfo]> movies
       | None => movies
       end)
    c ∅.

Definition clearCache (c : cache) : cache := [].

End MovieDatabase.

(** ** The subtitles handler *)

Module SubtitlesHandler.

Import RegExp.
Local Open Scope Q_scope.

Record config : Type := Config {
  github_repo : option string;
  github_path : option string
}.

Record extra : Type := Extra {
  e_config : option config
}.

(** The arguments of a request as the handler destructures them: the
    addon SDK always passes a type and an identifier. *)
Record args : Type := Args {
  type : string;
  id : string;
  a_extra : option extra;
  a_config : option config
}.

(** The configuration of the request: [args.config], else
    [extra.config], else the empty object. *)
Definition resolveConfig (a : args) : config :=
  match a_config a with
  | Some directConfig => directConfig
  | None =>
      match a_extra a with
      | Some (Extra (Some c)) => c
      | _ => Config None None
      end
  end.

(** An entry of the answer, and the entry with the fields kept until the
    final sort. *)
Record subtitle : Type := Subtitle {
  s_id : string;
  url : string;
  lang : string;
  s_filename : string
}.

Record scored : Type := Scored {
  sub : subtitle;
  _score : Q;
  _matchMethod : string;
  _metadata : SubtitleParser.metadata
}.

Definition toScored (repo : string) (m : FuzzyMatcher.ranked) : scored :=
  let file := FuzzyMatcher.r_file m in
  let metadata := SubtitleParser.parseSubtitleFilename (FuzzyMatcher.name file) in
  Scored
    (Subtitle ("github:" +:+ repo +:+ ":" +:+ FuzzyMatcher.path file)
              (FuzzyMatcher.download_url file)
              (SubtitleParser.language metadata)
              (FuzzyMatcher.name file))
    (FuzzyMatcher.score (FuzzyMatcher.r_match m))
    (FuzzyMatcher.method (FuzzyMatcher.r_match m))
    metadata.

(** The comparator of the final sort: [(a, b) => b._score - a._score]. *)
Definition byScore (a b : scored) : Q := _score b - _score a.

Section Handler.

Variable world : Type.
Variable fetchGithub : string -> world -> GithubService.response * world.
Variable fetchOmdb : string -> world -> MovieDatabase.omdbResponse * world.

(** [handleSubtitlesRequest] up to the final sort: the scored entries,
    the cache and the world after the request.  [fuel] bounds the depth of
    the listing, see [fetchGitHubFiles]. *)
Definition scoredSubtitles (fuel : nat) (a : args)
    (c : MovieDatabase.cache) (w : world)
  : option (list scored * MovieDatabase.cache * world) :=
  let config := resolveConfig a in
  if negb (Js.truthy (github_repo config)) then Some ([], c, w) else
  let repo := default EmptyString (github_repo config) in
  let subtitlePath :=
    if Js.truthy (github_path config)
    then default EmptyString (github_path config) else EmptyString in
  '(files, w1) ← GithubService.fetchGitHubFiles world fetchGithub fuel repo
                    subtitlePath w;
  if Nat.eqb (List.length files) 0 then Some ([], c, w1) else
  let '(movieInfo, c2, w2) :=
    if String.eqb (type a) "movie"
    then MovieDatabase.getMovieInfo world fetchOmdb (id a) c w1
    else (None, c, w1) in
  let '(targetTitle, targetYear) :=
    match movieInfo with
    | Some info => (MovieDatabase.title info, MovieDatabase.year info)
    | None => (None, None)
    end in
  match FuzzyMatcher.findBestMatches (List.map GithubService.sf_file files)
          (type a) (id a) targetTitle targetYear (3 # 10) with
  | Ok matches =>
      Some (FuzzyMatcher.sort byScore (List.map (toScored repo) matches), c2, w2)
  | Throw _ => Some ([], c2, w2)
  end.

(** The answer: the entries without their scoring fields. *)
Definition handleSubtitlesRequest (fuel : nat) (a : args)
    (c : MovieDatabase.cache) (w : world)
  : option (list subtitle * MovieDatabase.cache * world) :=
  '(subtitles, c', w') ← scoredSubtitles fuel a c w;
  Some (List.map sub subtitles, c', w').

End Handler.

(** *** validateSubtitlesRequest *)












(** *** parseSeriesId *)

Record seriesId : Type := SeriesId {
  p_imdbId : string;
  p_season : option Js.num;      (* [null] is [None], [NaN] is [Some None] *)
  p_episode : option Js.num;
  isValid : bool
}.

Definition isNaN (n : Js.num) : bool :=
  match n with
  | Some _ => false
  | None => true
  end.

(** The number of a part of the identifier, [null] when the part is
    missing or empty. *)
Definition partNumber (part : option string) : option Js.num :=
  if Js.truthy part then Some (Js.parseInt (default EmptyString part)) else None.

Definition parseSeriesId (id : string) : seriesId :=
  let parts := Js.split ":" id in
  if (List.length parts <? 2)%nat then
    SeriesId (List.nth 0 parts EmptyString) None None false
  else
    SeriesId (List.nth 0 parts EmptyString)
             (partNumber (List.nth_error parts 1))
             (partNumber (List.nth_error parts 2))
             ((3 <=? List.length parts)%nat &&
              negb (isNaN (Js.parseInt (List.nth 1 parts EmptyString))) &&
              negb (isNaN (Js.parseInt (List.nth 2 parts EmptyString)))).

End SubtitlesHandler.

(** * Statements about the services *)

Module Props.

Import FuzzyMatcher.
Local Open Scope Q_scope.

(** A string without the code unit [c]. *)
Definition noChar (c : ascii) (w : string) : bool :=
  forallb (fun x => negb (Ascii.eqb x c)) (list_ascii_of_string w).

(** A cache as [Map] keeps it: one entry per key. *)
Definition uniqueKeys (c : MovieDatabase.cache) : Prop :=
  List.NoDup (List.map fst c).

(** The entry of a key that is present and not [null]. *)
Definition cachedMovie (k : string) (c : MovieDatabase.cache)
  : option MovieDatabase.movieInfo :=
  match MovieDatabase.get k c with
  | Some (Some m) => Some m
  | _ => None
  end.

(** The test of [searchMoviesByTitle] on one movie: a title that is not
    empty and contains the query, both in lower case. *)
Definition titleContains (q : string) (m : MovieDatabase.movieInfo) : bool :=
  Js.truthy (MovieDatabase.title m) &&
  Js.includes (Js.toLowerCase (default EmptyString (MovieDatabase.title m)))
              (Js.toLowerCase q).

(** A listing of subtitle files only. *)
Definition subtitleNames (files : list GithubService.subtitleFile) : Prop :=
  Forall (fun f => GithubService.isSubtitleFile
                     (FuzzyMatcher.name (GithubService.sf_file f)) = true) files.

(** The language patterns that match a file name in lower case, in the
    order of the table. *)
Definition matchingLanguages (filenameLC : string) : list (string * string * Z) :=
  List.filter (fun e : string * string * Z =>
                 RegExp.test (RegExp.lit (fst (fst e)) true) filenameLC)
              SubtitleParser.languagePatterns.

(** The first entry of a list whose priority no entry of the list
    exceeds. *)
Definition firstOfTopPriority (entries : list (string * string * Z))
  : option (string * string * Z) :=
  List.find (fun e : string * string * Z =>
               forallb (fun e' : string * string * Z => (snd e' <=? snd e)%Z) entries)
            entries.

(** The codes that [detectLanguage] can return. *)
Definition languageCodes : list string :=
  "multi" :: "other" ::
  List.map (fun e : string * string * Z => snd (fst e)) SubtitleParser.languagePatterns.

(** A score in the closed interval [0, 1]. *)
Definition unitScore (m : matchResult) : Prop := 0 <= score m <= 1.

(** The methods of the identifier, episode and title matchers, and those
    a movie and a series result can carry. *)
Definition identifierMethods : list string :=
  ["direct_imdb"; "fuzzy_imdb_exact_length"; "imdb_substring"; "imdb_partial";
   "imdb_with_separator"; "no_imdb_match"].

Definition episodeMethods : list string :=
  ["exact_episode"; "fuzzy_episode_exact"; "fuzzy_episode_close";
   "fuzzy_season_only"; "episode_only_s1"; "season_pack"; "no_match"].

Definition titleMethods : list string :=
  ["no_title"; "enhanced_title_match"; "below_threshold"].

Definition movieMethods : list string :=
  identifierMethods ++ titleMethods ++ ["filename_analysis"].

Definition seriesMethods : list string :=
  "series_combined" :: episodeMethods ++ identifierMethods.



(** The number written by the decimal digits [d] after the digits of
    value [a]. *)
Fixpoint decimalValue (a : Z) (d : Decimal.uint) : Z :=
  match d with
  | Decimal.Nil => a
  | Decimal.D0 l => decimalValue (10 * a + 0) l
  | Decimal.D1 l => decimalValue (10 * a + 1) l
  | Decimal.D2 l => decimalValue (10 * a + 2) l
  | Decimal.D3 l => decimalValue (10 * a + 3) l
  | Decimal.D4 l => decimalValue (10 * a + 4) l
  | Decimal.D5 l => decimalValue (10 * a + 5) l
  | Decimal.D6 l => decimalValue (10 * a + 6) l
  | Decimal.D7 l => decimalValue (10 * a + 7) l
  | Decimal.D8 l => decimalValue (10 * a + 8) l
  | Decimal.D9 l => decimalValue (10 * a + 9) l
  end.

(** A string of decimal digits. *)
Definition allDigits (s : string) : bool :=
  forallb Js.isDigit (list_ascii_of_string s).

(** An integer that a JavaScript number holds exactly. *)
Definition safeInteger (z : Z) : Prop := (Z.abs z <= 9007199254740991)%Z.

(** A number that is [NaN] or an integer that a JavaScript number holds
    exactly. *)
Definition safeNumber (n : Js.num) : Prop :=
  match n with
  | Some z => safeInteger z
  | None => True
  end.


(** The code unit before the end of [s], or [prev] when [s] is empty: the
    code unit before the position reached after reading [s]. *)
Fixpoint lastChar (prev : option ascii) (s : string) : option ascii :=
  match s with
  | EmptyString => prev
  | String c t => lastChar (Some c) t
  end.

(** A dot followed by one of the subtitle extensions, in any letter
    case. *)
Definition isExtension (rest : string) : bool :=
  match rest with
  | String d e =>
      Ascii.eqb d "." &&
      existsb (String.eqb (Js.toLowerCase e)) GithubService.getSupportedExtensions
  | EmptyString => false
  end.

Definition isSome {A : Type} (o : option A) : bool :=
  match o with
  | Some _ => true
  | None => false
  end.

(** The text of a path after its last slash. *)
Fixpoint afterSlash (acc s : string) : string :=
  match s with
  | EmptyString => acc
  | String c t => if Ascii.eqb c "/" then afterSlash t t else afterSlash acc t
  end.

Definition component (p : string) : string := afterSlash p p.

(** A source that parses as one alternative, to its end, into the syntax
    tree [b], with any fuel above its length. *)
Definition AltIs (s : string) (b : RegExp.regex) : Prop :=
  forall (fuel g : nat),
    (String.length s + 2 <= fuel)%nat ->
    RegExp.parseAlternative fuel s g = Ok (b, EmptyString, g).

(** The syntax tree of a run of plain code units, followed by [k]. *)
Fixpoint literal (s : string) (k : RegExp.regex) : RegExp.regex :=
  match s with
  | EmptyString => k
  | String c t => RegExp.RSeq (RegExp.RChar c) (literal t k)
  end.
















(** The first code unit of a text is a word character. *)
Definition startsWord (s : string) : bool :=
  match s with
  | String c _ => Js.isWordChar c
  | EmptyString => false
  end.

(** The last code unit of a text is a word character. *)
Definition endsWord (s : string) : bool := RegExp.isWordAt (lastChar None s).

(** The entry that the listing holds for an item of an answer of the
    contents API. *)
Definition entryOf (i : GithubService.item) : GithubService.subtitleFile :=
  GithubService.SubtitleFile
    (FuzzyMatcher.File (GithubService.i_name i) (GithubService.i_path i)
                       (GithubService.i_download_url i))
    (GithubService.i_size i) (GithubService.i_sha i).

(** The listing of the repository that the handler works from: the files
    under the configured path of the configured repository. *)
Definition requestListing (world : Type)
    (fetchGithub : string -> world -> GithubService.response * world)
    (fuel : nat) (a : SubtitlesHandler.args) (w : world)
  : option (list GithubService.subtitleFile * world) :=
  let config := SubtitlesHandler.resolveConfig a in
  GithubService.fetchGitHubFiles world fetchGithub fuel
    (default EmptyString (SubtitlesHandler.github_repo config))
    (if Js.truthy (SubtitlesHandler.github_path config)
     then default EmptyString (SubtitlesHandler.github_path config)
     else EmptyString) w.

End Props.

(** * Properties *)

(** ** Rational arithmetic *)

Section Scores.
Local Open Scope Q_scope.

Lemma Qltb_lt (x y : Q) : Qltb x y = true <-> x < y.
Proof.
  unfold Qltb. rewrite negb_true_iff. split.
  - intros H. apply Qnot_le_lt. intros Hle.
    apply Qle_bool_iff in Hle. congruence.
  - intros H. destruct (Qle_bool y x) eqn:E; [|reflexivity].
    apply Qle_bool_iff in E. exfalso. exact (Qlt_not_le _ _ H E).
Qed.

Lemma Qltb_ge (x y : Q) : Qltb x y = false <-> y <= x.
Proof.
  unfold Qltb. rewrite negb_false_iff. apply Qle_bool_iff.
Qed.

Lemma Qmin_le_l (x y : Q) : Qmin x y <= x.
Proof.
  unfold Qmin. destruct (Qle_bool x y) eqn:E.
  - apply Qle_refl.
  - apply Qlt_le_weak, Qltb_lt. unfold Qltb. now rewrite E.
Qed.

Lemma Qmin_glb (x y z : Q) : z <= x -> z <= y -> z <= Qmin x y.
Proof. unfold Qmin. now destruct (Qle_bool x y). Qed.

Lemma ratio_nonneg (a b : nat) : 0 <= ratio a b.
Proof.
  unfold ratio. destruct b as [|b].
  - unfold Qdiv, Qinv. simpl. rewrite Qmult_0_r. apply Qle_refl.
  - apply Qle_shift_div_l.
    + unfold Qlt. simpl. lia.
    + rewrite Qmult_0_l. unfold Qle. simpl. lia.
Qed.

Lemma ratio_le_1 (a b : nat) : (a <= b)%nat -> ratio a b <= 1.
Proof.
  intros H. unfold ratio. destruct b as [|b].
  - unfold Qdiv, Qinv. simpl. rewrite Qmult_0_r. discriminate.
  - apply Qle_shift_div_r.
    + unfold Qlt. simpl. lia.
    + rewrite Qmult_1_l. unfold Qle. simpl. lia.
Qed.

End Scores.

(** ** The edit distance *)

Lemma lev_nil_r (a : string) : lev a EmptyString = String.length a.
Proof. destruct a; reflexivity. Qed.

Lemma lev_cons_cons (x y : ascii) (a b : string) :
  lev (String x a) (String y b) =
  min3 (S (lev a (String y b))) (S (lev (String x a) b)) (cost x y + lev a b).
Proof. reflexivity. Qed.

Lemma cost_sym (x y : ascii) : cost x y = cost y x.
Proof. unfold cost. now rewrite Ascii.eqb_sym. Qed.

Lemma lev_sym (a b : string) : lev a b = lev b a.
Proof.
  revert b. induction a as [|x a IHa]; intros b.
  - simpl. now rewrite lev_nil_r.
  - induction b as [|y b IHb].
    + reflexivity.
    + rewrite !lev_cons_cons, IHb, (IHa (String y b)), (IHa b), (cost_sym x y).
      unfold min3. lia.
Qed.

Lemma lev_le_max (a b : string) :
  (lev a b <= Nat.max (String.length a) (String.length b))%nat.
Proof.
  revert b. induction a as [|x a IHa]; intros b.
  - simpl. lia.
  - destruct b as [|y b].
    + simpl. lia.
    + rewrite lev_cons_cons. specialize (IHa b).
      unfold min3, cost. simpl String.length. destruct (Ascii.eqb x y); lia.
Qed.

Lemma baseRow_spec (b : string) : baseRow b = List.map (lev EmptyString) (suffixes b).
Proof.
  induction b as [|y b IH]; [reflexivity|].
  simpl. now rewrite IH.
Qed.

Lemma hd_map_suffixes (a b : string) :
  hd 0%nat (List.map (lev a) (suffixes b)) = lev a b.
Proof. destruct b; reflexivity. Qed.

Lemma rowStep_spec (x : ascii) (a b : string) :
  rowStep x b (List.map (lev a) (suffixes b)) =
  List.map (lev (String x a)) (suffixes b).
Proof.
  induction b as [|y b IH].
  - simpl. now rewrite lev_nil_r.
  - change (suffixes (String y b)) with (String y b :: suffixes b).
    rewrite !map_cons. cbn [rowStep]. rewrite IH, !hd_map_suffixes.
    now rewrite lev_cons_cons.
Qed.

Lemma distRow_spec (a b : string) : distRow a b = List.map (lev a) (suffixes b).
Proof.
  induction a as [|x a IH]; simpl.
  - apply baseRow_spec.
  - rewrite IH. apply rowStep_spec.
Qed.

(** The row-by-row computation is the edit distance of the recurrence. *)
Lemma distance_lev (a b : string) : distance a b = lev a b.
Proof. unfold distance. rewrite distRow_spec. apply hd_map_suffixes. Qed.

Lemma distance_sym (a b : string) : distance a b = distance b a.
Proof. rewrite !distance_lev. apply lev_sym. Qed.

Lemma distance_le_max (a b : string) :
  (distance a b <= Nat.max (String.length a) (String.length b))%nat.
Proof. rewrite distance_lev. apply lev_le_max. Qed.

(** ** Bounds of the five metrics *)

Section MetricBounds.
Import FuzzyMatcher Spec.
Local Open Scope Q_scope.

Lemma fold_left_invariant {A B : Type} (P : A -> Prop) (f : A -> B -> A)
    (l : list B) (a : A) :
  P a -> (forall a b, In b l -> P a -> P (f a b)) -> P (List.fold_left f l a).
Proof.
  revert a. induction l as [|x l IH]; intros a Ha Hf; simpl; [exact Ha|].
  apply IH.
  - apply Hf; [now left | exact Ha].
  - intros a' b Hb. apply Hf. now right.
Qed.

Lemma count_fold (A : Type) (p : A -> bool) (l : list A) (n : nat) :
  List.fold_left (fun m w => if p w then S m else m) l n =
  (n + List.length (List.filter p l))%nat.
Proof.
  revert n. induction l as [|x l IH]; intros n; simpl; [lia|].
  rewrite IH. destruct (p x); simpl; lia.
Qed.

Lemma filter_length_le (A : Type) (p : A -> bool) (l : list A) :
  (List.length (List.filter p l) <= List.length l)%nat.
Proof. induction l as [|x l IH]; simpl; [lia|]. destruct (p x); simpl; lia. Qed.

Lemma size_list_to_set_le (A : Type) `{Countable A} (l : list A) :
  (size (list_to_set l : gset A) <= List.length l)%nat.
Proof.
  induction l as [|x l IH].
  - rewrite list_to_set_nil, size_empty. simpl. lia.
  - rewrite list_to_set_cons, size_union_alt, size_singleton. simpl.
    assert (size ((list_to_set l : gset A) ∖ {[x]}) ≤ size (list_to_set l : gset A))%nat
      by (apply subseteq_size; set_solver).
    lia.
Qed.

Lemma inject_nat_le (a b : nat) :
  (a <= b)%nat -> inject_Z (Z.of_nat a) <= inject_Z (Z.of_nat b).
Proof. intros. rewrite <- Zle_Qle. lia. Qed.

Lemma levSim_bounds (a b : string) :
  0 <= calculateLevenshteinSimilarity a b <= 1.
Proof.
  unfold calculateLevenshteinSimilarity.
  destruct (Nat.eqb _ 0); [split; [discriminate | apply Qle_refl]|].
  pose proof (ratio_nonneg (distance a b)
                (Nat.max (String.length a) (String.length b))).
  pose proof (ratio_le_1 _ _ (distance_le_max a b)).
  split; lra.
Qed.

Lemma jaccard_bounds (a b : string) : 0 <= calculateJaccardSimilarity a b <= 1.
Proof.
  unfold calculateJaccardSimilarity.
  destruct (Nat.eqb _ 0); [split; [apply Qle_refl | discriminate]|].
  split; [apply ratio_nonneg|].
  apply ratio_le_1, subseteq_size. set_solver.
Qed.

Lemma phonetic_bounds (a b : string) : 0 <= calculatePhoneticSimilarity a b <= 1.
Proof.
  unfold calculatePhoneticSimilarity.
  destruct (Nat.eqb _ 0); [split; [apply Qle_refl | discriminate]|].
  split; [apply ratio_nonneg|].
  apply ratio_le_1. rewrite count_fold.
  pose proof (filter_length_le _ (hasPhoneticMatch (Js.split " " b)) (Js.split " " a)).
  lia.
Qed.

Lemma ngram_bounds (a b : string) (n : nat) :
  0 <= calculateNGramSimilarity a b n <= 1.
Proof.
  unfold calculateNGramSimilarity.
  destruct (andb _ _); [split; [discriminate | apply Qle_refl]|].
  destruct (orb _ _); [split; [apply Qle_refl | discriminate]|].
  split; [apply ratio_nonneg|].
  apply ratio_le_1, subseteq_size. set_solver.
Qed.

Lemma bestPartner_ok (exactMatches used2 : gset string) (word1 : string)
    (words2 : list string) :
  partnerOk exactMatches used2 words2
            (bestPartner exactMatches used2 word1 words2).
Proof.
  unfold bestPartner.
  apply (fold_left_invariant (partnerOk exactMatches used2 words2)).
  - split; [split; [apply Qle_refl | discriminate] | discriminate].
  - intros best word2 Hin Hbest.
    destruct (bool_decide (word2 ∈ exactMatches)) eqn:E1; [exact Hbest|].
    destruct (bool_decide (word2 ∈ used2)) eqn:E2; [exact Hbest|].
    cbn [orb]. destruct (Qltb _ (5 # 10)); [exact Hbest|].
    destruct (_ && _); [|exact Hbest].
    split; [apply levSim_bounds|].
    intros w [= <-]. split; [exact Hin|].
    apply bool_decide_eq_false in E1, E2. now split.
Qed.

Lemma partialLoop_ok (exactMatches : gset string) (words1 words2 : list string) :
  partialOk exactMatches words2 (partialLoop exactMatches words1 words2).
Proof.
  unfold partialLoop.
  apply (fold_left_invariant (partialOk exactMatches words2)).
  - split; [|set_solver]. cbn. rewrite size_empty. split; apply Qle_refl.
  - intros [pm used] word1 _ [[Hlo Hhi] Hsub]. cbn [fst snd] in *.
    destruct (bool_decide (word1 ∈ exactMatches)); [now split|].
    pose proof (bestPartner_ok exactMatches used word1 words2) as [[Hb0 Hb1] Hw].
    destruct (bestPartner exactMatches used word1 words2) as [bm [w|]];
      [|now split].
    cbn [fst snd] in *.
    destruct (Js.truthy (Some w)); [|now split].
    destruct (Hw w eq_refl) as (Hin & Hne & Hnu).
    split; cbn [fst snd].
    + rewrite size_union by set_solver. rewrite size_singleton.
      replace (Z.of_nat (1 + size used)) with (1 + Z.of_nat (size used))%Z by lia.
      rewrite inject_Z_plus. change (inject_Z 1) with 1. split; lra.
    + apply list_elem_of_In, (elem_of_list_to_set (C := gset string)) in Hin.
      set_solver.
Qed.

Lemma wordSim_bounds (words1 words2 : list string) :
  0 <= calculateWordSimilarity words1 words2 <= 1.
Proof.
  unfold calculateWordSimilarity.
  destruct (_ && _); [split; [discriminate | apply Qle_refl]|].
  destruct (_ || _) eqn:Hlen; [split; [apply Qle_refl | discriminate]|].
  apply orb_false_iff in Hlen as [H1 H2].
  apply Nat.eqb_neq in H1, H2.
  set (set1 := list_to_set words1 : gset string).
  set (set2 := list_to_set words2 : gset string).
  set (exact := set1 ∩ set2).
  pose proof (partialLoop_ok exact words1 words2) as [[Hlo Hhi] Hsub].
  set (pm := fst (partialLoop exact words1 words2)) in *.
  set (used := snd (partialLoop exact words1 words2)) in *.
  set (total := Nat.max (List.length words1) (List.length words2)).
  assert (Hcount : (size exact + size used <= total)%nat).
  { pose proof (subseteq_size _ _ Hsub) as Hs.
    rewrite size_difference in Hs by (subst exact; set_solver).
    pose proof (size_list_to_set_le _ words2).
    assert (size exact ≤ size set2)%nat by (apply subseteq_size; subst exact; set_solver).
    subst set2 total. lia. }
  assert (Htot : 0 < inject_Z (Z.of_nat total)).
  { replace 0 with (inject_Z 0) by reflexivity. rewrite <- Zlt_Qlt. subst total. lia. }
  unfold ratio. fold total.
  assert (Hex : 0 <= inject_Z (Z.of_nat (size exact))).
  { replace 0 with (inject_Z 0) by reflexivity. rewrite <- Zle_Qle. lia. }
  assert (Hsum : inject_Z (Z.of_nat (size exact)) + pm <= inject_Z (Z.of_nat total)).
  { apply inject_nat_le in Hcount. rewrite Nat2Z.inj_add, inject_Z_plus in Hcount. lra. }
  split.
  - apply Qle_trans with (0 + 0 * (7 # 10)); [discriminate|].
    apply Qplus_le_compat.
    + apply Qle_shift_div_l; [exact Htot | lra].
    + apply Qmult_le_compat_r; [|discriminate].
      apply Qle_shift_div_l; [exact Htot | lra].
  - apply Qle_trans with
      (inject_Z (Z.of_nat (size exact)) / inject_Z (Z.of_nat total) +
       pm / inject_Z (Z.of_nat total)).
    + apply Qplus_le_r.
      assert (0 <= pm / inject_Z (Z.of_nat total))
        by (apply Qle_shift_div_l; [exact Htot | lra]).
      lra.
    + assert (Heq : inject_Z (Z.of_nat (size exact)) / inject_Z (Z.of_nat total) +
              pm / inject_Z (Z.of_nat total) ==
              (inject_Z (Z.of_nat (size exact)) + pm) / inject_Z (Z.of_nat total))
        by (field; lra).
      rewrite Heq. apply Qle_shift_div_r; [exact Htot | lra].
Qed.

Lemma weightedScore_bounds (norm1 norm2 : string) :
  0 <= weightedScore norm1 norm2 <= 1.
Proof.
  unfold weightedScore.
  pose proof (levSim_bounds norm1 norm2).
  pose proof (jaccard_bounds norm1 norm2).
  pose proof (phonetic_bounds norm1 norm2).
  pose proof (wordSim_bounds (Js.split " " norm1) (Js.split " " norm2)).
  pose proof (ngram_bounds norm1 norm2 2).
  split; lra.
Qed.

End MetricBounds.

(** ** The similarity score *)

Section Similarity.
Import FuzzyMatcher Spec.
Local Open Scope Q_scope.

(** C7.  For all input strings the similarity lies in the closed interval
    from 0 to 1, and so does the weighted combination of the five metrics
    (with the 0.7 partial-match bonus of the token metric) before it is
    capped at 1. *)
Theorem similarity_bounded :
  (forall a b : string, 0 <= calculateSimilarity a b <= 1) /\
  (forall norm1 norm2 : string, 0 <= weightedScore norm1 norm2 <= 1).
Proof.
  split; [|exact weightedScore_bounds].
  intros a b. unfold calculateSimilarity.
  destruct (orb _ _); [split; [apply Qle_refl | discriminate]|].
  set (norm1 := normalizeText a). set (norm2 := normalizeText b).
  destruct (String.eqb norm1 norm2); [split; [discriminate | apply Qle_refl]|].
  destruct (orb _ _); [split; [apply Qle_refl | discriminate]|].
  destruct (orb _ _).
  - assert (Hle : (String.length
                     (if (String.length norm1 <=? String.length norm2)%nat
                      then norm1 else norm2) <=
                   String.length
                     (if (String.length norm2 <? String.length norm1)%nat
                      then norm1 else norm2))%nat).
    { destruct (Nat.leb_spec (String.length norm1) (String.length norm2));
        destruct (Nat.ltb_spec (String.length norm2) (String.length norm1)); lia. }
    pose proof (ratio_nonneg _ _ : 0 <= ratio (String.length
                     (if (String.length norm1 <=? String.length norm2)%nat
                      then norm1 else norm2)) (String.length
                     (if (String.length norm2 <? String.length norm1)%nat
                      then norm1 else norm2))).
    pose proof (ratio_le_1 _ _ Hle).
    split; lra.
  - pose proof (weightedScore_bounds norm1 norm2) as [H0 H1].
    split.
    + apply Qmin_glb; [discriminate | exact H0].
    + apply Qmin_le_l.
Qed.




End Similarity.

(** ** Patterns that always compile *)

Section Compiles.
Import FuzzyMatcher Spec RegExp.

Ltac by_cases_on c :=
  destruct c as [[] [] [] [] [] [] [] []]; try discriminate; try reflexivity.

Lemma readQuantifier_none (a : regex) (t : string) :
  nextOk t = true -> readQuantifier a t = Ok (a, t).
Proof. destruct t as [|c t]; [reflexivity|]. by_cases_on c. Qed.

Lemma readQuantifier_star (a : regex) (t : string) :
  nextOk t = true ->
  readQuantifier a (String "*" t) = Ok (RQuant 0 None true a, t).
Proof. destruct t as [|c t]; [reflexivity|]. by_cases_on c. Qed.

Lemma readQuantifier_opt (a : regex) (t : string) :
  nextOk t = true ->
  readQuantifier a (String "?" t) = Ok (RQuant 0 (Some 1%nat) true a, t).
Proof. destruct t as [|c t]; [reflexivity|]. by_cases_on c. Qed.

Lemma parseTerm_plain (f : nat) (c : ascii) (t : string) (g : nat) :
  plainChar c = true ->
  parseTerm (S f) (String c t) g =
  (readQuantifier (RChar c) t ≫= fun '(q, t') => Ok (q, t', g)).
Proof. by_cases_on c. Qed.

Lemma AltOk_nil : AltOk EmptyString.
Proof.
  intros [|fuel] g H; [simpl in H; lia|].
  exists REmpty. now split.
Qed.

(** The common part of the rules below: a term parsed from the head of the
    source, followed by the rest. *)
Lemma AltOk_term (c : ascii) (s t : string) (a : regex) :
  Ascii.eqb c "|" = false -> Ascii.eqb c ")" = false ->
  (String.length t < String.length (String c s))%nat ->
  (forall f g, parseTerm (S f) (String c s) g = Ok (a, t, g)) ->
  maxBackref a = 0%nat ->
  AltOk t -> AltOk (String c s).
Proof.
  intros Hbar Hpar Hlen Hterm Ha Ht fuel g Hfuel.
  destruct fuel as [|[|fuel]]; [simpl in Hfuel; lia..|].
  destruct (Ht (S fuel) g ltac:(simpl in *; lia)) as (b & Hb & Hb0).
  exists (RSeq a b). split; [|simpl; now rewrite Ha, Hb0].
  transitivity
    (parseTerm (S fuel) (String c s) g ≫= fun '(a, s1, g1) =>
     parseAlternative (S fuel) s1 g1 ≫= fun '(b, s2, g2) => Ok (RSeq a b, s2, g2)).
  - clear -Hbar Hpar. by_cases_on c.
  - rewrite Hterm. cbn [mbind result_bind]. rewrite Hb. reflexivity.
Qed.

Lemma plainChar_not_bar (c : ascii) :
  plainChar c = true -> Ascii.eqb c "|" = false /\ Ascii.eqb c ")" = false.
Proof. by_cases_on c; now split. Qed.

Lemma AltOk_plain (c : ascii) (t : string) :
  plainChar c = true -> nextOk t = true -> AltOk t -> AltOk (String c t).
Proof.
  intros Hc Hnext Ht.
  destruct (plainChar_not_bar c Hc) as [Hbar Hpar].
  apply (AltOk_term c t t (RChar c)); [exact Hbar | exact Hpar | | | | exact Ht].
  - cbn [String.length]. lia.
  - intros f g. rewrite (parseTerm_plain f c t g Hc).
    now rewrite (readQuantifier_none _ _ Hnext).
  - reflexivity.
Qed.

Lemma AltOk_optional (c : ascii) (t : string) :
  plainChar c = true -> nextOk t = true -> AltOk t ->
  AltOk (String c (String "?" t)).
Proof.
  intros Hc Hnext Ht.
  destruct (plainChar_not_bar c Hc) as [Hbar Hpar].
  apply (AltOk_term c (String "?" t) t (RQuant 0 (Some 1%nat) true (RChar c)));
    [exact Hbar | exact Hpar | | | | exact Ht].
  - cbn [String.length]. lia.
  - intros f g. rewrite (parseTerm_plain f c _ g Hc).
    now rewrite (readQuantifier_opt _ _ Hnext).
  - reflexivity.
Qed.

Lemma AltOk_wordBoundary (t : string) :
  nextOk t = true -> AltOk t -> AltOk (String "\" (String "b" t)).
Proof.
  intros Hnext Ht.
  apply (AltOk_term "\" (String "b" t) t RWordB); auto; simpl; lia.
Qed.

(** An escaped syntax character. *)
Lemma AltOk_escaped (e : ascii) (t : string) :
  plainChar e = false -> nextOk t = true -> AltOk t ->
  AltOk (String "\" (String e t)).
Proof.
  intros He Hnext Ht.
  apply (AltOk_term "\" (String e t) t (RChar e)); auto; [simpl; lia|].
  intros f g.
  transitivity (readQuantifier (RChar e) t ≫= fun '(q, t') => Ok (q, t', g)).
  - clear -He. by_cases_on e.
  - now rewrite (readQuantifier_none _ _ Hnext).
Qed.

(** The separator classes of the episode and identifier patterns, with
    their quantifier. *)
Lemma AltOk_separators_any (t : string) :
  nextOk t = true -> AltOk t -> AltOk ("[\s\-_\.]*" +:+ t).
Proof.
  intros Hnext Ht.
  apply (AltOk_term "[" _ t
           (RQuant 0 None true
              (RClass false [CSpace; CChar "-"; CChar "_"; CChar "."])));
    [reflexivity | reflexivity | | | | exact Ht].
  - cbn [String.append String.length]. lia.
  - intros f g.
    transitivity (readQuantifier (RClass false [CSpace; CChar "-"; CChar "_"; CChar "."])
                    (String "*" t) ≫= fun '(q, t') => Ok (q, t', g));
      [reflexivity|].
    now rewrite (readQuantifier_star _ t Hnext).
  - reflexivity.
Qed.

Lemma AltOk_separators_one (t : string) :
  nextOk t = true -> AltOk t -> AltOk ("[\s\-_\.]?" +:+ t).
Proof.
  intros Hnext Ht.
  apply (AltOk_term "[" _ t
           (RQuant 0 (Some 1%nat) true
              (RClass false [CSpace; CChar "-"; CChar "_"; CChar "."])));
    [reflexivity | reflexivity | | | | exact Ht].
  - cbn [String.append String.length]. lia.
  - intros f g.
    transitivity (readQuantifier (RClass false [CSpace; CChar "-"; CChar "_"; CChar "."])
                    (String "?" t) ≫= fun '(q, t') => Ok (q, t', g));
      [reflexivity|].
    now rewrite (readQuantifier_opt _ t Hnext).
  - reflexivity.
Qed.

Lemma AltOk_separators_nodot (t : string) :
  nextOk t = true -> AltOk t -> AltOk ("[\s\-_]*" +:+ t).
Proof.
  intros Hnext Ht.
  apply (AltOk_term "[" _ t
           (RQuant 0 None true (RClass false [CSpace; CChar "-"; CChar "_"])));
    [reflexivity | reflexivity | | | | exact Ht].
  - cbn [String.append String.length]. lia.
  - intros f g.
    transitivity (readQuantifier (RClass false [CSpace; CChar "-"; CChar "_"])
                    (String "*" t) ≫= fun '(q, t') => Ok (q, t', g));
      [reflexivity|].
    now rewrite (readQuantifier_star _ t Hnext).
  - reflexivity.
Qed.

Lemma nextOk_plain (c : ascii) (t : string) :
  plainChar c = true -> nextOk (String c t) = true.
Proof. by_cases_on c. Qed.

Lemma nextOk_app (v t : string) :
  plainStr v = true -> nextOk t = true -> nextOk (v +:+ t) = true.
Proof.
  destruct v as [|c v]; [trivial|].
  intros H _. cbn [plainStr] in H. apply andb_prop in H as [Hc _].
  exact (nextOk_plain c (v +:+ t) Hc).
Qed.

Lemma AltOk_app (v t : string) :
  plainStr v = true -> nextOk t = true -> AltOk t -> AltOk (v +:+ t).
Proof.
  intros Hv Hnext Ht. induction v as [|c v IH]; [exact Ht|].
  cbn [plainStr] in Hv. apply andb_prop in Hv as [Hc Hv].
  change (String c v +:+ t) with (String c (v +:+ t)).
  apply AltOk_plain; [exact Hc | now apply nextOk_app | now apply IH].
Qed.

(** A source made of such pieces compiles. *)
Lemma AltOk_compiles (src : string) (ic : bool) :
  AltOk src -> exists re, RegExp.new src ic = Ok re.
Proof.
  intros H. unfold RegExp.new, parse.
  destruct (H (3 * String.length src + 2)%nat 1%nat ltac:(lia)) as (b & Hb & Hb0).
  replace (3 * String.length src + 3)%nat
    with (S (3 * String.length src + 2)) by lia.
  cbn [parseDisjunction]. rewrite Hb. cbn [mbind result_bind].
  rewrite Hb0. cbn [Nat.ltb Nat.leb mbind result_bind]. eauto.
Qed.


Lemma append_cons (c : ascii) (s t : string) : String c s +:+ t = String c (s +:+ t).
Proof. reflexivity. Qed.

Lemma append_nil (t : string) : EmptyString +:+ t = t.
Proof. reflexivity. Qed.

Lemma plainStr_app (u v : string) :
  plainStr u = true -> plainStr v = true -> plainStr (u +:+ v) = true.
Proof.
  intros Hu Hv. induction u as [|c u IH]; [exact Hv|].
  cbn [plainStr] in Hu. apply andb_prop in Hu as [Hc Hu].
  rewrite append_cons. cbn [plainStr]. now rewrite Hc, IH.
Qed.

Lemma string_of_uint_plain (d : Decimal.uint) :
  plainStr (NilEmpty.string_of_uint d) = true.
Proof. induction d; simpl; auto. Qed.

Lemma numToString_plain (n : Js.num) : plainStr (Js.numToString n) = true.
Proof.
  destruct n as [z|]; [|reflexivity].
  unfold Js.numToString, NilZero.string_of_int, NilZero.string_of_uint.
  destruct (Z.to_int z) as [d|d]; destruct d; try reflexivity;
    apply (string_of_uint_plain (_ _)) || (cbn [plainStr]; apply (string_of_uint_plain (_ _))).
Qed.

Lemma repeat_plain (c : ascii) (n : nat) :
  plainChar c = true -> plainStr (Js.repeat c n) = true.
Proof. intros Hc. induction n as [|n IH]; simpl; [reflexivity|]. now rewrite Hc, IH. Qed.

Lemma padStart_plain (n : nat) (s : string) :
  plainStr s = true -> plainStr (Js.padStart n "0" s) = true.
Proof.
  intros Hs. unfold Js.padStart. apply plainStr_app; [|exact Hs].
  now apply repeat_plain.
Qed.

Lemma append_nil_r (v : string) : v +:+ EmptyString = v.
Proof. induction v as [|c v IH]; [reflexivity|]. now rewrite append_cons, IH. Qed.

Lemma nextOk_plainStr (v : string) : plainStr v = true -> nextOk v = true.
Proof.
  intros Hv. rewrite <- (append_nil_r v). now apply nextOk_app.
Qed.

Lemma AltOk_plainStr (v : string) : plainStr v = true -> AltOk v.
Proof.
  intros Hv. rewrite <- (append_nil_r v).
  apply AltOk_app; [exact Hv | reflexivity | exact AltOk_nil].
Qed.

Ltac next_ok :=
  first [ reflexivity
        | apply nextOk_plainStr; assumption
        | apply nextOk_app; [assumption | next_ok] ].

Ltac alt_ok :=
  rewrite ?append_cons, ?append_nil;
  repeat first
    [ exact AltOk_nil
    | apply AltOk_wordBoundary; [next_ok|]
    | apply AltOk_escaped; [reflexivity | next_ok |]
    | apply AltOk_separators_any; [next_ok|]
    | apply AltOk_separators_one; [next_ok|]
    | apply AltOk_separators_nodot; [next_ok|]
    | apply AltOk_optional; [reflexivity | next_ok |]
    | apply AltOk_plain; [reflexivity | next_ok |]
    | apply AltOk_app; [assumption | next_ok |]
    | apply AltOk_plainStr; assumption ].

Lemma mapM_new {A : Type} (src : A -> string) (ic : A -> bool) (l : list A) :
  Forall (fun x => AltOk (src x)) l ->
  exists ps, mapM (fun x => RegExp.new (src x) (ic x)) l = Ok ps.
Proof.
  induction 1 as [|x l Hx _ (ps & IH)]; [now exists []|].
  destruct (AltOk_compiles (src x) (ic x) Hx) as (re & Hre).
  exists (re :: ps). cbn [mapM]. rewrite Hre. cbn [mbind result_bind].
  rewrite IH. reflexivity.
Qed.

(** The eighteen patterns of the episode matcher compile for every
    season and episode, also for [NaN]. *)
Lemma exactPatterns_total (season episode : Js.num) :
  exists ps, exactPatterns season episode = Ok ps.
Proof.
  unfold exactPatterns. apply (mapM_new (fun src => src) (fun _ => true)).
  unfold exactPatternSources.
  pose proof (numToString_plain season) as Hs.
  pose proof (numToString_plain episode) as He.
  pose proof (padStart_plain 2 _ Hs) as Hsp.
  pose proof (padStart_plain 2 _ He) as Hep.
  set (s := Js.numToString season) in *.
  set (e := Js.numToString episode) in *.
  set (sp := Js.padStart 2 "0" s) in *.
  set (ep := Js.padStart 2 "0" e) in *.
  cbv zeta.
  repeat (constructor; [alt_ok|]). constructor.
Qed.


(** The episode matcher returns for every file name, season and
    episode. *)
Lemma matchesEpisode_total (filename : string) (season episode : Js.num) :
  exists r, matchesEpisode filename season episode = Ok r.
Proof.
  unfold matchesEpisode.
  destruct (exactPatterns_total season episode) as (ps & ->).
  cbn [mbind result_bind].
  destruct (firstMatching ps (Js.toLowerCase filename)); [eauto|].
  destruct (match matchAll _ _ with Some _ => _ | None => _ end); [eauto|].
  destruct (andb _ _); [eauto|].
  assert (Hpack : AltOk ("season[\s\-_]*" +:+ Js.numToString season)).
  { pose proof (numToString_plain season) as Hs.
    set (s := Js.numToString season) in *. alt_ok. }
  destruct (AltOk_compiles _ true Hpack) as (re & ->).
  cbn [mbind result_bind]. destruct (test re _); eauto.
Qed.

Lemma drop_plain (n : nat) (s : string) :
  plainStr s = true -> plainStr (Js.drop n s) = true.
Proof.
  revert s. induction n as [|n IH]; intros [|c s] H; simpl; auto.
  cbn [plainStr] in H. apply andb_prop in H as [_ H]. now apply IH.
Qed.

Lemma replaceString_plain (pat by_ s : string) :
  plainStr by_ = true -> plainStr s = true ->
  plainStr (replaceString pat by_ s) = true.
Proof.
  intros Hby. induction s as [|c s IH]; intros Hs; cbn [replaceString].
  - destruct (Js.startsWith pat EmptyString); [|reflexivity].
    apply plainStr_app; [exact Hby | now apply drop_plain].
  - destruct (Js.startsWith pat (String c s)).
    + apply plainStr_app; [exact Hby | now apply drop_plain].
    + cbn [plainStr] in *. apply andb_prop in Hs as [Hc Hs]. now rewrite Hc, IH.
Qed.

(** The identifier matcher returns for every identifier without pattern
    syntax characters. *)
Lemma matchesImdbId_total (filename imdbId : string) :
  plainStr imdbId = true -> exists r, matchesImdbId filename imdbId = Ok r.
Proof.
  intros Hid. unfold matchesImdbId.
  pose proof (replaceString_plain "tt" EmptyString imdbId eq_refl Hid) as Hnum.
  set (numericId := replaceString "tt" EmptyString imdbId) in *.
  match goal with
  | |- context [mapM ?f ?l ≫= _] =>
      destruct (mapM_new (fun p : string * bool => fst p) (fun p => snd p) l)
        as (ps & Hps)
  end.
  { repeat (constructor; [cbn [fst]; alt_ok|]). constructor. }
  rewrite Hps. cbn [mbind result_bind].
  destruct (firstMatching ps _); [eauto|].
  destruct (match matchAll _ _ with Some _ => _ | None => _ end); [eauto|].
  match goal with
  | |- context [mapM ?f ?l ≫= _] =>
      destruct (mapM_new (fun src : string => src) (fun _ => true) l)
        as (qs & Hqs)
  end.
  { repeat (constructor; [alt_ok|]). constructor. }
  rewrite Hqs. cbn [mbind result_bind].
  destruct (firstMatching qs _); eauto.
Qed.

End Compiles.
(** ** The sort of the engine *)

Section Sorting.
Import FuzzyMatcher Props.
Local Open Scope Q_scope.

Context {A : Type}.

Lemma continueRun_app (cmp : A -> A -> Q) (isDescending : bool) (l : list A) :
  forall (previousElement : A) (run rest : list A),
    continueRun cmp isDescending previousElement l = (run, rest) ->
    l = run ++ rest.
Proof.
  induction l as [|x l IH]; intros prev run rest; cbn [continueRun].
  - now intros [= <- <-].
  - destruct (Bool.eqb (before cmp x prev) isDescending).
    + destruct (continueRun cmp isDescending x l) as [run' rest'] eqn:E.
      intros [= <- <-]. cbn [app]. f_equal. now apply (IH x).
    + now intros [= <- <-].
Qed.

Lemma countAndMakeRun_perm (cmp : A -> A -> Q) (l run rest : list A) :
  countAndMakeRun cmp l = (run, rest) -> Permutation l (run ++ rest).
Proof.
  unfold countAndMakeRun. destruct l as [|a [|b l]].
  - intros [= <- <-]. reflexivity.
  - intros [= <- <-]. reflexivity.
  - destruct (continueRun cmp (before cmp b a) b l) as [run' rest'] eqn:E.
    apply continueRun_app in E. subst l.
    intros H. destruct (before cmp b a); injection H as <- <-.
    + exact (Permutation_app_tail rest' (Permutation_rev (a :: b :: run'))).
    + reflexivity.
Qed.

Lemma insertPivot_perm (cmp : A -> A -> Q) (sorted : list A) (pivot : A) :
  Permutation (pivot :: sorted) (insertPivot cmp sorted pivot).
Proof.
  unfold insertPivot.
  set (left := searchPlace cmp pivot sorted _ _ _).
  rewrite <- Permutation_middle. now rewrite take_drop.
Qed.

Lemma binaryInsertionSort_perm (cmp : A -> A -> Q) (rest : list A) :
  forall run : list A,
    Permutation (run ++ rest) (binaryInsertionSort cmp run rest).
Proof.
  unfold binaryInsertionSort.
  induction rest as [|x rest IH]; intros run; cbn [List.fold_left].
  - now rewrite app_nil_r.
  - rewrite <- IH, <- insertPivot_perm. symmetry. apply Permutation_middle.
Qed.

Lemma sort_perm (cmp : A -> A -> Q) (l : list A) :
  Permutation l (sort cmp l).
Proof.
  unfold sort. destruct (countAndMakeRun cmp l) as [run rest] eqn:E.
  rewrite (countAndMakeRun_perm _ _ _ _ E). apply binaryInsertionSort_perm.
Qed.

Lemma In_sort (cmp : A -> A -> Q) (y : A) (l : list A) :
  In y (sort cmp l) <-> In y l.
Proof.
  split; apply Permutation_in; [symmetry|]; apply sort_perm.
Qed.

(** *** A comparator that compares one number *)

Variable f : A -> Q.













End Sorting.

(** ** Episodes, identifiers and their combination *)

Section Combination.
Import FuzzyMatcher Spec.
Local Open Scope Q_scope.

Ltac absurd_scores :=
  exfalso;
  repeat match goal with H : _ /\ _ |- _ => destruct H end;
  first [lra | tauto].

(** C4.  A series request whose identifier carries a season and an
    episode: the episode matcher returns, and when the identifier matcher
    returns too, with both scores positive the result is 0.7 × episode +
    0.3 × identifier under the method [series_combined]; otherwise an
    episode score above 0.6 gives the episode result; otherwise an
    identifier score above 0.7 with an episode score above 0.2 gives 0.6 ×
    identifier + 0.4 × episode; otherwise the higher-scoring result is
    used. *)
Theorem series_combination (f : file) (id season episode : string)
    (targetTitle targetYear : option string) (i : matchResult) :
  List.nth_error (Js.split ":" id) 1 = Some season ->
  List.nth_error (Js.split ":" id) 2 = Some episode ->
  season <> EmptyString -> episode <> EmptyString ->
  matchesImdbId (name f) (List.nth 0 (Js.split ":" id) EmptyString) = Ok i ->
  exists e r,
    matchesEpisode (name f) (Js.parseInt season) (Js.parseInt episode) = Ok e /\
    matchFile "series" id targetTitle targetYear f = Ok r /\
    (0 < score e /\ 0 < score i ->
     score r = score e * (7 # 10) + score i * (3 # 10) /\
     method r = "series_combined") /\
    (~ (0 < score e /\ 0 < score i) -> 6 # 10 < score e -> r = e) /\
    (~ (0 < score e /\ 0 < score i) -> ~ 6 # 10 < score e ->
     7 # 10 < score i /\ 2 # 10 < score e ->
     score r = score i * (6 # 10) + score e * (4 # 10)) /\
    (~ (0 < score e /\ 0 < score i) -> ~ 6 # 10 < score e ->
     ~ (7 # 10 < score i /\ 2 # 10 < score e) ->
     (score i < score e -> r = e) /\ (score e <= score i -> r = i)).
Proof.
  intros Hs He Hsne Hene Him.
  destruct (matchesEpisode_total (name f) (Js.parseInt season)
              (Js.parseInt episode)) as (e & Hep).
  exists e, (combineSeries e i). split; [exact Hep|]. split.
  - unfold matchFile.
    change (String.eqb "series" "movie") with false.
    change (String.eqb "series" "series") with true. cbv iota.
    rewrite Hs, He. cbn [Js.truthy default].
    apply String.eqb_neq in Hsne, Hene. rewrite Hsne, Hene. cbn [negb andb].
    unfold Datatypes.id. rewrite Hep. cbn [mbind result_bind]. rewrite Him.
    reflexivity.
  - unfold combineSeries.
    destruct (Qltb 0 (score e)) eqn:E1; [apply Qltb_lt in E1 | apply Qltb_ge in E1];
    (destruct (Qltb 0 (score i)) eqn:E2; [apply Qltb_lt in E2 | apply Qltb_ge in E2]);
    (destruct (Qltb (6 # 10) (score e)) eqn:E3;
       [apply Qltb_lt in E3 | apply Qltb_ge in E3]);
    (destruct (Qltb (7 # 10) (score i)) eqn:E4;
       [apply Qltb_lt in E4 | apply Qltb_ge in E4]);
    (destruct (Qltb (2 # 10) (score e)) eqn:E5;
       [apply Qltb_lt in E5 | apply Qltb_ge in E5]);
    (destruct (Qltb (score i) (score e)) eqn:E6;
       [apply Qltb_lt in E6 | apply Qltb_ge in E6]);
    cbn [andb score method mk];
    repeat split; intros; solve [reflexivity | absurd_scores].
Qed.

Lemma series_combination_witness :
  exists r,
    matchFile "series" "tt9999999:1:2" None None (fileNamed "Show.S01E02.srt") = Ok r /\
    r = MatchResult 1 "exact_episode" (Some "s01e02\b").
Proof.
  destruct (series_combination (fileNamed "Show.S01E02.srt") "tt9999999:1:2"
              "1" "2" None None (mk 0 "no_imdb_match"))
    as (e & r & He & Hr & _ & Hepisode & _).
  - vm_compute. reflexivity.
  - vm_compute. reflexivity.
  - discriminate.
  - discriminate.
  - vm_compute. reflexivity.
  - vm_compute in He. injection He as <-.
    exists r. split; [exact Hr|]. apply Hepisode.
    + intros [_ H]. vm_compute in H. discriminate.
    + vm_compute. reflexivity.
Defined.


Lemma find_exists {A : Type} (p : A -> bool) (l : list A) (x : A) :
  In x l -> p x = true -> exists y, List.find p l = Some y.
Proof.
  induction l as [|z l IH]; simpl; [contradiction|].
  intros [-> | Hin] Hp.
  - rewrite Hp. eauto.
  - destruct (p z); eauto.
Qed.

(** *** Movies without metadata *)

Lemma analyzeFilename_no_metadata (filename : string)
    (targetTitle targetYear : option string) :
  Js.truthy targetTitle = false -> Js.truthy targetYear = false ->
  score (analyzeFilename filename targetTitle targetYear) <= 1 # 10.
Proof.
  intros Htitle Hyear. unfold analyzeFilename. rewrite Htitle, Hyear.
  cbn [andb].
  destruct (RegExp.test _ _); destruct (RegExp.test _ _); vm_compute; discriminate.
Qed.

Lemma matchFile_movie_no_metadata (id : string)
    (targetTitle targetYear : option string) (f : file) (r : matchResult) :
  Js.truthy targetTitle = false -> Js.truthy targetYear = false ->
  matchesImdbId (name f) id = Ok r -> score r == 0 ->
  exists m,
    matchFile "movie" id targetTitle targetYear f = Ok m /\ score m <= 1 # 10.
Proof.
  intros Htitle Hyear Him Hzero.
  unfold matchFile. change (String.eqb "movie" "movie") with true. cbv iota.
  rewrite Him. cbn [mbind result_bind].
  eexists. split; [reflexivity|].
  unfold movieStrategies. rewrite Htitle. cbn [app].
  pose proof (analyzeFilename_no_metadata (name f) targetTitle targetYear
                Htitle Hyear) as Hfile.
  set (fa := analyzeFilename (name f) targetTitle targetYear) in *.
  unfold combineMovie, bestOf, s_score. cbn [List.fold_left List.filter s_result].
  assert (H1 : Qltb (5 # 10) (score r) = false) by (apply Qltb_ge; lra).
  assert (H2 : Qltb (5 # 10) (score fa) = false) by (apply Qltb_ge; lra).
  rewrite H1, H2. cbn [List.length Nat.ltb Nat.leb].
  destruct (Qltb (score r) (score fa)); cbn [s_result]; lra.
Qed.

(** Every candidate collected passed the threshold with its own match
    result. *)
Lemma collect_In (type id : string) (targetTitle targetYear : option string)
    (minScore : Q) (files : list file) (matches : list ranked) (c : ranked) :
  collect type id targetTitle targetYear minScore files = Ok matches ->
  In c matches ->
  In (r_file c) files /\
  matchFile type id targetTitle targetYear (r_file c) = Ok (r_match c) /\
  minScore <= score (r_match c).
Proof.
  revert matches. induction files as [|f files IH]; intros matches; simpl.
  - intros [= <-] [].
  - destruct (matchFile type id targetTitle targetYear f) as [m|] eqn:Hm;
      cbn [mbind result_bind]; [|discriminate].
    destruct (collect type id targetTitle targetYear minScore files) as [ms|];
      cbn [mbind result_bind]; [|discriminate].
    destruct (Qle_bool minScore (score m)) eqn:Hle.
    + intros [= <-] [<- | Hin]; cbn [r_file r_match].
      * repeat split; [now left | exact Hm | now apply Qle_bool_iff].
      * destruct (IH ms eq_refl Hin) as (? & ? & ?). repeat split; auto.
    + intros [= <-] Hin.
      destruct (IH ms eq_refl Hin) as (? & ? & ?). repeat split; auto.
Qed.

(** C10, as the code has it.  A movie request evaluated without a target
    title and without a target year, each of them missing or empty: a
    file whose identifier match scores 0 gets a final score of at most
    0.1, which is below the default minimum 0.4 and the handler's minimum
    0.3, and the file is in no ranked output of [findBestMatches].  The
    handler evaluates a movie request in this way when the metadata lookup
    gives nothing, or metadata with neither a title nor a year, and then
    the file is not in its answer. *)
Theorem unidentified_movie_excluded (files : list file) (id : string)
    (targetTitle targetYear : option string) (f : file) (r : matchResult) :
  Js.truthy targetTitle = false -> Js.truthy targetYear = false ->
  matchesImdbId (name f) id = Ok r -> score r == 0 ->
  (exists m,
      matchFile "movie" id targetTitle targetYear f = Ok m /\
      score m <= 1 # 10) /\
  (1 # 10 < handlerMinScore /\ 1 # 10 < defaultMinScore) /\
  (forall (minScore : Q) (out : list ranked),
      1 # 10 < minScore ->
      findBestMatches files "movie" id targetTitle targetYear minScore = Ok out ->
      ~ In f (List.map r_file out)) /\
  ~ In f (List.map r_file (handlerMatches files "movie" id None)) /\
  ~ In f (List.map r_file
            (handlerMatches files "movie" id
                            (Some (MovieInfo targetTitle targetYear)))).
Proof.
  intros Htitle Hyear Him Hzero.
  assert (Hout : forall (tt ty : option string) (minScore : Q) (out : list ranked),
             Js.truthy tt = false -> Js.truthy ty = false ->
             1 # 10 < minScore ->
             findBestMatches files "movie" id tt ty minScore = Ok out ->
             ~ In f (List.map r_file out)).
  { intros tt ty minScore out Htt Hty Hmin Hfind Hin.
    destruct (matchFile_movie_no_metadata id tt ty f r Htt Hty Him Hzero)
      as (m & Hm & Hscore).
    unfold findBestMatches in Hfind.
    destruct (collect "movie" id tt ty minScore files) as [ms|] eqn:Hc;
      cbn [mbind result_bind] in Hfind; [|discriminate].
    injection Hfind as <-.
    apply in_map_iff in Hin as (c & <- & Hin).
    apply In_sort in Hin.
    destruct (collect_In _ _ _ _ _ _ _ _ Hc Hin) as (_ & Hm' & Hle).
    rewrite Hm in Hm'. injection Hm' as Hm'. rewrite <- Hm' in Hle. lra. }
  split; [exact (matchFile_movie_no_metadata id _ _ f r Htitle Hyear Him Hzero)|].
  split; [split; reflexivity|].
  split; [intros minScore out; now apply Hout|].
  unfold handlerMatches. change (String.eqb "movie" "movie") with true.
  cbv iota beta. cbn [title year].
  split.
  - destruct (findBestMatches files "movie" id None None handlerMinScore)
      as [out|] eqn:Hfind; [|simpl; tauto].
    apply (Hout None None handlerMinScore out); [reflexivity.. | exact Hfind].
  - destruct (findBestMatches files "movie" id targetTitle targetYear
                handlerMinScore) as [out|] eqn:Hfind; [|simpl; tauto].
    apply (Hout targetTitle targetYear handlerMinScore out);
      [assumption | assumption | reflexivity | exact Hfind].
Qed.

Lemma unidentified_movie_excluded_witness :
  ~ In (fileNamed "Unrelated.Film.2010.srt")
       (List.map r_file
          (handlerMatches [fileNamed "Unrelated.Film.2010.srt"]
                          "movie" "tt1234567"
                          (Some (MovieInfo (Some EmptyString) None)))).
Proof.
  apply (unidentified_movie_excluded [fileNamed "Unrelated.Film.2010.srt"]
           "tt1234567" (Some EmptyString) None
           (fileNamed "Unrelated.Film.2010.srt") (mk 0 "no_imdb_match")).
  - reflexivity.
  - reflexivity.
  - vm_compute. reflexivity.
  - reflexivity.
Defined.

(** C10 as stated fails when the request has a target year and no target
    title: the year and a quality tag in the file name give the filename
    analysis 0.3, and the file is ranked at the handler's minimum.  The
    handler makes such a request when the metadata has a year and no
    title: an answer of the metadata service with [Year] and without
    [Title] puts the file into the answer of the handler. *)
Lemma unidentified_movie_excluded_counterexample :
  let f := fileNamed "Movie.2020.1080p.srt" in
  matchesImdbId (name f) "tt1234567" = Ok (mk 0 "no_imdb_match") /\
  (exists m,
      findBestMatches [f] "movie" "tt1234567" None (Some "2020") handlerMinScore =
      Ok [Ranked f m] /\
      handlerMatches [f] "movie" "tt1234567" (Some (MovieInfo None (Some "2020"))) =
      [Ranked f m] /\
      score m == 3 # 10 /\ ~ (score m <= 1 # 10)) /\
  let fetchGithub := fun (_ : string) (requests : nat) =>
    (GithubService.Listing
       [GithubService.Item "Movie.2020.1080p.srt" "Movie.2020.1080p.srt" "file"
                           "https://raw/Movie.2020.1080p.srt" 0 "sha"],
     S requests) in
  let fetchOmdb := fun (_ : string) (requests : nat) =>
    (MovieDatabase.Json
       (MovieDatabase.OmdbData (Some "True") (Some "tt1234567") None (Some "2020")
                               None None None None None None),
     S requests) in
  exists c' w',
    SubtitlesHandler.handleSubtitlesRequest nat fetchGithub fetchOmdb 1
      (SubtitlesHandler.Args "movie" "tt1234567" None
         (Some (SubtitlesHandler.Config (Some "owner/repo") None))) [] 0%nat =
    Some ([SubtitlesHandler.Subtitle "github:owner/repo:Movie.2020.1080p.srt"
             "https://raw/Movie.2020.1080p.srt" "other" "Movie.2020.1080p.srt"],
          c', w').
Proof.
  intros f. split; [vm_compute; reflexivity|]. split.
  - eexists. split; [vm_compute; reflexivity|].
    split; [vm_compute; reflexivity|].
    split; [reflexivity|].
    intros H. vm_compute in H. now apply H.
  - intros fetchGithub fetchOmdb. do 2 eexists. vm_compute. reflexivity.
Qed.

End Combination.

(** ** Year extraction *)

Section YearExtraction.
Import FuzzyMatcher Spec.












End YearExtraction.

(** ** Normalization *)

Section Normalization.
Import FuzzyMatcher Spec.

Lemma split_noSpace (s : string) : Forall (fun w => noSpace w = true) (Js.split " " s).
Proof.
  induction s as [|c s IH]; simpl.
  - now repeat constructor.
  - destruct (Ascii.eqb c " ") eqn:E.
    + constructor; [reflexivity | exact IH].
    + destruct (Js.split " " s) as [|w ws].
      * constructor; [|constructor]. unfold noSpace. simpl. now rewrite E.
      * inversion IH as [|? ? Hw Hws]; subst.
        constructor; [|exact Hws]. unfold noSpace. simpl. now rewrite E.
Qed.

Lemma split_nonempty (c : ascii) (s : string) : Js.split c s <> [].
Proof.
  destruct s as [|x s]; simpl; [discriminate|].
  destruct (Ascii.eqb x c); [discriminate|].
  destruct (Js.split c s); discriminate.
Qed.

Lemma split_word (w : string) : noSpace w = true -> Js.split " " w = [w].
Proof.
  induction w as [|c w IH]; [reflexivity|].
  unfold noSpace. simpl. intros H. apply andb_prop in H as [Hc Hw].
  apply negb_true_iff in Hc. rewrite Hc, (IH Hw). reflexivity.
Qed.

Lemma split_word_app (w rest : string) :
  noSpace w = true ->
  Js.split " " (w +:+ " " +:+ rest) = w :: Js.split " " rest.
Proof.
  induction w as [|c w IH]; [reflexivity|].
  unfold noSpace. simpl. intros H. apply andb_prop in H as [Hc Hw].
  apply negb_true_iff in Hc.
  change (String c w +:+ " " +:+ rest) with (String c (w +:+ " " +:+ rest)).
  simpl. rewrite Hc, (IH Hw). reflexivity.
Qed.

Lemma split_join (ws : list string) :
  ws <> [] -> Forall (fun w => noSpace w = true) ws ->
  Js.split " " (Js.join " " ws) = ws.
Proof.
  induction ws as [|w ws IH]; [congruence|].
  intros _ Hall. inversion Hall as [|? ? Hw Hws]; subst.
  destruct ws as [|w' ws].
  - simpl. now apply split_word.
  - change (Js.join " " (w :: w' :: ws)) with (w +:+ " " +:+ Js.join " " (w' :: ws)).
    rewrite (split_word_app _ _ Hw), IH; [reflexivity | discriminate | exact Hws].
Qed.

Lemma removeStopWords_tokens (t : string) :
  Forall (fun w => isToken w = true) (removeStopWords t).
Proof.
  unfold removeStopWords. apply Forall_forall. intros w Hin.
  apply list_elem_of_In, filter_In in Hin as [Hin Hp].
  pose proof (split_noSpace t) as Hall. rewrite Forall_forall in Hall.
  apply list_elem_of_In, Hall in Hin.
  apply andb_prop in Hp as [Hlen Hstop].
  unfold isToken. now rewrite Hlen, Hin, Hstop.
Qed.

Lemma removeStopWords_join (ws : list string) :
  Forall (fun w => isToken w = true) ws ->
  removeStopWords (Js.join " " ws) = ws.
Proof.
  intros Hall. unfold removeStopWords.
  destruct ws as [|w ws]; [reflexivity|].
  rewrite split_join; [|discriminate|].
  - apply forallb_filter_id. apply forallb_forall. intros x Hx.
    rewrite Forall_forall in Hall. apply list_elem_of_In, Hall in Hx.
    unfold isToken in Hx. apply andb_prop in Hx as [Hx Hstop].
    apply andb_prop in Hx as [Hlen _]. now rewrite Hlen, Hstop.
  - eapply Forall_impl; [exact Hall|]. intros x Hx. cbv beta in Hx.
    unfold isToken in Hx. apply andb_prop in Hx as [Hx _].
    now apply andb_prop in Hx as [_ Hx].
Qed.

(** A normalized text is the space-joined sequence of its tokens. *)
Lemma normalizeText_tokens (s : string) :
  exists ws, normalizeText s = Js.join " " ws /\
             Forall (fun w => isToken w = true) ws.
Proof.
  unfold normalizeText. destruct (String.eqb s EmptyString).
  - exists []. split; [reflexivity | constructor].
  - eexists. split; [reflexivity | apply removeStopWords_tokens].
Qed.

(** C6, as the code has it.  A normalized text is stable under the last
    stage of the pipeline: splitting it at the spaces and removing the
    empty words and the stop words gives back the same text, whose words
    are tokens.  Normalizing twice gives the same text as normalizing once
    on the empty string and on [The Matrix (1999)]; it does not for every
    string. *)
Theorem normalized_text_stable :
  (forall s : string,
      Js.join " " (removeStopWords (normalizeText s)) = normalizeText s /\
      Forall (fun w => isToken w = true) (removeStopWords (normalizeText s))) /\
  normalizeText (normalizeText EmptyString) = normalizeText EmptyString /\
  normalizeText (normalizeText "The Matrix (1999)") =
  normalizeText "The Matrix (1999)".
Proof.
  split; [|split; vm_compute; reflexivity].
  intros s. destruct (normalizeText_tokens s) as (ws & -> & Hws).
  rewrite (removeStopWords_join ws Hws). now split.
Qed.

(** C6 as stated fails: the apostrophe is dropped after the abbreviations
    are expanded, so the first pass leaves [pt], which the second pass
    expands to [part]. *)
Lemma normalize_idempotent_counterexample :
  normalizeText "p't" = "pt" /\
  normalizeText (normalizeText "p't") = "part" /\
  normalizeText (normalizeText "p't") <> normalizeText "p't".
Proof.
  split; [vm_compute; reflexivity|].
  split; [vm_compute; reflexivity|].
  vm_compute. discriminate.
Qed.

End Normalization.

(** ** Symmetry of the metrics *)

Section Symmetry.
Import FuzzyMatcher Spec.
Local Open Scope Q_scope.

Lemma levSim_sym (a b : string) :
  calculateLevenshteinSimilarity a b = calculateLevenshteinSimilarity b a.
Proof.
  unfold calculateLevenshteinSimilarity.
  now rewrite (Nat.max_comm (String.length a)), (distance_sym a b).
Qed.

Lemma jaccard_sym (a b : string) :
  calculateJaccardSimilarity a b = calculateJaccardSimilarity b a.
Proof.
  unfold calculateJaccardSimilarity.
  assert (charSet a ∩ charSet b = charSet b ∩ charSet a) as -> by set_solver.
  assert (charSet a ∪ charSet b = charSet b ∪ charSet a) as -> by set_solver.
  reflexivity.
Qed.

Lemma ngram_sym (a b : string) (n : nat) :
  calculateNGramSimilarity a b n = calculateNGramSimilarity b a n.
Proof.
  unfold calculateNGramSimilarity.
  rewrite (andb_comm (Nat.eqb (List.length (generateNGrams a n)) 0)),
          (orb_comm (Nat.eqb (List.length (generateNGrams a n)) 0)).
  set (set1 := list_to_set (generateNGrams a n) : gset string).
  set (set2 := list_to_set (generateNGrams b n) : gset string).
  assert (set1 ∩ set2 = set2 ∩ set1) as -> by set_solver.
  assert (set1 ∪ set2 = set2 ∪ set1) as -> by set_solver.
  reflexivity.
Qed.

Lemma phonetic_count (a b : string) :
  calculatePhoneticSimilarity a b =
  ratio (phoneticCount a b) (Nat.max (tokenCount a) (tokenCount b)).
Proof.
  unfold calculatePhoneticSimilarity, phoneticCount, tokenCount.
  rewrite count_fold.
  pose proof (split_nonempty " " a) as Ha.
  destruct (Js.split " " a) as [|w ws] eqn:E; [congruence|].
  cbn [List.length Nat.max Nat.eqb]. destruct (List.length (Js.split " " b));
    reflexivity.
Qed.

(** C2, as the code has it.  The edit-distance, character Jaccard and
    bigram metrics are symmetric in their two arguments.  The phonetic
    metric counts the tokens of its first argument that share a phonetic
    code with a token of the second, over the larger of the two token
    counts. *)
Theorem metric_symmetry (a b : string) :
  calculateLevenshteinSimilarity a b = calculateLevenshteinSimilarity b a /\
  calculateJaccardSimilarity a b = calculateJaccardSimilarity b a /\
  calculateNGramSimilarity a b 2 = calculateNGramSimilarity b a 2 /\
  calculatePhoneticSimilarity a b =
  ratio (phoneticCount a b) (Nat.max (tokenCount a) (tokenCount b)).
Proof.
  split; [apply levSim_sym|]. split; [apply jaccard_sym|].
  split; [apply ngram_sym | apply phonetic_count].
Qed.

(** C2 as stated fails: with two tokens against one the phonetic metric is
    1 in one direction and 1/2 in the other, and the similarity differs by
    0.075; the token metric is not symmetric either. *)
Lemma similarity_symmetry_counterexample :
  ~ (calculateSimilarity "phone phone" "fone" ==
     calculateSimilarity "fone" "phone phone") /\
  calculatePhoneticSimilarity "phone phone" "fone" == 1 /\
  calculatePhoneticSimilarity "fone" "phone phone" == 1 # 2 /\
  ~ (calculateWordSimilarity ["abcdefghxx"; "abcdefghix"] ["abcdefghij"] ==
     calculateWordSimilarity ["abcdefghij"] ["abcdefghxx"; "abcdefghix"]).
Proof.
  split; [vm_compute; discriminate|].
  split; [vm_compute; reflexivity|].
  split; [vm_compute; reflexivity|].
  vm_compute. discriminate.
Qed.

End Symmetry.

(** ** Regular expression literals and exceptions *)

Section Exceptions.
Import FuzzyMatcher Spec.
Local Open Scope Q_scope.

(** Every regular expression literal of the matcher is well formed, so
    [RegExp.lit] never falls back. *)
Lemma literals_compile : forallb compiles literalSources = true.
Proof. vm_compute. reflexivity. Qed.

(** The patterns of the episode matcher for season 1, episode 2. *)
Lemma episode_patterns_compile :
  forallb compiles (exactPatternSources (Some 1%Z) (Some 2%Z)) = true.
Proof. vm_compute. reflexivity. Qed.

(** C1.  The identifier is spliced into pattern sources without escaping:
    for the identifier [tt(] the construction of the first pattern throws
    a syntax error, [findBestMatches] throws with it, and the handler
    answers with no subtitles although the episode matcher scores the file
    1.  An identifier that is malformed without a pattern metacharacter
    gives the no-match result, and the file is returned (see
    [matchesImdbId_total] and [matchesEpisode_total] for the inputs on
    which the two matchers return). *)
Theorem identifier_metacharacter_throws :
  plainStr "tt(" = false /\
  matchesImdbId "Show.S01E02.srt" "tt(" =
    Throw (SyntaxError "Unterminated group") /\
  findBestMatches [fileNamed "Show.S01E02.srt"] "series" "tt(:1:2" None None
                  handlerMinScore =
    Throw (SyntaxError "Unterminated group") /\
  handlerMatches [fileNamed "Show.S01E02.srt"] "series" "tt(:1:2" None = [] /\
  matchesImdbId "Show.S01E02.srt" "no id" = Ok (mk 0 "no_imdb_match") /\
  handlerMatches [fileNamed "Show.S01E02.srt"] "series" "no id:1:2" None =
    [Ranked (fileNamed "Show.S01E02.srt")
            (MatchResult 1 "exact_episode" (Some "s01e02\b"))].
Proof. repeat split; vm_compute; reflexivity. Qed.

End Exceptions.

(** * Properties of the services *)

(** ** Splitting and joining *)

Section Strings.
Import Props.

Lemma split_parts (c : ascii) (s : string) :
  Forall (fun w => noChar c w = true) (Js.split c s).
Proof.
  induction s as [|a s IH]; simpl.
  - repeat constructor.
  - destruct (Ascii.eqb a c) eqn:E.
    + constructor; [reflexivity | exact IH].
    + destruct (Js.split c s) as [|w ws].
      * constructor; [|constructor]. unfold noChar. simpl. now rewrite E.
      * inversion IH; subst. constructor; [|assumption].
        unfold noChar in *. simpl. now rewrite E.
Qed.

Lemma split_not_nil (c : ascii) (s : string) : Js.split c s <> [].
Proof.
  destruct s as [|a s]; simpl; [discriminate|].
  destruct (Ascii.eqb a c); [discriminate|].
  destruct (Js.split c s); discriminate.
Qed.

Lemma join_split (c : ascii) (s : string) :
  Js.join (String c EmptyString) (Js.split c s) = s.
Proof.
  induction s as [|a s IH]; simpl; [reflexivity|].
  destruct (Ascii.eqb a c) eqn:E.
  - apply Ascii.eqb_eq in E. subst a.
    pose proof (split_not_nil c s) as Hne.
    destruct (Js.split c s) as [|w ws] eqn:Es; [contradiction|].
    change (Js.join (String c EmptyString) (EmptyString :: w :: ws))
      with (String c (Js.join (String c EmptyString) (w :: ws))).
    now rewrite IH.
  - destruct (Js.split c s) as [|w ws] eqn:Es.
    + now destruct (split_not_nil c s).
    + rewrite <- IH. destruct ws; reflexivity.
Qed.

Lemma split_one (c : ascii) (w : string) :
  noChar c w = true -> Js.split c w = [w].
Proof.
  unfold noChar. induction w as [|a w IH]; simpl; [reflexivity|].
  intros H. apply andb_prop in H as [Ha Hw].
  apply negb_true_iff in Ha. rewrite Ha, (IH Hw). reflexivity.
Qed.

Lemma split_cons (c : ascii) (w rest : string) :
  noChar c w = true ->
  Js.split c (w +:+ String c rest) = w :: Js.split c rest.
Proof.
  unfold noChar. induction w as [|a w IH]; simpl.
  - intros _. now rewrite Ascii.eqb_refl.
  - intros H. apply andb_prop in H as [Ha Hw].
    apply negb_true_iff in Ha.
    change (String a w +:+ String c rest) with (String a (w +:+ String c rest)).
    simpl. now rewrite Ha, (IH Hw).
Qed.

Lemma split_join_parts (c : ascii) (ws : list string) :
  ws <> [] -> Forall (fun w => noChar c w = true) ws ->
  Js.split c (Js.join (String c EmptyString) ws) = ws.
Proof.
  induction ws as [|w ws IH]; [contradiction|].
  intros _ H. inversion H as [|? ? Hw Hws]; subst.
  destruct ws as [|w' ws'].
  - simpl. now apply split_one.
  - change (Js.join (String c EmptyString) (w :: w' :: ws'))
      with (w +:+ String c EmptyString +:+ Js.join (String c EmptyString) (w' :: ws')).
    change (String c EmptyString +:+ ?x) with (String c x).
    rewrite split_cons by exact Hw.
    f_equal. apply IH; [discriminate | exact Hws].
Qed.

End Strings.

(** ** The metadata cache *)

Section Cache.
Import MovieDatabase Props.

Lemma get_set_same (k : string) (v : option movieInfo) (c : cache) :
  get k (set k v c) = Some v.
Proof.
  induction c as [|[k' v'] c IH]; simpl.
  - now rewrite String.eqb_refl.
  - destruct (String.eqb k' k) eqn:E; simpl.
    + now rewrite String.eqb_refl.
    + now rewrite E.
Qed.

Lemma get_set_other (k k' : string) (v : option movieInfo) (c : cache) :
  k' <> k -> get k' (set k v c) = get k' c.
Proof.
  intros Hne. induction c as [|[k0 v0] c IH]; simpl.
  - destruct (String.eqb k k') eqn:E; [|reflexivity].
    apply String.eqb_eq in E. congruence.
  - destruct (String.eqb k0 k) eqn:E; simpl.
    + apply String.eqb_eq in E. subst k0.
      destruct (String.eqb k k') eqn:E'; [|reflexivity].
      apply String.eqb_eq in E'. congruence.
    + now rewrite IH.
Qed.

Lemma has_set (k : string) (v : option movieInfo) (c : cache) :
  has k (set k v c) = true.
Proof. unfold has. now rewrite get_set_same. Qed.

Lemma keys_set (k : string) (v : option movieInfo) (c : cache) :
  List.map fst (set k v c) =
  if has k c then List.map fst c else List.map fst c ++ [k].
Proof.
  unfold has. induction c as [|[k0 v0] c IH]; simpl; [reflexivity|].
  destruct (String.eqb k0 k) eqn:E; simpl.
  - apply String.eqb_eq in E. now subst.
  - rewrite IH. now destruct (get k c).
Qed.

Lemma get_None_keys (k : string) (c : cache) :
  get k c = None <-> ~ In k (List.map fst c).
Proof.
  induction c as [|[k0 v0] c IH]; simpl; [tauto|].
  destruct (String.eqb k0 k) eqn:E.
  - apply String.eqb_eq in E. subst. split; [discriminate | tauto].
  - apply String.eqb_neq in E. rewrite IH. tauto.
Qed.

Lemma set_uniqueKeys (k : string) (v : option movieInfo) (c : cache) :
  uniqueKeys c -> uniqueKeys (set k v c).
Proof.
  unfold uniqueKeys. intros H. rewrite keys_set. unfold has.
  destruct (get k c) eqn:E; [exact H|].
  apply get_None_keys in E.
  apply List.NoDup_app; [exact H | repeat constructor; intros [] |].
  intros a Ha [<-|[]]. contradiction.
Qed.

End Cache.

Section CacheTheorems.
Import MovieDatabase Props.

(** X1.  A decoded answer of the metadata service is remembered, found or
    not: the next lookup of the same identifier returns the same value
    without a request, whatever the service would answer then, and the
    other entries of the cache are untouched.  A request that throws
    leaves the cache as it was, so the next lookup asks again. *)
Theorem lookup_is_remembered (world : Type)
    (fetch : string -> world -> omdbResponse * world)
    (imdbId : string) (c : cache) (w : world) :
  has imdbId c = false ->
  (forall (data : omdbData) (w1 : world),
      fetch (omdbUrl imdbId) w = (Json data, w1) ->
      let v := if isFound data then Some (fromOmdb data) else None in
      exists c1,
        getMovieInfo world fetch imdbId c w = (v, c1, w1) /\
        (forall (fetch' : string -> world -> omdbResponse * world) (w' : world),
            getMovieInfo world fetch' imdbId c1 w' = (v, c1, w')) /\
        (forall k, k <> imdbId -> get k c1 = get k c) /\
        (uniqueKeys c -> uniqueKeys c1)) /\
  (forall w1 : world,
      fetch (omdbUrl imdbId) w = (NetworkError, w1) ->
      getMovieInfo world fetch imdbId c w = (None, c, w1)).
Proof.
  intros Hmiss. split.
  - intros data w1 Hfetch v.
    exists (set imdbId v c). unfold getMovieInfo at 1.
    rewrite Hmiss, Hfetch. subst v.
    split; [now destruct (isFound data)|].
    split; [|split].
    + intros fetch' w'. unfold getMovieInfo.
      now rewrite has_set, get_set_same.
    + intros k Hk. now apply get_set_other.
    + apply set_uniqueKeys.
  - intros w1 Hfetch. unfold getMovieInfo. now rewrite Hmiss, Hfetch.
Qed.

Lemma lookup_is_remembered_witness :
  let notFound := OmdbData (Some "False") None None None None None None None None
                           (Some "Incorrect IMDb ID.") in
  let fetch := fun (_ : string) (requests : nat) => (Json notFound, S requests) in
  exists c1,
    getMovieInfo nat fetch "tt0000000" [] 0%nat = (None, c1, 1%nat) /\
    forall (fetch' : string -> nat -> omdbResponse * nat) (w' : nat),
      getMovieInfo nat fetch' "tt0000000" c1 w' = (None, c1, w').
Proof.
  intros notFound fetch.
  destruct (lookup_is_remembered nat fetch "tt0000000" [] 0%nat eq_refl) as [H _].
  destruct (H notFound 1%nat eq_refl) as (c1 & H1 & H2 & _).
  exists c1. split; [exact H1 | exact H2].
Defined.

Lemma getAllMovies_fold (k : string) (c : cache) (acc : gmap string movieInfo) :
  uniqueKeys c -> k <> "__proto__" ->
  List.fold_left
    (fun (movies : gmap string movieInfo) (entry : string * option movieInfo) =>
       match snd entry with
       | Some movieInfo =>
           if String.eqb (fst entry) "__proto__" then movies
           else <[fst entry := movieInfo]> movies
       | None => movies
       end) c acc !! k =
  match cachedMovie k c with
  | Some m => Some m
  | None => acc !! k
  end.
Proof.
  unfold uniqueKeys, cachedMovie. intros Hc Hk. revert acc.
  induction c as [|[k0 v0] c IH]; intros acc; simpl; [reflexivity|].
  inversion Hc as [|? ? Hnotin Hc']; subst.
  rewrite (IH Hc'). simpl in Hnotin.
  destruct (String.eqb k0 k) eqn:E.
  - apply String.eqb_eq in E. subst k0.
    apply get_None_keys in Hnotin. rewrite Hnotin.
    destruct v0 as [m|]; [|reflexivity].
    apply String.eqb_neq in Hk. rewrite Hk. apply lookup_insert_eq.
  - apply String.eqb_neq in E.
    destruct (get k c) as [[m|]|]; try reflexivity;
      (destruct v0 as [m0|]; [|reflexivity];
       destruct (String.eqb k0 "__proto__"); [reflexivity|];
       now apply lookup_insert_ne).
Qed.

Lemma getAllMovies_proto (c : cache) (acc : gmap string movieInfo) :
  List.fold_left
    (fun (movies : gmap string movieInfo) (entry : string * option movieInfo) =>
       match snd entry with
       | Some movieInfo =>
           if String.eqb (fst entry) "__proto__" then movies
           else <[fst entry := movieInfo]> movies
       | None => movies
       end) c acc !! "__proto__" = acc !! "__proto__".
Proof.
  revert acc. induction c as [|[k0 v0] c IH]; intros acc; simpl; [reflexivity|].
  rewrite IH. destruct v0 as [m0|]; [|reflexivity].
  destruct (String.eqb k0 "__proto__") eqn:E; [reflexivity|].
  apply String.eqb_neq in E. now apply lookup_insert_ne.
Qed.

(** X2.  The object of all movies holds exactly the entries of the cache
    that are not null, under their keys, except for the key [__proto__],
    which never becomes a key of the object; a movie added is in it, and
    after clearing the cache it is empty. *)
Theorem all_movies_of_cache :
  (forall (c : cache) (k : string),
      uniqueKeys c ->
      getAllMovies c !! k =
      if String.eqb k "__proto__" then None else cachedMovie k c) /\
  (forall (c : cache) (k : string) (m : movieInfo),
      uniqueKeys c -> k <> "__proto__" ->
      uniqueKeys (addMovie k m c) /\
      getAllMovies (addMovie k m c) !! k = Some m) /\
  (forall c : cache, getAllMovies (clearCache c) = ∅).
Proof.
  split; [|split].
  - intros c k Hc. unfold getAllMovies.
    destruct (String.eqb k "__proto__") eqn:E.
    + apply String.eqb_eq in E. subst k. rewrite getAllMovies_proto.
      apply lookup_empty.
    + apply String.eqb_neq in E. rewrite (getAllMovies_fold k c ∅ Hc E).
      destruct (cachedMovie k c); [reflexivity | apply lookup_empty].
  - intros c k m Hc Hk.
    assert (Hc' : uniqueKeys (addMovie k m c)) by now apply set_uniqueKeys.
    split; [exact Hc'|].
    unfold getAllMovies. rewrite (getAllMovies_fold k _ ∅ Hc' Hk).
    unfold cachedMovie, addMovie. now rewrite get_set_same.
  - reflexivity.
Qed.

Lemma all_movies_of_cache_witness :
  let m := MovieInfo (Some "tt0133093") (Some "The Matrix") (Some "1999")
                     None None None None None in
  getAllMovies (addMovie "tt0133093" m (set "tt0000000" None [])) !! "tt0133093" =
  Some m.
Proof.
  intros m.
  destruct all_movies_of_cache as (_ & H & _).
  apply (H (set "tt0000000" None []) "tt0133093" m).
  - repeat constructor. intros [].
  - discriminate.
Defined.

Lemma startsWith_refl (s : string) : Js.startsWith s s = true.
Proof. induction s as [|a s IH]; simpl; [reflexivity|]. now rewrite Ascii.eqb_refl. Qed.

Lemma includes_refl (s : string) : Js.includes s s = true.
Proof.
  unfold Js.includes, Js.indexOf.
  destruct s as [|a s]; [reflexivity|].
  unfold Js.indexOfFrom. now rewrite startsWith_refl.
Qed.

(** The entries a search keeps. *)
Lemma search_fold (q : string) (c : cache) (acc : list movieInfo) (m : movieInfo) :
  In m
    (List.fold_left
       (fun results (entry : string * option movieInfo) =>
          match snd entry with
          | Some movieInfo =>
              if Js.truthy (title movieInfo) &&
                 Js.includes (Js.toLowerCase (default EmptyString (title movieInfo)))
                             (Js.toLowerCase q)
              then results ++ [movieInfo] else results
          | None => results
          end) c acc) <->
  In m acc \/
  exists k, In (k, Some m) c /\ titleContains q m = true.
Proof.
  revert acc. induction c as [|[k0 v0] c IH]; intros acc; simpl.
  - split; [tauto | intros [H|(k & [] & _)]; exact H].
  - rewrite IH. clear IH. unfold titleContains.
    split.
    + intros [H|(k & Hk & Ht)]; [|right; exists k; tauto].
      destruct v0 as [m0|]; [|tauto].
      destruct (Js.truthy (title m0) && _) eqn:E; [|tauto].
      apply in_app_or in H. destruct H as [H|[<-|[]]]; [tauto|].
      right. exists k0. split; [now left | exact E].
    + intros [H|(k & [Hk|Hk] & Ht)].
      * left. destruct v0 as [m0|]; [|exact H].
        destruct (Js.truthy (title m0) && _); [|exact H].
        apply in_or_app. now left.
      * inversion Hk; subst. left. simpl. rewrite Ht.
        apply in_or_app. right. now left.
      * right. exists k. tauto.
Qed.

Lemma In_set (k : string) (v : option movieInfo) (c : cache) :
  In (k, v) (set k v c).
Proof.
  induction c as [|[k0 v0] c IH]; simpl; [now left|].
  destruct (String.eqb k0 k); [now left | now right].
Qed.

(** X3.  A search of the cache returns exactly the cached movies with a
    non-empty title that contains the query, letter case aside; so a movie
    added to the cache is found by its own title in any letter case. *)
Theorem search_finds_cached_titles :
  (forall (q : string) (c : cache) (m : movieInfo),
      In m (searchMoviesByTitle q c) <->
      exists k, In (k, Some m) c /\ titleContains q m = true) /\
  (forall (c : cache) (k q t : string) (m : movieInfo),
      title m = Some t -> t <> EmptyString ->
      Js.toLowerCase q = Js.toLowerCase t ->
      In m (searchMoviesByTitle q (addMovie k m c))).
Proof.
  assert (H1 : forall q c m,
             In m (searchMoviesByTitle q c) <->
             exists k, In (k, Some m) c /\ titleContains q m = true).
  { intros q c m. unfold searchMoviesByTitle. rewrite search_fold.
    simpl. tauto. }
  split; [exact H1|].
  intros c k q t m Ht Hne Hq. apply H1. exists k. split; [apply In_set|].
  unfold titleContains. rewrite Ht. simpl. rewrite Hq, includes_refl.
  destruct t; [contradiction | reflexivity].
Qed.

Lemma search_finds_cached_titles_witness :
  let m := MovieInfo (Some "tt0133093") (Some "The Matrix") (Some "1999")
                     None None None None None in
  In m (searchMoviesByTitle "THE MATRIX" (addMovie "tt0133093" m [])).
Proof.
  intros m. destruct search_finds_cached_titles as [_ H].
  apply (H [] "tt0133093" "THE MATRIX" "The Matrix" m);
    [reflexivity | discriminate | reflexivity].
Defined.

End CacheTheorems.

(** ** The GitHub service *)

Section Github.
Import GithubService Props.

Lemma append_not_nil (a b : string) : a <> EmptyString -> a +:+ b <> EmptyString.
Proof. destruct a; [contradiction | discriminate]. Qed.

(** X4.  A repository is accepted exactly when it is an owner and a name,
    both non-empty and without a slash, joined by one slash; a value that
    is not a string is refused. *)
Theorem repo_format :
  (forall repo : string,
      validateRepoFormat (Some repo) = true <->
      exists owner name : string,
        repo = owner +:+ "/" +:+ name /\
        owner <> EmptyString /\ name <> EmptyString /\
        noChar "/" owner = true /\ noChar "/" name = true) /\
  validateRepoFormat None = false.
Proof.
  split; [|reflexivity].
  intros repo. unfold validateRepoFormat. split.
  - destruct (String.eqb repo EmptyString) eqn:Erepo; [discriminate|].
    pose proof (join_split "/" repo) as Hjoin.
    pose proof (split_parts "/" repo) as Hparts.
    destruct (Js.split "/" repo) as [|owner [|name [|x rest]]]; try discriminate.
    intros H. apply andb_prop in H as [Ho Hn].
    exists owner, name.
    inversion Hparts as [|? ? Hpo Hparts']; subst.
    inversion Hparts' as [|? ? Hpn _]; subst.
    split; [reflexivity|].
    split; [intros ->; discriminate|].
    split; [intros ->; discriminate|].
    split; assumption.
  - intros (owner & name & -> & Ho & Hn & Hpo & Hpn).
    assert (E : String.eqb (owner +:+ "/" +:+ name) EmptyString = false).
    { apply String.eqb_neq. now apply append_not_nil. }
    rewrite E.
    change (owner +:+ "/" +:+ name)
      with (Js.join (String "/" EmptyString) [owner; name]).
    rewrite split_join_parts; [|discriminate|now repeat constructor].
    destruct owner; [contradiction|]. destruct name; [contradiction|]. reflexivity.
Qed.

Lemma repo_format_witness :
  validateRepoFormat (Some "OpenSubtitles/opensubtitles-com") = true.
Proof.
  destruct repo_format as [H _]. apply H.
  exists "OpenSubtitles", "opensubtitles-com".
  repeat split; discriminate.
Defined.

Section Listing.

Variable world : Type.
Variable fetch : string -> world -> response * world.

Lemma scanItems_names
    (recur : string -> world -> option (list subtitleFile * world)) :
  (forall path w files w', recur path w = Some (files, w') -> subtitleNames files) ->
  forall data files w out w',
    subtitleNames files ->
    scanItems world recur data files w = Some (out, w') ->
    subtitleNames out.
Proof.
  intros Hrecur. induction data as [|item rest IH]; intros files w out w' Hfiles; simpl.
  - intros [= <- <-]. exact Hfiles.
  - destruct (String.eqb (i_type item) "file" && isSubtitleFile (i_name item)) eqn:E.
    + apply IH. apply andb_prop in E as [_ E].
      apply Forall_app. split; [exact Hfiles|]. now repeat constructor.
    + destruct (String.eqb (i_type item) "dir"); [|now apply IH].
      destruct (recur (i_path item) w) as [[subFiles w1]|] eqn:Er; [|discriminate].
      simpl. apply IH. apply Forall_app. split; [exact Hfiles|].
      exact (Hrecur _ _ _ _ Er).
Qed.

Lemma scanItems_mono
    (recur recur' : string -> world -> option (list subtitleFile * world)) :
  (forall path w r, recur path w = Some r -> recur' path w = Some r) ->
  forall data files w r,
    scanItems world recur data files w = Some r ->
    scanItems world recur' data files w = Some r.
Proof.
  intros Hrecur. induction data as [|item rest IH]; intros files w r; simpl;
    [exact (fun H => H)|].
  destruct (String.eqb (i_type item) "file" && isSubtitleFile (i_name item));
    [apply IH|].
  destruct (String.eqb (i_type item) "dir"); [|apply IH].
  destruct (recur (i_path item) w) as [[subFiles w1]|] eqn:Er; [|discriminate].
  rewrite (Hrecur _ _ _ Er). simpl. apply IH.
Qed.

End Listing.

Lemma fetchGitHubFiles_names (world : Type)
    (fetch : string -> world -> response * world) (fuel : nat)
    (repo path : string) (w w' : world) (files : list subtitleFile) :
  fetchGitHubFiles world fetch fuel repo path w = Some (files, w') ->
  subtitleNames files.
Proof.
  revert path w w' files.
  induction fuel as [|fuel IH]; intros path w w' files; simpl; [discriminate|].
  destruct (fetch (contentsUrl repo path) w) as [[| |data] w1].
  - intros [= <- <-]. constructor.
  - intros [= <- <-]. constructor.
  - apply (scanItems_names world (fetchGitHubFiles world fetch fuel repo)).
    + intros p w0 fs w0'. apply IH.
    + constructor.
Qed.

Lemma fetchGitHubFiles_mono (world : Type)
    (fetch : string -> world -> response * world) (fuel fuel' : nat)
    (repo path : string) (w : world) (r : list subtitleFile * world) :
  (fuel <= fuel')%nat ->
  fetchGitHubFiles world fetch fuel repo path w = Some r ->
  fetchGitHubFiles world fetch fuel' repo path w = Some r.
Proof.
  revert fuel' path w r.
  induction fuel as [|fuel IH]; intros fuel' path w r Hle; simpl; [discriminate|].
  destruct fuel' as [|fuel']; [lia|]. simpl.
  destruct (fetch (contentsUrl repo path) w) as [[| |data] w1];
    try exact (fun H => H).
  apply scanItems_mono. intros p w0 r0. apply IH. lia.
Qed.

(** X5.  Whatever the contents API answers, a listing that comes back
    holds subtitle files only: every name in it ends in one of the
    subtitle extensions.  The depth bound of the model does not change a
    listing: what comes back within some depth comes back with any larger
    one. *)
Theorem listing_holds_subtitle_files (world : Type)
    (fetch : string -> world -> response * world) :
  (forall (fuel : nat) (repo path : string) (w w' : world)
          (files : list subtitleFile),
      fetchGitHubFiles world fetch fuel repo path w = Some (files, w') ->
      Forall (fun f => isSubtitleFile (FuzzyMatcher.name (sf_file f)) = true)
             files) /\
  (forall (fuel fuel' : nat) (repo path : string) (w : world)
          (r : list subtitleFile * world),
      (fuel <= fuel')%nat ->
      fetchGitHubFiles world fetch fuel repo path w = Some r ->
      fetchGitHubFiles world fetch fuel' repo path w = Some r).
Proof.
  split.
  - intros fuel repo path w w' files. apply fetchGitHubFiles_names.
  - intros fuel fuel' repo path w r. apply fetchGitHubFiles_mono.
Qed.

Lemma listing_holds_subtitle_files_witness :
  let file := fun n => Item n n "file" n 0 "sha" in
  let fetch := fun (url : string) (requests : nat) =>
    (if String.eqb url (contentsUrl "owner/repo" "subs")
     then Listing [file "subs/a.srt"; Item "more" "subs/more" "dir" EmptyString 0 "sha";
                   file "subs/README.md"]
     else if String.eqb url (contentsUrl "owner/repo" "subs/more")
     then Listing [file "subs/more/b.VTT"]
     else Failed, S requests) in
  exists files,
    fetchGitHubFiles nat fetch 2 "owner/repo" "subs" 0%nat = Some (files, 2%nat) /\
    List.map (fun f => FuzzyMatcher.name (sf_file f)) files =
      ["subs/a.srt"; "subs/more/b.VTT"] /\
    Forall (fun f => isSubtitleFile (FuzzyMatcher.name (sf_file f)) = true) files /\
    fetchGitHubFiles nat fetch 5 "owner/repo" "subs" 0%nat = Some (files, 2%nat).
Proof.
  intros file fetch.
  destruct (fetchGitHubFiles nat fetch 2 "owner/repo" "subs" 0%nat)
    as [[files w']|] eqn:E; [|vm_compute in E; discriminate].
  assert (Hw : w' = 2%nat) by (vm_compute in E; now inversion E).
  subst w'. exists files.
  destruct (listing_holds_subtitle_files nat fetch) as [Hnames Hmono].
  split; [reflexivity|]. split; [vm_compute in E; now inversion E|].
  split; [exact (Hnames _ _ _ _ _ _ E)|].
  apply (Hmono 2%nat 5%nat); [lia | exact E].
Defined.

End Github.

(** ** The file name parser *)

Section Languages.
Import SubtitleParser Props.

Lemma find_agree {A : Type} (f g : A -> bool) (l : list A) :
  (forall x, In x l -> f x = g x) -> List.find f l = List.find g l.
Proof.
  induction l as [|a l IH]; intros H; simpl; [reflexivity|].
  rewrite (H a (or_introl eq_refl)).
  destruct (g a); [reflexivity|].
  apply IH. intros x Hx. apply H. now right.
Qed.

Lemma find_all_false {A : Type} (f : A -> bool) (l : list A) :
  (forall x, In x l -> f x = false) -> List.find f l = None.
Proof.
  induction l as [|a l IH]; intros H; simpl; [reflexivity|].
  rewrite (H a (or_introl eq_refl)). apply IH. intros x Hx. apply H. now right.
Qed.

Lemma fold_left_agree {A B : Type} (f g : A -> B -> A) (l : list B) (a : A) :
  (forall a b, f a b = g a b) -> List.fold_left f l a = List.fold_left g l a.
Proof.
  intros H. revert a. induction l as [|b l IH]; intros a; simpl; [reflexivity|].
  now rewrite H, IH.
Qed.

Lemma top_priority_exists (l : list (string * string * Z)) (e0 : string * string * Z) :
  In e0 l ->
  exists e, In e l /\ (snd e0 <= snd e)%Z /\
            forallb (fun e' : string * string * Z => (snd e' <=? snd e)%Z) l = true.
Proof.
  revert e0. induction l as [|a l IH]; intros e0; [intros []|].
  assert (Hl : l = [] \/ exists e, In e l /\
                 forallb (fun e' : string * string * Z => (snd e' <=? snd e)%Z) l = true).
  { destruct l as [|b l']; [now left|]. right.
    destruct (IH b (or_introl eq_refl)) as (e & He & _ & Hmax). now exists e. }
  intros Hin.
  assert (Hgen : exists e, In e (a :: l) /\
            forallb (fun e' : string * string * Z => (snd e' <=? snd e)%Z) (a :: l) = true).
  { destruct Hl as [->|(e & He & Hmax)].
    - exists a. split; [now left|]. simpl. now rewrite Z.leb_refl.
    - destruct (snd a <=? snd e)%Z eqn:Hae.
      + exists e. split; [now right|]. simpl. now rewrite Hae.
      + exists a. split; [now left|]. simpl. rewrite Z.leb_refl. simpl.
        apply forallb_forall. intros x Hx.
        rewrite forallb_forall in Hmax. specialize (Hmax x Hx).
        apply Z.leb_le in Hmax. apply Z.leb_gt in Hae. apply Z.leb_le. lia. }
  destruct Hgen as (e & He & Hmax). exists e. split; [exact He|]. split; [|exact Hmax].
  rewrite forallb_forall in Hmax. apply Z.leb_le. now apply Hmax.
Qed.

(** The loop of [detectLanguage], for any test in place of the patterns:
    it ends on the first entry of highest priority among those that pass
    and exceed the initial priority. *)
Lemma best_fold (p : string * string * Z -> bool) (l : list (string * string * Z))
    (acc : string * Z) :
  List.fold_left
    (fun (best : string * Z) (e : string * string * Z) =>
       if p e && (snd best <? snd e)%Z then (snd (fst e), snd e) else best)
    l acc =
  match
    List.find
      (fun e => (snd acc <? snd e)%Z &&
                forallb (fun e' : string * string * Z => (snd e' <=? snd e)%Z)
                        (List.filter p l))
      (List.filter p l)
  with
  | Some e => (snd (fst e), snd e)
  | None => acc
  end.
Proof.
  revert acc. induction l as [|x l IH]; intros acc; [reflexivity|].
  cbn [List.fold_left List.filter]. rewrite IH. clear IH.
  destruct (p x) eqn:Hp; cbn [andb]; [|reflexivity].
  cbn [List.find forallb].
  replace (snd x <=? snd x)%Z with true by (symmetry; apply Z.leb_refl).
  cbn [andb].
  destruct (snd acc <? snd x)%Z eqn:Hlt; cbn [andb snd].
  - destruct (forallb (fun e' => (snd e' <=? snd x)%Z) (List.filter p l)) eqn:Hall.
    + (* [x] is a maximum: nothing later exceeds it *)
      rewrite find_all_false; [reflexivity|].
      intros e He. rewrite forallb_forall in Hall. specialize (Hall e He).
      apply andb_false_iff. left. apply Z.ltb_ge. now apply Z.leb_le.
    + (* some later entry exceeds [x]: the maxima lie among the later ones *)
      assert (Hex : exists e', In e' (List.filter p l) /\ (snd x < snd e')%Z).
      { apply not_true_iff_false in Hall.
        destruct (existsb (fun e' => (snd x <? snd e')%Z) (List.filter p l)) eqn:Hex.
        - apply existsb_exists in Hex as (e' & He' & Hlt').
          exists e'. split; [exact He' | now apply Z.ltb_lt].
        - exfalso. apply Hall. apply forallb_forall. intros e He.
          apply Z.leb_le. apply Z.nlt_ge. intros Hlt'.
          assert (existsb (fun e' => (snd x <? snd e')%Z) (List.filter p l) = true)
            as Habs; [|congruence].
          apply existsb_exists. exists e. split; [exact He | now apply Z.ltb_lt]. }
      destruct Hex as (e' & He' & Hlt').
      apply Z.ltb_lt in Hlt.
      rewrite (find_agree
                 (fun e => (snd acc <? snd e)%Z &&
                           ((snd x <=? snd e)%Z &&
                            forallb (fun e'0 => (snd e'0 <=? snd e)%Z) (List.filter p l)))
                 (fun e => (snd x <? snd e)%Z &&
                           forallb (fun e'0 => (snd e'0 <=? snd e)%Z) (List.filter p l))).
      2:{ intros e He.
          destruct (forallb (fun e'0 => (snd e'0 <=? snd e)%Z) (List.filter p l)) eqn:Hmax;
            rewrite ?andb_false_r, ?andb_true_r; [|reflexivity].
          rewrite forallb_forall in Hmax. specialize (Hmax e' He').
          apply Z.leb_le in Hmax.
          replace (snd x <? snd e)%Z with true by (symmetry; apply Z.ltb_lt; lia).
          replace (snd acc <? snd e)%Z with true by (symmetry; apply Z.ltb_lt; lia).
          replace (snd x <=? snd e)%Z with true by (symmetry; apply Z.leb_le; lia).
          reflexivity. }
      destruct (List.find _ (List.filter p l)) as [e|] eqn:Efind; [reflexivity|].
      exfalso.
      destruct (top_priority_exists _ _ He') as (em & Hem & Hle & Hmax).
      pose proof (find_none _ _ Efind em Hem) as Hnone. cbv beta in Hnone.
      rewrite Hmax, andb_true_r in Hnone. apply Z.ltb_ge in Hnone. lia.
  - match goal with
    | |- match List.find ?f ?l with _ => _ end =
         match List.find ?g _ with _ => _ end =>
        rewrite (find_agree f g l); [reflexivity|]
    end.
    intros e He.
    destruct (snd acc <? snd e)%Z eqn:Hlt'; cbn [andb]; [|reflexivity].
    apply Z.ltb_ge in Hlt. apply Z.ltb_lt in Hlt'.
    replace (snd x <=? snd e)%Z with true by (symmetry; apply Z.leb_le; lia).
    reflexivity.
Qed.

Lemma detectLanguage_fold (filenameLC : string) :
  List.fold_left (betterMatch filenameLC) languagePatterns ("other", 0%Z) =
  match firstOfTopPriority (matchingLanguages filenameLC) with
  | Some e => (snd (fst e), snd e)
  | None => ("other", 0%Z)
  end.
Proof.
  unfold firstOfTopPriority, matchingLanguages.
  set (p := fun e : string * string * Z =>
              RegExp.test (RegExp.lit (fst (fst e)) true) filenameLC).
  transitivity
    (List.fold_left
       (fun (best : string * Z) (e : string * string * Z) =>
          if p e && (snd best <? snd e)%Z then (snd (fst e), snd e) else best)
       languagePatterns ("other", 0%Z)).
  { apply fold_left_agree. intros best [[pattern code] priority]. reflexivity. }
  rewrite best_fold.
  match goal with
  | |- match List.find ?f ?l with _ => _ end =
       match List.find ?g _ with _ => _ end =>
      rewrite (find_agree f g l); [reflexivity|]
  end.
  intros e He. apply filter_In in He as [He _].
  replace (snd ("other", 0%Z) <? snd e)%Z with true; [reflexivity|].
  symmetry. revert e He. apply forallb_forall. reflexivity.
Qed.

Lemma detectLanguage_eq (basename : string) :
  detectLanguage basename =
  if RegExp.test (RegExp.lit "\b(multi|dual)\b" true) (Js.toLowerCase basename)
  then "multi"
  else match firstOfTopPriority (matchingLanguages (Js.toLowerCase basename)) with
       | Some e => snd (fst e)
       | None => "other"
       end.
Proof.
  unfold detectLanguage. rewrite detectLanguage_fold.
  destruct (RegExp.test _ _); [reflexivity|].
  now destruct (firstOfTopPriority _).
Qed.

(** X6.  The language of a file name is [multi] when the name carries the
    word multi or dual; otherwise it is the code of the first pattern of
    the table among the matching patterns of highest priority, and
    [other] when no pattern matches. *)
Theorem language_by_priority (basename : string) :
  detectLanguage basename =
  if RegExp.test (RegExp.lit "\b(multi|dual)\b" true) (Js.toLowerCase basename)
  then "multi"
  else match firstOfTopPriority (matchingLanguages (Js.toLowerCase basename)) with
       | Some e => snd (fst e)
       | None => "other"
       end.
Proof. exact (detectLanguage_eq basename). Qed.

Lemma firstOfTopPriority_In (entries : list (string * string * Z))
    (e : string * string * Z) :
  firstOfTopPriority entries = Some e -> In e entries.
Proof. unfold firstOfTopPriority. intros E. now apply find_some in E. Qed.

Lemma matchingLanguages_eq (filenameLC : string) :
  matchingLanguages filenameLC =
  List.filter (fun e : string * string * Z =>
                 RegExp.test (RegExp.lit (fst (fst e)) true) filenameLC)
              languagePatterns.
Proof. reflexivity. Qed.

Lemma matchingLanguages_In (filenameLC : string) (e : string * string * Z) :
  In e (matchingLanguages filenameLC) -> In e languagePatterns.
Proof. rewrite matchingLanguages_eq. intros H. apply filter_In in H. tauto. Qed.

Lemma languageCodes_pattern (e : string * string * Z) :
  In e languagePatterns -> In (snd (fst e)) languageCodes.
Proof.
  intros E. right. right. apply in_map_iff. exists e. split; [reflexivity | exact E].
Qed.

Lemma languageCodes_named :
  List.Forall
    (fun code =>
       exists name : string,
         languageMap !! code = Some name /\ name <> EmptyString /\
         getLanguageName code = Name name) languageCodes.
Proof.
  unfold languageCodes, languagePatterns. cbn [List.map fst snd].
  repeat (apply List.Forall_cons;
          [eexists; split; [vm_compute; reflexivity|];
           split; [discriminate | vm_compute; reflexivity]|]).
  apply List.Forall_nil.
Qed.

(** X7.  Every language that the parser detects has a display name of its
    own in the table of language names: the lookup never falls back to the
    code itself, nor to a value inherited from the prototype of the
    table. *)
Theorem detected_language_has_name (basename : string) :
  In (detectLanguage basename) languageCodes /\
  exists name : string,
    languageMap !! detectLanguage basename = Some name /\
    name <> EmptyString /\
    getLanguageName (detectLanguage basename) = Name name.
Proof.
  assert (Hin : In (detectLanguage basename) languageCodes).
  { rewrite detectLanguage_eq.
    destruct (RegExp.test _ _); [now left|].
    destruct (firstOfTopPriority _) as [e|] eqn:E; [|right; now left].
    apply languageCodes_pattern.
    apply firstOfTopPriority_In in E.
    exact (matchingLanguages_In _ _ E). }
  split; [exact Hin|].
  pose proof languageCodes_named as Hall.
  rewrite List.Forall_forall in Hall. exact (Hall _ Hin).
Qed.

End Languages.

(** ** Scores and methods of the matcher *)

Section Engine.
Import FuzzyMatcher Spec Props.
Local Open Scope Q_scope.

Lemma Qmax_bounds (x : Q) : 0 <= Qmax 0 (Qmin 1 x) <= 1.
Proof.
  unfold Qmax, Qmin.
  destruct (Qle_bool 1 x) eqn:E1.
  - change (Qle_bool 0 1) with true. cbv iota. lra.
  - destruct (Qle_bool 0 x) eqn:E2.
    + apply Qle_bool_iff in E2.
      assert (~ 1 <= x) by (rewrite <- Qle_bool_iff; congruence). lra.
    + lra.
Qed.

Lemma fuzzyImdb_result (numericId : string) (idMatches : list string)
    (r : matchResult) :
  fuzzyImdb numericId idMatches = Some r ->
  unitScore r /\ In (method r) identifierMethods.
Proof.
  unfold unitScore. induction idMatches as [|m rest IH]; simpl; [discriminate|].
  pose proof (levSim_bounds m numericId) as Hsim.
  destruct (_ && Qle_bool _ _).
  { intros [= <-]. simpl. split; [lra|]. right. now left. }
  destruct (_ && Js.includes m numericId).
  { intros [= <-]. simpl. split; [lra|]. do 2 right. now left. }
  destruct (_ && Js.includes numericId m).
  { intros [= <-]. simpl. split; [lra|]. do 3 right. now left. }
  exact IH.
Qed.

Lemma matchesImdbId_result (filename imdbId : string) (r : matchResult) :
  matchesImdbId filename imdbId = Ok r ->
  unitScore r /\ In (method r) identifierMethods.
Proof.
  unfold matchesImdbId, unitScore.
  match goal with
  | |- (mapM ?f ?l ≫= _) = _ -> _ => destruct (mapM f l) as [directPatterns|]
  end; cbn [mbind result_bind]; [|discriminate].
  destruct (firstMatching directPatterns _).
  { intros [= <-]. simpl. split; [lra | now left]. }
  destruct (match RegExp.matchAll _ _ with Some _ => _ | None => _ end)
    as [r0|] eqn:Efuzzy.
  { intros [= <-].
    destruct (RegExp.matchAll _ _) as [idMatches|]; [|discriminate].
    exact (fuzzyImdb_result _ _ _ Efuzzy). }
  match goal with
  | |- (mapM ?f ?l ≫= _) = _ -> _ => destruct (mapM f l) as [separatorPatterns|]
  end; cbn [mbind result_bind]; [|discriminate].
  destruct (firstMatching separatorPatterns _); intros [= <-]; simpl.
  - split; [lra|]. do 4 right. now left.
  - split; [lra|]. do 5 right. now left.
Qed.

Lemma fuzzyEpisode_result (season episode : Js.num) (numberMatches : list string)
    (r : matchResult) :
  fuzzyEpisode season episode numberMatches = Some r ->
  unitScore r /\ In (method r) episodeMethods.
Proof.
  unfold unitScore. revert r.
  induction numberMatches as [|a rest IH]; intros r; [discriminate|].
  destruct rest as [|b rest']; [discriminate|].
  cbn [fuzzyEpisode].
  destruct (_ && Js.numEq (Js.parseInt b) episode).
  { intros [= <-]. simpl. split; [lra|]. right. now left. }
  destruct (_ && Js.numEq _ (Some 1%Z)).
  { intros [= <-]. simpl. split; [lra|]. do 2 right. now left. }
  destruct (Js.numEq (Js.parseInt a) season).
  { intros [= <-]. simpl. split; [lra|]. do 3 right. now left. }
  apply IH.
Qed.

Lemma matchesEpisode_result (filename : string) (season episode : Js.num)
    (r : matchResult) :
  matchesEpisode filename season episode = Ok r ->
  unitScore r /\ In (method r) episodeMethods.
Proof.
  unfold matchesEpisode, unitScore.
  destruct (exactPatterns season episode) as [patterns|];
    cbn [mbind result_bind]; [|discriminate].
  destruct (firstMatching patterns _).
  { intros [= <-]. simpl. split; [lra | now left]. }
  destruct (RegExp.matchAll _ _) as [ms|].
  - destruct (2 <=? List.length ms)%nat.
    + destruct (fuzzyEpisode season episode ms) as [r0|] eqn:Efuzzy.
      { intros [= <-]. exact (fuzzyEpisode_result _ _ _ _ Efuzzy). }
      destruct (Js.numEq season (Some 1%Z) && _).
      { intros [= <-]. simpl. split; [lra|]. do 4 right. now left. }
      destruct (RegExp.new _ _) as [multiSeasonPattern|];
        cbn [mbind result_bind]; [|discriminate].
      destruct (RegExp.test _ _); intros [= <-]; simpl.
      * split; [lra|]. do 5 right. now left.
      * split; [lra|]. do 6 right. now left.
    + destruct (Js.numEq season (Some 1%Z) && _).
      { intros [= <-]. simpl. split; [lra|]. do 4 right. now left. }
      destruct (RegExp.new _ _) as [multiSeasonPattern|];
        cbn [mbind result_bind]; [|discriminate].
      destruct (RegExp.test _ _); intros [= <-]; simpl.
      * split; [lra|]. do 5 right. now left.
      * split; [lra|]. do 6 right. now left.
  - destruct (Js.numEq season (Some 1%Z) && false).
    { intros [= <-]. simpl. split; [lra|]. do 4 right. now left. }
    destruct (RegExp.new _ _) as [multiSeasonPattern|];
      cbn [mbind result_bind]; [|discriminate].
    destruct (RegExp.test _ _); intros [= <-]; simpl.
    * split; [lra|]. do 5 right. now left.
    * split; [lra|]. do 6 right. now left.
Qed.

Lemma matchesByTitle_result (filename targetTitle : string)
    (targetYear : option string) (threshold : Q) :
  unitScore (matchesByTitle filename targetTitle targetYear threshold) /\
  In (method (matchesByTitle filename targetTitle targetYear threshold)) titleMethods.
Proof.
  unfold matchesByTitle, unitScore.
  destruct (String.eqb (extractTitle filename) EmptyString).
  { simpl. split; [lra | now left]. }
  destruct (yearAdjustment targetYear (extractYear filename)) as [yearBonus yearPenalty].
  match goal with
  | |- context [Qmax 0 (Qmin 1 ?x)] =>
      pose proof (Qmax_bounds x) as Hclamp; set (finalScore := Qmax 0 (Qmin 1 x)) in *
  end.
  destruct (Qltb threshold finalScore).
  - destruct (RegExp.test _ filename);
      destruct (_ && Qltb _ (9 # 10));
      match goal with
      | |- context [Qle_bool threshold ?v] => destruct (Qle_bool threshold v)
      end; simpl; (split; [lra|]); auto.
  - destruct (Qle_bool threshold finalScore); simpl; (split; [lra|]); auto.
Qed.

Lemma analyzeFilename_result (filename : string) (targetTitle targetYear : option string) :
  unitScore (analyzeFilename filename targetTitle targetYear) /\
  method (analyzeFilename filename targetTitle targetYear) = "filename_analysis".
Proof.
  unfold analyzeFilename, unitScore. cbn [score method mk].
  split; [apply Qmax_bounds | reflexivity].
Qed.

End Engine.

Section Combinations.
Import FuzzyMatcher Spec Props.
Local Open Scope Q_scope.

Lemma Ok_inj {A : Type} (a b : A) : Ok a = Ok b -> a = b.
Proof. now intros [= ->]. Qed.

Lemma sumQ_acc (l : list Q) (a : Q) :
  List.fold_left Qplus l a == a + List.fold_left Qplus l 0.
Proof.
  revert a. induction l as [|x l IH]; intros a; simpl; [ring|].
  rewrite (IH (a + x)), (IH (0 + x)). ring.
Qed.

Lemma sumQ_cons (x : Q) (l : list Q) : sumQ (x :: l) == x + sumQ l.
Proof. unfold sumQ. simpl. rewrite sumQ_acc. ring. Qed.

(** A weighted sum of scores is at most the bound of the scores times the
    sum of the weights. *)
Lemma weighted_sum_le (strategies : list strategy) (M : Q) :
  (forall s, In s strategies -> 0 <= weight s /\ s_score s <= M) ->
  sumQ (List.map (fun s => s_score s * weight s) strategies) <=
  M * sumQ (List.map weight strategies).
Proof.
  induction strategies as [|s l IH]; intros H.
  - unfold sumQ. simpl. lra.
  - cbn [List.map]. rewrite !sumQ_cons.
    destruct (H s (or_introl eq_refl)) as [Hw Hs].
    assert (Hl : sumQ (List.map (fun s => s_score s * weight s) l) <=
                 M * sumQ (List.map weight l)).
    { apply IH. intros s' Hs'. apply H. now right. }
    assert (Hsw : s_score s * weight s <= M * weight s)
      by (apply Qmult_le_compat_r; assumption).
    lra.
Qed.

(** [reduce] keeps a strategy of the list whose score none exceeds. *)
Lemma bestOf_max (rest : list strategy) (first : strategy) :
  In (bestOf rest first) (first :: rest) /\
  forall s, In s (first :: rest) -> s_score s <= s_score (bestOf rest first).
Proof.
  unfold bestOf. revert first.
  induction rest as [|x rest IH]; intros first; simpl.
  - split; [now left|]. intros s [<-|[]]. lra.
  - destruct (Qltb (s_score first) (s_score x)) eqn:E.
    + apply Qltb_lt in E. destruct (IH x) as [Hin Hmax]. split.
      * right. exact Hin.
      * intros s [<-|Hs]; [|now apply Hmax].
        specialize (Hmax x (or_introl eq_refl)). lra.
    + apply Qltb_ge in E. destruct (IH first) as [Hin Hmax]. split.
      * destruct Hin as [<-|Hin]; [now left | right; now right].
      * intros s [<-|[<-|Hs]].
        -- apply Hmax. now left.
        -- specialize (Hmax first (or_introl eq_refl)). lra.
        -- apply Hmax. now right.
Qed.

(** With weights that are not negative the combined score never exceeds
    the best score, so the combination is the best strategy. *)
Lemma combineMovie_best (first : strategy) (rest : list strategy) :
  (forall s, In s (first :: rest) -> 0 <= weight s) ->
  0 < sumQ (List.map weight (first :: rest)) ->
  combineMovie (first :: rest) = s_result (bestOf rest first).
Proof.
  intros Hw Htotal. unfold combineMovie.
  destruct (1 <? _)%nat; [|reflexivity].
  destruct (bestOf_max rest first) as [_ Hmax].
  set (best := bestOf rest first) in *.
  set (strategies := first :: rest) in *.
  assert (Hle : sumQ (List.map (fun s => s_score s * weight s) strategies) /
                sumQ (List.map weight strategies) <= score (s_result best)).
  { apply Qle_shift_div_r; [exact Htotal|].
    apply weighted_sum_le. intros s Hs. split; [now apply Hw | now apply Hmax]. }
  apply Qltb_ge in Hle. now rewrite Hle.
Qed.

Lemma movieStrategies_weights (imdbMatch : matchResult) (filename : string)
    (targetTitle targetYear : option string) :
  (forall s, In s (movieStrategies imdbMatch filename targetTitle targetYear) ->
             0 <= weight s) /\
  0 < sumQ (List.map weight
              (movieStrategies imdbMatch filename targetTitle targetYear)).
Proof.
  unfold movieStrategies.
  destruct (Js.truthy targetTitle); cbn [app List.map weight].
  - split; [|reflexivity].
    intros s [<-|[<-|[<-|[]]]]; discriminate.
  - split; [|reflexivity].
    intros s [<-|[<-|[]]]; discriminate.
Qed.

Lemma movieStrategies_results (imdbMatch : matchResult) (filename : string)
    (targetTitle targetYear : option string) (s : strategy) :
  In s (movieStrategies imdbMatch filename targetTitle targetYear) ->
  s_result s = imdbMatch \/
  (exists title, s_result s = matchesByTitle filename title targetYear (5 # 10)) \/
  s_result s = analyzeFilename filename targetTitle targetYear.
Proof.
  unfold movieStrategies.
  destruct (Js.truthy targetTitle); cbn [app].
  - intros [<-|[<-|[<-|[]]]]; cbn [s_result]; eauto.
  - intros [<-|[<-|[]]]; cbn [s_result]; eauto.
Qed.

Lemma movieStrategies_cons (imdbMatch : matchResult) (filename : string)
    (targetTitle targetYear : option string) :
  exists rest,
    movieStrategies imdbMatch filename targetTitle targetYear =
    Strategy imdbMatch "imdb" (7 # 10) :: rest.
Proof. unfold movieStrategies. cbn [app]. eauto. Qed.

Lemma combineMovie_movieStrategies (imdbMatch : matchResult) (filename : string)
    (targetTitle targetYear : option string) :
  exists s,
    In s (movieStrategies imdbMatch filename targetTitle targetYear) /\
    combineMovie (movieStrategies imdbMatch filename targetTitle targetYear) =
    s_result s.
Proof.
  destruct (movieStrategies_weights imdbMatch filename targetTitle targetYear)
    as [Hw Htotal].
  destruct (movieStrategies_cons imdbMatch filename targetTitle targetYear)
    as (rest & E).
  rewrite E in *.
  exists (bestOf rest (Strategy imdbMatch "imdb" (7 # 10))). split.
  - apply bestOf_max.
  - now apply combineMovie_best.
Qed.

(** X8.  The combination of the movie strategies never changes the
    outcome: with weights that are not negative the weighted average
    cannot exceed the best score, so the result of a movie is always the
    result of its best single strategy, the first one in case of a tie,
    and no file is ever ranked with the method [multi_strategy]. *)
Theorem movie_result_is_best_strategy :
  (forall (first : strategy) (rest : list strategy),
      (forall s, In s (first :: rest) -> 0 <= weight s) ->
      0 < sumQ (List.map weight (first :: rest)) ->
      combineMovie (first :: rest) = s_result (bestOf rest first) /\
      In (bestOf rest first) (first :: rest) /\
      forall s, In s (first :: rest) ->
                s_score s <= score (combineMovie (first :: rest))) /\
  (forall (id : string) (targetTitle targetYear : option string) (f : file)
          (r : matchResult),
      matchFile "movie" id targetTitle targetYear f = Ok r ->
      In (method r) movieMethods /\ method r <> "multi_strategy").
Proof.
  split.
  - intros first rest Hw Htotal.
    rewrite (combineMovie_best first rest Hw Htotal).
    destruct (bestOf_max rest first) as [Hin Hmax]. auto.
  - intros id targetTitle targetYear f r.
    unfold matchFile. change (String.eqb "movie" "movie") with true. cbv iota.
    destruct (matchesImdbId (name f) id) as [imdbMatch|] eqn:Himdb;
      cbn [mbind result_bind]; [|discriminate].
    intros Hr. apply Ok_inj in Hr. subst r.
    destruct (combineMovie_movieStrategies imdbMatch (name f) targetTitle targetYear)
      as (s & Hs & ->).
    assert (Hin : In (method (s_result s)) movieMethods).
    { destruct (movieStrategies_results _ _ _ _ _ Hs) as [->|[(title & ->)| ->]].
      - destruct (matchesImdbId_result _ _ _ Himdb) as [_ Hm].
        unfold movieMethods. apply in_or_app. now left.
      - destruct (matchesByTitle_result (name f) title targetYear (5 # 10)) as [_ Hm].
        unfold movieMethods. apply in_or_app. right. apply in_or_app. now left.
      - destruct (analyzeFilename_result (name f) targetTitle targetYear) as [_ ->].
        unfold movieMethods. apply in_or_app. right. apply in_or_app. right. now left. }
    split; [exact Hin|].
    intros Heq. rewrite Heq in Hin.
    repeat (destruct Hin as [Hin|Hin]; [discriminate|]). exact Hin.
Qed.

Lemma movie_result_is_best_strategy_witness :
  exists r,
    matchFile "movie" "tt0133093" (Some "The Matrix") (Some "1999")
              (fileNamed "The.Matrix.1999.tt0133093.srt") = Ok r /\
    method r <> "multi_strategy".
Proof.
  destruct (matchFile "movie" "tt0133093" (Some "The Matrix") (Some "1999")
                      (fileNamed "The.Matrix.1999.tt0133093.srt")) as [r|] eqn:E;
    [|vm_compute in E; discriminate].
  exists r. split; [reflexivity|].
  destruct movie_result_is_best_strategy as [_ H].
  exact (proj2 (H _ _ _ _ _ E)).
Defined.

Lemma combineSeries_cases (e i : matchResult) :
  (0 < score e /\ 0 < score i /\
   combineSeries e i =
   mk (score e * (7 # 10) + score i * (3 # 10)) "series_combined") \/
  combineSeries e i = e \/ combineSeries e i = i.
Proof.
  unfold combineSeries.
  destruct (Qltb 0 (score e)) eqn:He; destruct (Qltb 0 (score i)) eqn:Hi;
    cbn [andb];
    try (left; apply Qltb_lt in He, Hi; now repeat split);
    destruct (Qltb (6 # 10) (score e)) eqn:H6; auto;
    destruct (Qltb (7 # 10) (score i)) eqn:H7;
    destruct (Qltb (2 # 10) (score e)) eqn:H2; cbn [andb];
    try (destruct (Qltb (score i) (score e)); now auto);
    exfalso;
    rewrite ?Qltb_lt, ?Qltb_ge in *; lra.
Qed.

Lemma matchFile_series (id : string) (targetTitle targetYear : option string)
    (f : file) (r : matchResult) :
  matchFile "series" id targetTitle targetYear f = Ok r ->
  (exists e i s1 s2 imdbId,
      matchesEpisode (name f) s1 s2 = Ok e /\
      matchesImdbId (name f) imdbId = Ok i /\ r = combineSeries e i) \/
  (exists imdbId, matchesImdbId (name f) imdbId = Ok r).
Proof.
  unfold matchFile.
  change (String.eqb "series" "movie") with false.
  change (String.eqb "series" "series") with true. cbv iota.
  destruct (Js.truthy _ && Js.truthy _); [|eauto].
  destruct (matchesEpisode _ _ _) as [e|] eqn:He; cbn [mbind result_bind];
    [|discriminate].
  destruct (matchesImdbId _ _) as [i|] eqn:Hi; cbn [mbind result_bind];
    [|discriminate].
  intros Hr. apply Ok_inj in Hr. left. eauto 10.
Qed.

(** X9.  The result of a series candidate is the combination
    [series_combined] of the episode and the identifier result, or one of
    the two as it is: the branch that weights the identifier at 0.6 asks
    for an identifier score above 0.7 and an episode score above 0.2,
    which the first branch has already taken, so no file is ever ranked
    with the method [series_imdb_weighted]. *)
Theorem series_result_methods :
  (forall e i : matchResult,
      (0 < score e /\ 0 < score i /\
       combineSeries e i =
       mk (score e * (7 # 10) + score i * (3 # 10)) "series_combined") \/
      combineSeries e i = e \/ combineSeries e i = i) /\
  (forall (id : string) (targetTitle targetYear : option string) (f : file)
          (r : matchResult),
      matchFile "series" id targetTitle targetYear f = Ok r ->
      In (method r) seriesMethods /\ method r <> "series_imdb_weighted").
Proof.
  split; [exact combineSeries_cases|].
  intros id targetTitle targetYear f r Hr.
  assert (Hin : In (method r) seriesMethods).
  { destruct (matchFile_series _ _ _ _ _ Hr)
      as [(e & i & s1 & s2 & imdbId & He & Hi & ->)|(imdbId & Hi)].
    - destruct (matchesEpisode_result _ _ _ _ He) as [_ Hme].
      destruct (matchesImdbId_result _ _ _ Hi) as [_ Hmi].
      destruct (combineSeries_cases e i) as [(_ & _ & ->)|[->| ->]].
      + now left.
      + right. apply in_or_app. now left.
      + right. apply in_or_app. now right.
    - destruct (matchesImdbId_result _ _ _ Hi) as [_ Hmi].
      right. apply in_or_app. now right. }
  split; [exact Hin|].
  intros Heq. rewrite Heq in Hin.
  repeat (destruct Hin as [Hin|Hin]; [discriminate|]). exact Hin.
Qed.

Lemma series_result_methods_witness :
  exists r,
    matchFile "series" "tt0903747:1:2" None None
              (fileNamed "tt0903747.S01E02.srt") = Ok r /\
    method r <> "series_imdb_weighted".
Proof.
  destruct (matchFile "series" "tt0903747:1:2" None None
                      (fileNamed "tt0903747.S01E02.srt")) as [r|] eqn:E;
    [|vm_compute in E; discriminate].
  exists r. split; [reflexivity|].
  destruct series_result_methods as [_ H].
  exact (proj2 (H _ _ _ _ _ E)).
Defined.

Lemma matchFile_unit (type id : string) (targetTitle targetYear : option string)
    (f : file) (r : matchResult) :
  matchFile type id targetTitle targetYear f = Ok r -> unitScore r.
Proof.
  destruct (String.eqb type "movie") eqn:Emovie.
  - apply String.eqb_eq in Emovie. subst type.
    unfold matchFile. change (String.eqb "movie" "movie") with true. cbv iota.
    destruct (matchesImdbId (name f) id) as [imdbMatch|] eqn:Himdb;
      cbn [mbind result_bind]; [|discriminate].
    intros Hr. apply Ok_inj in Hr. subst r.
    destruct (combineMovie_movieStrategies imdbMatch (name f) targetTitle targetYear)
      as (s & Hs & ->).
    destruct (movieStrategies_results _ _ _ _ _ Hs) as [->|[(title & ->)| ->]].
    + exact (proj1 (matchesImdbId_result _ _ _ Himdb)).
    + exact (proj1 (matchesByTitle_result _ _ _ _)).
    + exact (proj1 (analyzeFilename_result _ _ _)).
  - destruct (String.eqb type "series") eqn:Eseries.
    + apply String.eqb_eq in Eseries. subst type. intros Hr.
      destruct (matchFile_series _ _ _ _ _ Hr)
        as [(e & i & s1 & s2 & imdbId & He & Hi & ->)|(imdbId & Hi)].
      * destruct (matchesEpisode_result _ _ _ _ He) as [Hue _].
        destruct (matchesImdbId_result _ _ _ Hi) as [Hui _].
        destruct (combineSeries_cases e i) as [(_ & _ & ->)|[->| ->]];
          [|assumption..].
        unfold unitScore in *. cbn [score mk]. lra.
      * exact (proj1 (matchesImdbId_result _ _ _ Hi)).
    + unfold matchFile. rewrite Emovie, Eseries.
      intros Hr. apply Ok_inj in Hr. subst r. unfold unitScore. cbn. lra.
Qed.

Lemma collect_complete (type id : string) (targetTitle targetYear : option string)
    (minScore : Q) (files : list file) (matches : list ranked) (f : file)
    (m : matchResult) :
  collect type id targetTitle targetYear minScore files = Ok matches ->
  In f files ->
  matchFile type id targetTitle targetYear f = Ok m ->
  minScore <= score m ->
  In (Ranked f m) matches.
Proof.
  revert matches. induction files as [|f0 files IH]; intros matches; simpl.
  - intros _ [].
  - destruct (matchFile type id targetTitle targetYear f0) as [m0|] eqn:Hm0;
      cbn [mbind result_bind]; [|discriminate].
    destruct (collect type id targetTitle targetYear minScore files) as [ms|];
      cbn [mbind result_bind]; [|discriminate].
    intros Hms [<-|Hin] Hm Hle.
    + rewrite Hm in Hm0. apply Ok_inj in Hm0. subst m0.
      apply Qle_bool_iff in Hle. rewrite Hle in Hms.
      apply Ok_inj in Hms. subst matches. now left.
    + specialize (IH ms eq_refl Hin Hm Hle).
      destruct (Qle_bool minScore (score m0)); apply Ok_inj in Hms; subst matches;
        [now right | exact IH].
Qed.

Lemma collect_length (type id : string) (targetTitle targetYear : option string)
    (minScore : Q) (files : list file) (matches : list ranked) :
  collect type id targetTitle targetYear minScore files = Ok matches ->
  (List.length matches <= List.length files)%nat.
Proof.
  revert matches. induction files as [|f0 files IH]; intros matches; simpl.
  - intros Hms. apply Ok_inj in Hms. subst. simpl. lia.
  - destruct (matchFile type id targetTitle targetYear f0) as [m0|];
      cbn [mbind result_bind]; [|discriminate].
    destruct (collect type id targetTitle targetYear minScore files) as [ms|];
      cbn [mbind result_bind]; [|discriminate].
    specialize (IH ms eq_refl).
    destruct (Qle_bool minScore (score m0)); intros Hms; apply Ok_inj in Hms;
      subst matches; simpl; lia.
Qed.


(** X10.  Every score the matcher gives a file lies in the closed
    interval [0, 1], for a movie, a series and any other type; so every
    candidate of a ranking has a score between the minimum score and 1. *)
Theorem scores_are_unit :
  (forall (type id : string) (targetTitle targetYear : option string) (f : file)
          (r : matchResult),
      matchFile type id targetTitle targetYear f = Ok r ->
      0 <= score r <= 1) /\
  (forall (files : list file) (type id : string)
          (targetTitle targetYear : option string) (minScore : Q)
          (out : list ranked),
      findBestMatches files type id targetTitle targetYear minScore = Ok out ->
      List.Forall (fun c => minScore <= score (r_match c) <= 1) out).
Proof.
  split; [exact matchFile_unit|].
  intros files type id targetTitle targetYear minScore out. unfold findBestMatches.
  destruct (collect type id targetTitle targetYear minScore files) as [matches|] eqn:E;
    cbn [mbind result_bind]; [|discriminate].
  intros Hout. apply Ok_inj in Hout. subst out.
  apply List.Forall_forall. intros c Hc. apply In_sort in Hc.
  destruct (collect_In _ _ _ _ _ _ _ _ E Hc) as (_ & Hm & Hle).
  pose proof (matchFile_unit _ _ _ _ _ _ Hm) as Hu. unfold unitScore in Hu. lra.
Qed.

Lemma scores_are_unit_witness :
  exists r,
    matchFile "series" "tt0903747:1:2" None None
              (fileNamed "Show.S01E02.srt") = Ok r /\
    0 <= score r <= 1.
Proof.
  destruct (matchFile "series" "tt0903747:1:2" None None
                      (fileNamed "Show.S01E02.srt")) as [r|] eqn:E;
    [|vm_compute in E; discriminate].
  exists r. split; [reflexivity|].
  destruct scores_are_unit as [H _]. exact (H _ _ _ _ _ _ E).
Defined.

(** X11.  A ranking holds exactly the files whose match reaches the
    minimum score, each with its own match result, and so no more
    candidates than files. *)
Theorem ranking_is_the_files_above_minimum
    (files : list file) (type id : string)
    (targetTitle targetYear : option string) (minScore : Q) (out : list ranked) :
  findBestMatches files type id targetTitle targetYear minScore = Ok out ->
  (forall (f : file) (m : matchResult),
      In (Ranked f m) out <->
      In f files /\ matchFile type id targetTitle targetYear f = Ok m /\
      minScore <= score m) /\
  (List.length out <= List.length files)%nat.
Proof.
  unfold findBestMatches.
  destruct (collect type id targetTitle targetYear minScore files) as [matches|] eqn:E;
    cbn [mbind result_bind]; [|discriminate].
  intros Hout. apply Ok_inj in Hout. subst out. split.
  - intros f m. rewrite In_sort. split.
    + intros Hin. exact (collect_In _ _ _ _ _ _ _ _ E Hin).
    + intros (Hf & Hm & Hle). exact (collect_complete _ _ _ _ _ _ _ _ _ E Hf Hm Hle).
  - rewrite <- (Permutation_length (sort_perm compareMatches matches)).
    exact (collect_length _ _ _ _ _ _ _ E).
Qed.

Lemma ranking_is_the_files_above_minimum_witness :
  exists out,
    findBestMatches [fileNamed "Show.S01E02.srt"; fileNamed "Show.S01E03.srt"]
                    "series" "tt0903747:1:2" None None (7 # 10) = Ok out /\
    (List.length out <= 2)%nat.
Proof.
  destruct (findBestMatches
              [fileNamed "Show.S01E02.srt"; fileNamed "Show.S01E03.srt"]
              "series" "tt0903747:1:2" None None (7 # 10)) as [out|] eqn:E;
    [|vm_compute in E; discriminate].
  exists out. split; [reflexivity|].
  exact (proj2 (ranking_is_the_files_above_minimum _ _ _ _ _ _ _ E)).
Defined.

End Combinations.
(** ** Ranking *)

Section RankingOrder.
Import FuzzyMatcher Spec Props.
Local Open Scope Q_scope.













End RankingOrder.

(** ** Numbers and their decimal form *)

Section Numbers.
Import Props.

Lemma parseDigits_decimal (d : Decimal.uint) (a : Z) :
  Js.parseDigits 10 (Some a) (NilEmpty.string_of_uint d) = Some (decimalValue a d).
Proof.
  revert a. induction d; intros a; cbn [NilEmpty.string_of_uint decimalValue];
    [reflexivity|..];
    (cbn [Js.parseDigits];
     match goal with
     | |- context [Js.digitValue 10 ?c] =>
         let v := eval vm_compute in (Js.digitValue 10 c) in
         change (Js.digitValue 10 c) with v
     end; cbv iota; cbn [default]; apply IHd).
Qed.

Lemma decimalValue_acc (d : Decimal.uint) (acc : positive) :
  Z.pos (Pos.of_uint_acc d acc) = decimalValue (Z.pos acc) d.
Proof.
  revert acc. induction d; intros acc; cbn [Pos.of_uint_acc decimalValue];
    [reflexivity|..]; rewrite IHd; f_equal; lia.
Qed.

Lemma decimalValue_of_uint (d : Decimal.uint) :
  Z.of_N (Pos.of_uint d) = decimalValue 0 d.
Proof.
  induction d; cbn [Pos.of_uint decimalValue]; [reflexivity|..];
    try (rewrite IHd; reflexivity);
    cbn [Z.of_N]; rewrite decimalValue_acc; reflexivity.
Qed.

Lemma string_of_uint_digits (d : Decimal.uint) :
  allDigits (NilEmpty.string_of_uint d) = true.
Proof.
  unfold allDigits. induction d; cbn [NilEmpty.string_of_uint]; [reflexivity|..];
    cbn [list_ascii_of_string forallb]; rewrite IHd; reflexivity.
Qed.

(** On a non-empty string of digits [parseInt] reads all of it in base
    10. *)
Lemma parseInt_digits (s : string) :
  allDigits s = true -> s <> EmptyString ->
  Js.parseInt s = Js.parseDigits 10 None s.
Proof.
  unfold allDigits. destruct s as [|c t]; [contradiction|]. intros H _.
  cbn [list_ascii_of_string forallb] in H. apply andb_prop in H as [Hc Ht].
  destruct t as [|c' t'].
  - destruct c as [[] [] [] [] [] [] [] []]; try discriminate Hc; reflexivity.
  - cbn [list_ascii_of_string forallb] in Ht. apply andb_prop in Ht as [Hc' _].
    destruct c as [[] [] [] [] [] [] [] []]; try discriminate Hc;
      destruct c' as [[] [] [] [] [] [] [] []]; try discriminate Hc';
      unfold Js.parseInt; simpl;
      match goal with
      | |- match ?x with _ => _ end = _ => destruct x as [v|]
      end; try reflexivity; now destruct v.
Qed.

Lemma parseInt_negative (s : string) :
  allDigits s = true -> s <> EmptyString ->
  Js.parseInt (String "-" s) = option_map Z.opp (Js.parseDigits 10 None s).
Proof.
  unfold allDigits. destruct s as [|c t]; [contradiction|]. intros H _.
  cbn [list_ascii_of_string forallb] in H. apply andb_prop in H as [Hc Ht].
  destruct t as [|c' t'].
  - destruct c as [[] [] [] [] [] [] [] []]; try discriminate Hc; reflexivity.
  - cbn [list_ascii_of_string forallb] in Ht. apply andb_prop in Ht as [Hc' _].
    destruct c as [[] [] [] [] [] [] [] []]; try discriminate Hc;
      destruct c' as [[] [] [] [] [] [] [] []]; try discriminate Hc';
      unfold Js.parseInt; simpl;
      match goal with
      | |- match ?x with _ => _ end = _ => destruct x as [v|]
      end; try reflexivity; now destruct v.
Qed.

Lemma parseDigits_uint (d : Decimal.uint) :
  d <> Decimal.Nil ->
  Js.parseDigits 10 None (NilEmpty.string_of_uint d) = Some (decimalValue 0 d).
Proof.
  destruct d; [contradiction|..]; intros _;
    cbn [NilEmpty.string_of_uint Js.parseDigits decimalValue];
    match goal with
    | |- context [Js.digitValue 10 ?c] =>
        let v := eval vm_compute in (Js.digitValue 10 c) in
        change (Js.digitValue 10 c) with v
    end; cbv iota; cbn [default]; apply parseDigits_decimal.
Qed.

Lemma string_of_uint_not_nil (d : Decimal.uint) :
  d <> Decimal.Nil -> NilEmpty.string_of_uint d <> EmptyString.
Proof. destruct d; [contradiction|..]; discriminate. Qed.

Lemma string_of_pos (p : positive) :
  NilZero.string_of_uint (Pos.to_uint p) = NilEmpty.string_of_uint (Pos.to_uint p) /\
  Pos.to_uint p <> Decimal.Nil.
Proof.
  pose proof (Unsigned.to_uint_nonnil p) as Hne.
  split; [|exact Hne]. now destruct (Pos.to_uint p).
Qed.

Lemma parseDigits_pos (p : positive) :
  Js.parseDigits 10 None (NilEmpty.string_of_uint (Pos.to_uint p)) = Some (Z.pos p).
Proof.
  rewrite parseDigits_uint by apply Unsigned.to_uint_nonnil.
  rewrite <- decimalValue_of_uint, Unsigned.of_to. reflexivity.
Qed.

(** The decimal form of an integer is read back as that integer. *)
Lemma parseInt_numToString (z : Z) : Js.parseInt (Js.numToString (Some z)) = Some z.
Proof.
  unfold Js.numToString. destruct z as [|p|p]; [reflexivity|..];
    cbn [Z.to_int NilZero.string_of_int];
    destruct (string_of_pos p) as [-> Hne].
  - rewrite parseInt_digits;
      [apply parseDigits_pos | apply string_of_uint_digits
      | now apply string_of_uint_not_nil].
  - rewrite parseInt_negative;
      [now rewrite parseDigits_pos | apply string_of_uint_digits
      | now apply string_of_uint_not_nil].
Qed.

Lemma digits_noChar (c : ascii) (s : string) :
  Js.isDigit c = false -> allDigits s = true -> noChar c s = true.
Proof.
  unfold allDigits, noChar. intros Hc. induction s as [|a s IH]; [reflexivity|].
  cbn [list_ascii_of_string forallb]. intros H. apply andb_prop in H as [Ha Hs].
  rewrite (IH Hs), andb_true_r. apply negb_true_iff.
  destruct (Ascii.eqb a c) eqn:E; [|reflexivity].
  apply Ascii.eqb_eq in E. congruence.
Qed.

(** The decimal form of an integer is not empty and holds no colon. *)
Lemma numToString_part (z : Z) :
  noChar ":" (Js.numToString (Some z)) = true /\
  Js.numToString (Some z) <> EmptyString.
Proof.
  unfold Js.numToString. destruct z as [|p|p]; [split; [reflexivity|discriminate]|..];
    cbn [Z.to_int NilZero.string_of_int];
    destruct (string_of_pos p) as [-> Hne].
  - split; [|now apply string_of_uint_not_nil].
    apply digits_noChar; [reflexivity | apply string_of_uint_digits].
  - split; [|discriminate].
    unfold noChar. cbn [list_ascii_of_string forallb].
    change (negb (Ascii.eqb "-" ":")) with true. cbn [andb].
    apply (digits_noChar ":"); [reflexivity | apply string_of_uint_digits].
Qed.

End Numbers.

(** ** The subtitles handler *)

Section SeriesIdentifiers.
Import SubtitlesHandler Props.

Lemma truthy_Some (s : string) : s <> EmptyString -> Js.truthy (Some s) = true.
Proof. destruct s; [contradiction | reflexivity]. Qed.

(** X12.  An identifier written as a show identifier without a colon, a
    season and an episode, both integers in decimal form, joined by
    colons, is parsed back into exactly these three parts and is valid. *)
Theorem series_identifier_round_trip (imdbId : string) (season episode : Z) :
  noChar ":" imdbId = true -> safeInteger season -> safeInteger episode ->
  parseSeriesId
    (imdbId +:+ ":" +:+ Js.numToString (Some season) +:+ ":" +:+
     Js.numToString (Some episode)) =
  SeriesId imdbId (Some (Some season)) (Some (Some episode)) true.
Proof.
  intros Hid _ _.
  destruct (numToString_part season) as [Hs Hs'].
  destruct (numToString_part episode) as [He He'].
  unfold parseSeriesId.
  change (imdbId +:+ ":" +:+ Js.numToString (Some season) +:+ ":" +:+
          Js.numToString (Some episode))
    with (imdbId +:+ String ":" (Js.numToString (Some season) +:+
                                 String ":" (Js.numToString (Some episode)))).
  rewrite (split_cons ":" imdbId _ Hid), (split_cons ":" _ _ Hs),
    (split_one ":" _ He).
  cbn [List.length Nat.ltb Nat.leb List.nth List.nth_error andb].
  unfold partNumber.
  rewrite (truthy_Some _ Hs'), (truthy_Some _ He'). cbn [default].
  unfold Datatypes.id. rewrite !parseInt_numToString. reflexivity.
Qed.

Lemma series_identifier_round_trip_witness :
  parseSeriesId "tt0903747:1:2" =
  SeriesId "tt0903747" (Some (Some 1%Z)) (Some (Some 2%Z)) true.
Proof.
  apply (series_identifier_round_trip "tt0903747" 1 2);
    [reflexivity | unfold safeInteger; simpl; lia | unfold safeInteger; simpl; lia].
Defined.

Lemma parseInt_empty : Js.parseInt EmptyString = None.
Proof. reflexivity. Qed.

(** X13.  An identifier that [parseSeriesId] reports valid, and whose
    season and episode parts are numbers that a JavaScript number holds
    exactly, has a season and an episode that are integers, and the
    matcher, which splits the identifier on its own, matches a file of the
    series by exactly these two numbers and this show identifier. *)
Theorem valid_series_identifier (id : string) :
  isValid (parseSeriesId id) = true ->
  safeNumber (Js.parseInt (List.nth 1 (Js.split ":" id) EmptyString)) ->
  safeNumber (Js.parseInt (List.nth 2 (Js.split ":" id) EmptyString)) ->
  exists season episode : Z,
    safeInteger season /\ safeInteger episode /\
    p_season (parseSeriesId id) = Some (Some season) /\
    p_episode (parseSeriesId id) = Some (Some episode) /\
    forall (targetTitle targetYear : option string) (f : FuzzyMatcher.file),
      FuzzyMatcher.matchFile "series" id targetTitle targetYear f =
      (episodeMatch ← FuzzyMatcher.matchesEpisode (FuzzyMatcher.name f)
                        (Some season) (Some episode);
       imdbMatch ← FuzzyMatcher.matchesImdbId (FuzzyMatcher.name f)
                     (p_imdbId (parseSeriesId id));
       Ok (FuzzyMatcher.combineSeries episodeMatch imdbMatch)).
Proof.
  unfold parseSeriesId, FuzzyMatcher.matchFile.
  change (String.eqb "series" "movie") with false.
  change (String.eqb "series" "series") with true. cbv iota.
  destruct (Js.split ":" id) as [|p0 [|p1 [|p2 rest]]];
    cbn [List.length Nat.ltb Nat.leb List.nth List.nth_error andb isValid
         p_season p_episode p_imdbId]; try discriminate.
  unfold partNumber, isNaN.
  destruct (Js.parseInt p1) as [season|] eqn:E1; [|discriminate].
  destruct (Js.parseInt p2) as [episode|] eqn:E2; [|discriminate].
  intros _ Hseason Hepisode. exists season, episode.
  assert (H1 : Js.truthy (Some p1) = true).
  { apply truthy_Some. intros ->. rewrite parseInt_empty in E1. discriminate. }
  assert (H2 : Js.truthy (Some p2) = true).
  { apply truthy_Some. intros ->. rewrite parseInt_empty in E2. discriminate. }
  rewrite H1, H2. cbn [default andb]. unfold Datatypes.id. rewrite E1, E2.
  repeat split; assumption.
Qed.

Lemma valid_series_identifier_witness :
  exists season episode : Z,
    p_season (parseSeriesId "tt0903747:01:12") = Some (Some season) /\
    p_episode (parseSeriesId "tt0903747:01:12") = Some (Some episode) /\
    season = 1%Z /\ episode = 12%Z.
Proof.
  destruct (valid_series_identifier "tt0903747:01:12" eq_refl)
    as (season & episode & _ & _ & Hs & He & _).
  - vm_compute. discriminate.
  - vm_compute. discriminate.
  - exists season, episode. repeat split; try assumption.
    + vm_compute in Hs. now inversion Hs.
    + vm_compute in He. now inversion He.
Defined.

End SeriesIdentifiers.

Section HandlerAnswer.
Import SubtitlesHandler Props.
Local Open Scope Q_scope.







End HandlerAnswer.

(** ** Searching with a regular expression *)

Section Search.
Import RegExp Props.

Lemma searchFrom_found (re : RegExp.t) (rest : string) :
  forall (prev : option ascii) (skipped : string) (m : found),
    searchFrom re prev rest = Some (skipped, m) ->
    exists rest',
      rest = skipped +:+ rest' /\
      matchAt re (lastChar prev skipped) rest' = Some m.
Proof.
  induction rest as [|c rest IH]; intros prev skipped m; simpl.
  - destruct (matchAt re prev EmptyString) as [m'|] eqn:E; [|discriminate].
    intros [= <- <-]. exists EmptyString. split; [reflexivity | exact E].
  - destruct (matchAt re prev (String c rest)) as [m'|] eqn:E.
    + intros [= <- <-]. exists (String c rest). split; [reflexivity | exact E].
    + destruct (searchFrom re (Some c) rest) as [[sk m']|] eqn:E'; [|discriminate].
      intros [= <- <-]. destruct (IH _ _ _ E') as (rest' & -> & Hm).
      exists rest'. split; [reflexivity | exact Hm].
Qed.

Lemma searchFrom_exists (re : RegExp.t) (pre rest : string) :
  forall prev : option ascii,
    matchAt re (lastChar prev pre) rest <> None ->
    searchFrom re prev (pre +:+ rest) <> None.
Proof.
  induction pre as [|c pre IH]; intros prev Hm.
  - cbn [lastChar] in Hm. change (EmptyString +:+ rest) with rest.
    destruct rest as [|c rest]; simpl;
      destruct (matchAt re prev _); [discriminate | contradiction
                                     | discriminate | contradiction].
  - change (String c pre +:+ rest) with (String c (pre +:+ rest)).
    simpl. destruct (matchAt re prev _); [discriminate|].
    specialize (IH (Some c) Hm).
    destruct (searchFrom re (Some c) (pre +:+ rest)) as [[sk m]|];
      [discriminate | contradiction].
Qed.

(** [re.test(s)] holds exactly when the expression matches at some
    position of [s]. *)
Lemma test_spec (re : RegExp.t) (s : string) :
  test re s = true <->
  exists pre rest, s = pre +:+ rest /\ matchAt re (lastChar None pre) rest <> None.
Proof.
  unfold test. split.
  - destruct (searchFrom re None s) as [[skipped m]|] eqn:E; [|discriminate].
    intros _. destruct (searchFrom_found _ _ _ _ _ E) as (rest' & -> & Hm).
    exists skipped, rest'. split; [reflexivity|]. now rewrite Hm.
  - intros (pre & rest & -> & Hm).
    pose proof (searchFrom_exists re pre rest None Hm) as H.
    now destruct (searchFrom re None (pre +:+ rest)).
Qed.

End Search.

(** ** Subtitle extensions *)

Section Extensions.
Import RegExp Props GithubService.

(** Under the [i] flag a lower-case letter of the pattern matches the code
    units whose lower-case form it is; a digit or a dot matches itself
    only. *)
Lemma charEq_lower (l c : ascii) :
  Js.isLower l = true -> charEq true l c = Ascii.eqb (Js.toLowerChar c) l.
Proof.
  intros Hl.
  destruct l as [[] [] [] [] [] [] [] []]; try discriminate Hl;
    destruct c as [[] [] [] [] [] [] [] []]; reflexivity.
Qed.

Lemma charEq_symbol (l c : ascii) :
  Ascii.eqb l "." || Js.isDigit l = true -> charEq true l c = Ascii.eqb c l.
Proof.
  intros Hl.
  destruct l as [[] [] [] [] [] [] [] []]; try discriminate Hl;
    destruct c as [[] [] [] [] [] [] [] []]; reflexivity.
Qed.

Lemma isExtension_matchAt (prev : option ascii) (rest : string) :
  isSome (matchAt (lit "\.(srt|vtt|ass|ssa|sub)$" true) prev rest) =
  isExtension rest.
Proof.
  unfold matchAt.
  replace (lit "\.(srt|vtt|ass|ssa|sub)$" true)
    with (ltac:(let t := eval vm_compute in (lit "\.(srt|vtt|ass|ssa|sub)$" true)
                in exact t))
    by (vm_compute; reflexivity).
  cbn [ast ignoreCase run ms_rest step].
  destruct rest as [|d [|c1 [|c2 [|c3 [|c4 r]]]]];
    cbn [ms_rest step isExtension]; try reflexivity;
    rewrite ?(charEq_symbol "." _ eq_refl);
    repeat match goal with
           | |- context [charEq true ?l ?c] => rewrite (charEq_lower l c eq_refl)
           end;
    (destruct (Ascii.eqb d "."); [|reflexivity]);
    cbn [isExtension getSupportedExtensions existsb Js.toLowerCase String.eqb
         ms_rest step andb];
    rewrite ?andb_false_r, ?orb_false_r;
    repeat match goal with
           | |- context [Ascii.eqb (Js.toLowerChar ?c) ?l] =>
               destruct (Ascii.eqb (Js.toLowerChar c) l) eqn:?
           end; reflexivity.
Qed.

Lemma isExtension_spec (rest : string) :
  isExtension rest = true <->
  exists ext, rest = "." +:+ ext /\ In (Js.toLowerCase ext) getSupportedExtensions.
Proof.
  unfold isExtension. split.
  - destruct rest as [|d e]; [discriminate|].
    intros H. apply andb_prop in H as [Hd He].
    apply Ascii.eqb_eq in Hd. subst d. exists e. split; [reflexivity|].
    apply existsb_exists in He as (x & Hx & Heq).
    apply String.eqb_eq in Heq. now subst.
  - intros (ext & -> & Hin). change ("." +:+ ext) with (String "." ext).
    cbn [Ascii.eqb Bool.eqb andb]. apply existsb_exists.
    exists (Js.toLowerCase ext). split; [exact Hin | apply String.eqb_refl].
Qed.

Lemma isSubtitleFile_spec (filename : string) :
  isSubtitleFile filename = true <->
  exists pre rest, filename = pre +:+ rest /\ isExtension rest = true.
Proof.
  unfold isSubtitleFile. rewrite test_spec.
  split; intros (pre & rest & Heq & H); exists pre, rest; (split; [exact Heq|]).
  - rewrite <- (isExtension_matchAt (lastChar None pre)).
    now destruct (matchAt _ _ _).
  - rewrite <- (isExtension_matchAt (lastChar None pre)) in H.
    now destruct (matchAt _ _ _).
Qed.

(** X16.  A file name is a subtitle file exactly when it ends in a dot
    followed by one of the supported extensions, in any letter case. *)
Theorem subtitle_file_extension (filename : string) :
  isSubtitleFile filename = true <->
  exists stem ext : string,
    filename = stem +:+ "." +:+ ext /\
    In (Js.toLowerCase ext) getSupportedExtensions.
Proof.
  rewrite isSubtitleFile_spec. split.
  - intros (pre & rest & -> & H). apply isExtension_spec in H as (ext & -> & Hin).
    now exists pre, ext.
  - intros (stem & ext & -> & Hin). exists stem, ("." +:+ ext).
    split; [reflexivity|]. apply isExtension_spec. now exists ext.
Qed.

Lemma subtitle_file_extension_witness :
  isSubtitleFile "Movie.2020.SRT" = true /\ isSubtitleFile "Movie.srt.txt" = false.
Proof.
  split; [|reflexivity].
  apply (proj2 (subtitle_file_extension "Movie.2020.SRT")).
  exists "Movie.2020", "SRT". split; [reflexivity|]. now left.
Defined.

End Extensions.

(** ** Paths *)

Section Paths.
Import Props.

Lemma rev_app_cat (s t acc : string) :
  String.rev_app (s +:+ t) acc = String.rev_app t (String.rev_app s acc).
Proof.
  revert acc. induction s as [|c s IH]; intros acc; [reflexivity|].
  change (String c s +:+ t) with (String c (s +:+ t)). simpl. apply IH.
Qed.

Lemma rev_app_rev_app (s a b : string) :
  String.rev_app (String.rev_app s a) b = String.rev_app a (s +:+ b).
Proof.
  revert a b. induction s as [|c s IH]; intros a b; [reflexivity|].
  simpl. rewrite IH. reflexivity.
Qed.

Lemma string_app_nil (s : string) : s +:+ EmptyString = s.
Proof. induction s as [|c s IH]; [reflexivity|]. simpl. unfold "+:+" in *. simpl. now f_equal. Qed.

Lemma rev_rev (s : string) : String.rev (String.rev s) = s.
Proof. unfold String.rev. rewrite rev_app_rev_app. simpl. apply string_app_nil. Qed.

Lemma stripTrailingSlashes_cons (c : ascii) (t : string) :
  Js.stripTrailingSlashes (String c t) =
  if Ascii.eqb c "/" then Js.stripTrailingSlashes t else String c t.
Proof. destruct c as [[] [] [] [] [] [] [] []]; reflexivity. Qed.

(** A path that does not end in a slash is its own trimmed form. *)
Lemma pathTail_plain (q : string) (c : ascii) :
  Ascii.eqb c "/" = false ->
  Js.pathTail (q +:+ String c EmptyString) =
  Js.lastSegment (q +:+ String c EmptyString) (q +:+ String c EmptyString).
Proof.
  intros Hc. unfold Js.pathTail.
  assert (E : String.rev (Js.stripTrailingSlashes
                            (String.rev (q +:+ String c EmptyString))) =
              q +:+ String c EmptyString).
  { unfold String.rev at 2. rewrite rev_app_cat. cbn [String.rev_app].
    rewrite stripTrailingSlashes_cons, Hc.
    change (String c (String.rev_app q EmptyString))
      with (String.rev_app (String c EmptyString) (String.rev_app q EmptyString)).
    rewrite <- rev_app_cat. apply rev_rev. }
  rewrite E. reflexivity.
Qed.

Lemma lastSegment_noSlash (acc v : string) :
  noChar "/" v = true -> Js.lastSegment acc v = acc.
Proof.
  unfold noChar. revert acc. induction v as [|c v IH]; intros acc; [reflexivity|].
  cbn [list_ascii_of_string forallb]. intros H. apply andb_prop in H as [Hc Hv].
  apply negb_true_iff in Hc. cbn [Js.lastSegment]. rewrite Hc. now apply IH.
Qed.

Lemma afterSlash_noSlash (acc v : string) :
  noChar "/" v = true -> afterSlash acc v = acc.
Proof.
  unfold noChar. revert acc. induction v as [|c v IH]; intros acc; [reflexivity|].
  cbn [list_ascii_of_string forallb]. intros H. apply andb_prop in H as [Hc Hv].
  apply negb_true_iff in Hc. cbn [afterSlash]. rewrite Hc. now apply IH.
Qed.

(** The last segment of a path that goes on after [u] with a non-empty
    text without a slash: the text of [u] after its last slash, and that
    text. *)
Lemma lastSegment_app (u v : string) :
  noChar "/" v = true -> v <> EmptyString ->
  forall acc,
    Js.lastSegment (acc +:+ v) (u +:+ v) = afterSlash acc u +:+ v.
Proof.
  intros Hv Hne. induction u as [|c u IH]; intros acc.
  - change (EmptyString +:+ v) with v. cbn [afterSlash].
    now apply lastSegment_noSlash.
  - change (String c u +:+ v) with (String c (u +:+ v)).
    cbn [Js.lastSegment afterSlash].
    destruct (Ascii.eqb c "/").
    + assert (E : String.eqb (u +:+ v) EmptyString = false).
      { apply String.eqb_neq. destruct u; [exact Hne | discriminate]. }
      rewrite E. apply IH.
    + apply IH.
Qed.

Lemma pathTail_app (u v : string) (c : ascii) :
  noChar "/" (v +:+ String c EmptyString) = true ->
  Js.pathTail (u +:+ v +:+ String c EmptyString) =
  component u +:+ v +:+ String c EmptyString.
Proof.
  intros Hv.
  assert (Hc : Ascii.eqb c "/" = false).
  { unfold noChar in Hv. clear -Hv. induction v as [|a v IH]; simpl in Hv.
    - rewrite andb_true_r in Hv. now apply negb_true_iff in Hv.
    - apply andb_prop in Hv as [_ Hv]. now apply IH. }
  assert (Hassoc : u +:+ v +:+ String c EmptyString =
                   (u +:+ v) +:+ String c EmptyString).
  { clear. induction u as [|a u IH]; [reflexivity|].
    change (String a u +:+ ?x) with (String a (u +:+ x)). now rewrite IH. }
  rewrite Hassoc, (pathTail_plain _ c Hc), <- Hassoc.
  apply (lastSegment_app u (v +:+ String c EmptyString) Hv).
  destruct v; discriminate.
Qed.

Lemma lastDotFrom_noDot (best : option nat) (i : nat) (v : string) :
  noChar "." v = true -> Js.lastDotFrom best i v = best.
Proof.
  unfold noChar. revert best i. induction v as [|c v IH]; intros best i; [reflexivity|].
  cbn [list_ascii_of_string forallb]. intros H. apply andb_prop in H as [Hc Hv].
  apply negb_true_iff in Hc. cbn [Js.lastDotFrom]. rewrite Hc. now apply IH.
Qed.

Lemma lastDotFrom_app (best : option nat) (i : nat) (t v : string) :
  noChar "." v = true ->
  Js.lastDotFrom best i (t +:+ String "." v) = Some (i + String.length t)%nat.
Proof.
  intros Hv. revert best i. induction t as [|c t IH]; intros best i.
  - change (EmptyString +:+ String "." v) with (String "." v).
    cbn [Js.lastDotFrom Ascii.eqb Bool.eqb String.length].
    rewrite lastDotFrom_noDot by exact Hv. f_equal. lia.
  - change (String c t +:+ String "." v) with (String c (t +:+ String "." v)).
    cbn [Js.lastDotFrom String.length]. rewrite IH. f_equal. lia.
Qed.

Lemma drop_app (t v : string) : Js.drop (String.length t) (t +:+ v) = v.
Proof. induction t as [|c t IH]; [now destruct v | exact IH]. Qed.

Lemma take_app (t v : string) : Js.take (String.length t) (t +:+ v) = t.
Proof.
  induction t as [|c t IH]; [now destruct v|].
  change (String c t +:+ v) with (String c (t +:+ v)). cbn [String.length Js.take].
  now rewrite IH.
Qed.

Lemma length_cat (t v : string) :
  String.length (t +:+ v) = (String.length t + String.length v)%nat.
Proof.
  induction t as [|c t IH]; [reflexivity|].
  change (String c t +:+ v) with (String c (t +:+ v)). cbn [String.length].
  now rewrite IH.
Qed.

Lemma eqb_length (a b : string) :
  String.length a <> String.length b -> String.eqb a b = false.
Proof. intros H. apply String.eqb_neq. intros ->. contradiction. Qed.

Lemma endsWith_app (t e : string) : Js.endsWith (t +:+ e) e = true.
Proof.
  induction t as [|c t IH].
  - change (EmptyString +:+ e) with e.
    destruct e; cbn [Js.endsWith]; now rewrite String.eqb_refl.
  - change (String c t +:+ e) with (String c (t +:+ e)). cbn [Js.endsWith].
    rewrite IH. apply orb_true_r.
Qed.

Lemma toLowerCase_length (s : string) :
  String.length (Js.toLowerCase s) = String.length s.
Proof. induction s as [|c s IH]; [reflexivity|]. cbn. now rewrite IH. Qed.

(** [s.substring(1)] drops the first code unit. *)
Lemma substringFrom_one (c : ascii) (r : string) :
  Js.substringFrom (String c r) 1 = r.
Proof.
  unfold Js.substringFrom, Js.substring, Js.clamp, Js.len.
  cbn [String.length].
  replace (Z.max 0 (Z.min (Z.of_nat (S (String.length r))) 1)) with 1%Z by lia.
  replace (Z.max 0 (Z.min (Z.of_nat (S (String.length r)))
                          (Z.of_nat (S (String.length r)))))
    with (Z.of_nat (S (String.length r))) by lia.
  replace (Z.min 1 (Z.of_nat (S (String.length r)))) with 1%Z by lia.
  replace (Z.max 1 (Z.of_nat (S (String.length r))))
    with (Z.of_nat (S (String.length r))) by lia.
  replace (Z.to_nat (Z.of_nat (S (String.length r)) - 1)) with (String.length r) by lia.
  change (Z.to_nat 1) with 1%nat. cbn [Js.drop].
  rewrite <- (string_app_nil r) at 2. apply take_app.
Qed.

Lemma substringFrom_empty : Js.substringFrom EmptyString 1 = EmptyString.
Proof. reflexivity. Qed.

Lemma snoc_exists (s : string) :
  s <> EmptyString -> exists v c, s = v +:+ String c EmptyString.
Proof.
  induction s as [|a s IH]; [contradiction|]. intros _.
  destruct s as [|b s'].
  - now exists EmptyString, a.
  - destruct IH as (v & c & E); [discriminate|].
    exists (String a v), c. rewrite E. reflexivity.
Qed.

(** The extension and the stem of a path that ends in a dot and a text
    [ext] of at least two code units without a dot or a slash. *)
Lemma extname_app (u ext : string) :
  noChar "/" ext = true -> noChar "." ext = true ->
  (2 <= String.length ext)%nat ->
  if String.eqb (component u) EmptyString
  then Js.extname (u +:+ "." +:+ ext) = EmptyString /\
       Js.basename (u +:+ "." +:+ ext) EmptyString = "." +:+ ext
  else Js.extname (u +:+ "." +:+ ext) = "." +:+ ext /\
       Js.basename (u +:+ "." +:+ ext) ("." +:+ ext) = component u.
Proof.
  intros Hslash Hdot Hlen.
  assert (Htail : Js.pathTail (u +:+ "." +:+ ext) = component u +:+ "." +:+ ext).
  { destruct (snoc_exists ext) as (v & c & ->).
    { intros ->. simpl in Hlen. lia. }
    change (u +:+ "." +:+ v +:+ String c EmptyString)
      with (u +:+ (String "." v) +:+ String c EmptyString).
    change (component u +:+ "." +:+ v +:+ String c EmptyString)
      with (component u +:+ (String "." v) +:+ String c EmptyString).
    apply pathTail_app. exact Hslash. }
  assert (Hdots : Js.lastDotFrom None 0 (component u +:+ "." +:+ ext) =
                  Some (String.length (component u))).
  { change (component u +:+ "." +:+ ext) with (component u +:+ String "." ext).
    now rewrite lastDotFrom_app. }
  assert (Hnotdots : String.eqb (component u +:+ "." +:+ ext) ".." = false).
  { apply eqb_length. rewrite length_cat.
    change ("." +:+ ext) with (String "." ext). cbn [String.length]. lia. }
  unfold Js.extname, Js.basename. rewrite Htail, Hnotdots, Hdots.
  destruct (component u) as [|c t] eqn:Eu; cbn [String.eqb].
  - cbn [String.length]. split; reflexivity.
  - cbn [String.length]. split.
    + change (String c t +:+ "." +:+ ext) with (String c t +:+ ("." +:+ ext)).
      apply (drop_app (String c t)).
    + change (String.eqb ("." +:+ ext) EmptyString) with false.
      rewrite (eqb_length (String c t +:+ "." +:+ ext) ("." +:+ ext)).
      2:{ rewrite length_cat. cbn [String.length]. lia. }
      change (String c t +:+ "." +:+ ext) with (String c t +:+ ("." +:+ ext)).
      rewrite endsWith_app. cbn [negb andb].
      rewrite length_cat.
      replace (String.length (String c t) + String.length ("." +:+ ext) -
               String.length ("." +:+ ext))%nat
        with (String.length (String c t)) by lia.
      apply take_app.
Qed.

End Paths.

Section ParsedFormat.
Import SubtitleParser GithubService Props.

Lemma noChar_lower (x : ascii) (s : string) :
  Js.toLowerChar x = x ->
  noChar x (Js.toLowerCase s) = true -> noChar x s = true.
Proof.
  intros Hx. unfold noChar. induction s as [|c s IH]; [reflexivity|].
  cbn [Js.toLowerCase list_ascii_of_string forallb].
  intros H. apply andb_prop in H as [Hc Hs]. rewrite (IH Hs), andb_true_r.
  apply negb_true_iff. apply negb_true_iff in Hc.
  destruct (Ascii.eqb c x) eqn:E; [|reflexivity].
  apply Ascii.eqb_eq in E. subst c. rewrite Hx, Ascii.eqb_refl in Hc. discriminate.
Qed.

Lemma supported_shape (ext : string) :
  In (Js.toLowerCase ext) getSupportedExtensions ->
  noChar "/" ext = true /\ noChar "." ext = true /\ String.length ext = 3%nat.
Proof.
  intros Hin.
  assert (H : noChar "/" (Js.toLowerCase ext) = true /\
              noChar "." (Js.toLowerCase ext) = true /\
              String.length (Js.toLowerCase ext) = 3%nat).
  { revert Hin. generalize (Js.toLowerCase ext). intros e Hin.
    repeat (destruct Hin as [<-|Hin]; [repeat split|]). destruct Hin. }
  destruct H as (H1 & H2 & H3). rewrite toLowerCase_length in H3.
  repeat split; [now apply noChar_lower | now apply noChar_lower | exact H3].
Qed.

(** X17.  For every file that the listing keeps, the parser reports a
    format among the supported extensions, in lower case, and as base name
    the last component of the path without that extension; the exception
    is a last component that is the extension alone, such as [.srt], which
    has no format and is its own base name. *)
Theorem format_of_subtitle_file (filename : string) :
  isSubtitleFile filename = true ->
  exists stem ext : string,
    filename = stem +:+ "." +:+ ext /\
    In (Js.toLowerCase ext) getSupportedExtensions /\
    format (parseSubtitleFilename filename) =
    extension (parseSubtitleFilename filename) /\
    if String.eqb (component stem) EmptyString
    then extension (parseSubtitleFilename filename) = EmptyString /\
         basename (parseSubtitleFilename filename) = "." +:+ ext
    else extension (parseSubtitleFilename filename) = Js.toLowerCase ext /\
         basename (parseSubtitleFilename filename) = component stem.
Proof.
  intros H. apply isSubtitleFile_spec in H as (stem & rest & -> & H).
  apply isExtension_spec in H as (ext & -> & Hin).
  exists stem, ext. split; [reflexivity|]. split; [exact Hin|].
  split; [reflexivity|].
  destruct (supported_shape ext Hin) as (Hslash & Hdot & Hlen).
  pose proof (extname_app stem ext Hslash Hdot) as Hext.
  unfold parseSubtitleFilename. cbn [extension basename].
  destruct (String.eqb (component stem) EmptyString).
  - destruct Hext as [-> ->]; [lia|]. split; reflexivity.
  - destruct Hext as [-> ->]; [lia|]. split; [|reflexivity].
    change (Js.toLowerCase ("." +:+ ext)) with (String "." (Js.toLowerCase ext)).
    apply substringFrom_one.
Qed.

Lemma format_of_subtitle_file_witness :
  exists stem ext : string,
    "subs/Movie.2020.SRT" = stem +:+ "." +:+ ext /\
    extension (parseSubtitleFilename "subs/Movie.2020.SRT") = Js.toLowerCase ext /\
    format (parseSubtitleFilename "subs/Movie.2020.SRT") = "srt".
Proof.
  destruct (format_of_subtitle_file "subs/Movie.2020.SRT" eq_refl)
    as (stem & ext & Heq & Hin & Hformat & H).
  exists stem, ext. split; [exact Heq|]. split; [|reflexivity].
  destruct (String.eqb (component stem) EmptyString) eqn:E.
  - destruct H as [H _]. vm_compute in H. discriminate.
  - exact (proj1 H).
Defined.

End ParsedFormat.

(** ** Patterns built from an identifier *)

Section Literals.
Import FuzzyMatcher Spec RegExp Props.

Lemma AltIs_nil : AltIs EmptyString REmpty.
Proof. intros [|fuel] g H; [simpl in H; lia | reflexivity]. Qed.

Lemma AltIs_term (c : ascii) (s t : string) (a b : regex) :
  Ascii.eqb c "|" = false -> Ascii.eqb c ")" = false ->
  (String.length t < String.length (String c s))%nat ->
  (forall f g, parseTerm (S f) (String c s) g = Ok (a, t, g)) ->
  AltIs t b -> AltIs (String c s) (RSeq a b).
Proof.
  intros Hbar Hpar Hlen Hterm Ht fuel g Hfuel.
  destruct fuel as [|[|fuel]]; [simpl in Hfuel; lia..|].
  pose proof (Ht (S fuel) g ltac:(simpl in *; lia)) as Hb.
  transitivity
    (parseTerm (S fuel) (String c s) g ≫= fun '(a, s1, g1) =>
     parseAlternative (S fuel) s1 g1 ≫= fun '(b, s2, g2) => Ok (RSeq a b, s2, g2)).
  - clear -Hbar Hpar.
    destruct c as [[] [] [] [] [] [] [] []]; try discriminate; reflexivity.
  - rewrite Hterm. cbn [mbind result_bind]. rewrite Hb. reflexivity.
Qed.

Lemma AltIs_plain (c : ascii) (t : string) (b : regex) :
  plainChar c = true -> nextOk t = true -> AltIs t b ->
  AltIs (String c t) (RSeq (RChar c) b).
Proof.
  intros Hc Hnext Ht.
  destruct (plainChar_not_bar c Hc) as [Hbar Hpar].
  apply (AltIs_term c t t (RChar c)); [exact Hbar | exact Hpar | | | exact Ht].
  - cbn [String.length]. lia.
  - intros f g. rewrite (parseTerm_plain f c t g Hc).
    now rewrite (readQuantifier_none _ _ Hnext).
Qed.

Lemma AltIs_wordBoundary (t : string) (b : regex) :
  nextOk t = true -> AltIs t b -> AltIs (String "\" (String "b" t)) (RSeq RWordB b).
Proof.
  intros Hnext Ht.
  apply (AltIs_term "\" (String "b" t) t RWordB); auto; simpl; lia.
Qed.

Lemma AltIs_literal (v t : string) (b : regex) :
  plainStr v = true -> nextOk t = true -> AltIs t b ->
  AltIs (v +:+ t) (literal v b).
Proof.
  intros Hv Hnext Ht. induction v as [|c v IH]; [exact Ht|].
  cbn [plainStr] in Hv. apply andb_prop in Hv as [Hc Hv].
  change (String c v +:+ t) with (String c (v +:+ t)). cbn [literal].
  apply AltIs_plain; [exact Hc | now apply nextOk_app | now apply IH].
Qed.

Lemma maxBackref_literal (v : string) (b : regex) :
  maxBackref (literal v b) = maxBackref b.
Proof. induction v as [|c v IH]; [reflexivity|]. cbn. exact IH. Qed.

Lemma AltIs_new (src : string) (b : regex) (ic : bool) :
  AltIs src b -> maxBackref b = 0%nat -> RegExp.new src ic = Ok (Re src b ic).
Proof.
  intros H Hb. unfold RegExp.new, parse.
  replace (3 * String.length src + 3)%nat
    with (S (3 * String.length src + 2)) by lia.
  cbn [parseDisjunction].
  rewrite (H (3 * String.length src + 2)%nat 1%nat ltac:(lia)).
  cbn [mbind result_bind]. rewrite Hb. reflexivity.
Qed.

(** The pattern of a word: a run of plain code units between two word
    boundaries. *)
Lemma word_pattern (v : string) (ic : bool) :
  plainStr v = true ->
  RegExp.new ("\b" +:+ v +:+ "\b") ic =
  Ok (Re ("\b" +:+ v +:+ "\b") (RSeq RWordB (literal v (RSeq RWordB REmpty))) ic).
Proof.
  intros Hv. apply AltIs_new.
  - change ("\b" +:+ v +:+ "\b") with (String "\" (String "b" (v +:+ "\b"))).
    apply AltIs_wordBoundary; [now apply nextOk_app|].
    apply AltIs_literal; [exact Hv | reflexivity|].
    apply AltIs_wordBoundary; [reflexivity | exact AltIs_nil].
  - cbn. rewrite maxBackref_literal. reflexivity.
Qed.

Lemma charEq_refl (ic : bool) (c : ascii) : charEq ic c c = true.
Proof. unfold charEq. destruct ic; apply Ascii.eqb_refl. Qed.

(** A run of code units of the pattern matches the same run of the
    input. *)
Lemma run_literal (ic : bool) (v : string) (k : regex) (rest : string)
    (caps : list (nat * string)) (cont : cont) :
  forall prev : option ascii,
    run ic (literal v k) (MState prev (v +:+ rest) caps) cont =
    run ic k (MState (lastChar prev v) rest caps) cont.
Proof.
  induction v as [|c v IH]; intros prev; [reflexivity|].
  change (String c v +:+ rest) with (String c (v +:+ rest)).
  cbn [literal run ms_rest]. rewrite charEq_refl.
  unfold step. cbn [ms_caps lastChar]. apply IH.
Qed.

(** A word of the input, between a code unit that is not a word character
    and another, is matched by its pattern. *)
Lemma word_matchAt (ic : bool) (src v post : string) (prev : option ascii) :
  v <> EmptyString -> startsWord v = true -> endsWord v = true ->
  isWordAt prev = false -> startsWord post = false ->
  matchAt (Re src (RSeq RWordB (literal v (RSeq RWordB REmpty))) ic)
          prev (v +:+ post) <> None.
Proof.
  intros Hne Hstart Hend Hprev Hpost. unfold matchAt.
  cbn [ast ignoreCase run].
  assert (Hb1 : atWordBoundary (MState prev (v +:+ post) []) = true).
  { unfold atWordBoundary, nextChar. cbn [ms_prev ms_rest]. rewrite Hprev.
    destruct v as [|c v]; [contradiction|].
    change (String c v +:+ post) with (String c (v +:+ post)).
    cbn [isWordAt]. unfold startsWord in Hstart. now rewrite Hstart. }
  rewrite Hb1, run_literal. cbn [run].
  assert (Hb2 : atWordBoundary (MState (lastChar prev v) post []) = true).
  { unfold atWordBoundary, nextChar. cbn [ms_prev ms_rest].
    assert (Hlast : isWordAt (lastChar prev v) = true).
    { destruct v as [|c v]; [contradiction|]. exact Hend. }
    rewrite Hlast. destruct post as [|c post]; [reflexivity|].
    cbn [isWordAt]. unfold startsWord in Hpost. now rewrite Hpost. }
  rewrite Hb2. discriminate.
Qed.

End Literals.

(** ** The identifier as a word of the file name *)

Section DirectIdentifier.
Import FuzzyMatcher Spec RegExp Props.

Ltac next_ok :=
  first [ reflexivity
        | apply nextOk_plainStr; assumption
        | apply nextOk_app; [assumption | next_ok] ].

Ltac alt_ok :=
  rewrite ?append_cons, ?append_nil;
  repeat first
    [ exact AltOk_nil
    | apply AltOk_wordBoundary; [next_ok|]
    | apply AltOk_escaped; [reflexivity | next_ok |]
    | apply AltOk_separators_nodot; [next_ok|]
    | apply AltOk_plain; [reflexivity | next_ok |]
    | apply AltOk_app; [assumption | next_ok |]
    | apply AltOk_plainStr; assumption ].

Lemma isWordChar_lower (c : ascii) :
  Js.isWordChar (Js.toLowerChar c) = Js.isWordChar c.
Proof. destruct c as [[] [] [] [] [] [] [] []]; reflexivity. Qed.

Lemma digit_lower (c : ascii) : Js.isDigit c = true -> Js.toLowerChar c = c.
Proof. destruct c as [[] [] [] [] [] [] [] []]; (discriminate || reflexivity). Qed.

Lemma digit_plain (c : ascii) : Js.isDigit c = true -> plainChar c = true.
Proof. destruct c as [[] [] [] [] [] [] [] []]; (discriminate || reflexivity). Qed.

Lemma digit_word (c : ascii) : Js.isDigit c = true -> Js.isWordChar c = true.
Proof. unfold Js.isWordChar. now intros ->. Qed.

Lemma toLowerCase_app (u v : string) :
  Js.toLowerCase (u +:+ v) = Js.toLowerCase u +:+ Js.toLowerCase v.
Proof.
  induction u as [|c u IH]; [reflexivity|].
  change (String c u +:+ v) with (String c (u +:+ v)).
  cbn [Js.toLowerCase]. now rewrite IH.
Qed.

Lemma toLowerCase_digits (s : string) :
  allDigits s = true -> Js.toLowerCase s = s.
Proof.
  unfold allDigits. induction s as [|c s IH]; [reflexivity|].
  cbn [list_ascii_of_string forallb Js.toLowerCase].
  intros H. apply andb_prop in H as [Hc Hs].
  now rewrite (digit_lower c Hc), (IH Hs).
Qed.

Lemma digits_plain (s : string) : allDigits s = true -> plainStr s = true.
Proof.
  unfold allDigits. induction s as [|c s IH]; [reflexivity|].
  cbn [list_ascii_of_string forallb plainStr].
  intros H. apply andb_prop in H as [Hc Hs].
  now rewrite (digit_plain c Hc), (IH Hs).
Qed.

Lemma lastChar_lower (s : string) :
  forall prev : option ascii,
    isWordAt (lastChar (option_map Js.toLowerChar prev) (Js.toLowerCase s)) =
    isWordAt (lastChar prev s).
Proof.
  induction s as [|c s IH]; intros prev.
  - destruct prev as [c|]; [apply isWordChar_lower | reflexivity].
  - cbn [Js.toLowerCase lastChar]. apply (IH (Some c)).
Qed.

Lemma endsWord_lower (s : string) : endsWord (Js.toLowerCase s) = endsWord s.
Proof. apply (lastChar_lower s None). Qed.

Lemma startsWord_lower (s : string) :
  startsWord (Js.toLowerCase s) = startsWord s.
Proof. destruct s as [|c s]; [reflexivity | apply isWordChar_lower]. Qed.

Lemma digits_startsWord (s : string) :
  s <> EmptyString -> allDigits s = true -> startsWord s = true.
Proof.
  unfold allDigits. destruct s as [|c s]; [contradiction|].
  cbn [list_ascii_of_string forallb startsWord].
  intros _ H. apply andb_prop in H as [Hc _]. now apply digit_word.
Qed.

Lemma digits_lastChar (s : string) :
  forall prev : option ascii,
    isWordAt prev = true -> allDigits s = true ->
    isWordAt (lastChar prev s) = true.
Proof.
  unfold allDigits. induction s as [|c s IH]; intros prev Hprev; [now intros _|].
  cbn [list_ascii_of_string forallb lastChar].
  intros H. apply andb_prop in H as [Hc Hs].
  apply IH; [now apply digit_word | exact Hs].
Qed.

Lemma digits_endsWord (s : string) :
  s <> EmptyString -> allDigits s = true -> endsWord s = true.
Proof.
  unfold allDigits, endsWord. destruct s as [|c s]; [contradiction|].
  cbn [list_ascii_of_string forallb lastChar].
  intros _ H. apply andb_prop in H as [Hc Hs].
  apply digits_lastChar; [now apply digit_word | exact Hs].
Qed.

Lemma replaceString_prefix (d : string) :
  replaceString "tt" EmptyString ("tt" +:+ d) = d.
Proof. destruct d; reflexivity. Qed.

Lemma mapM_cons {A B : Type} (f : A -> result B) (x : A) (l : list A) :
  mapM f (x :: l) = y ← f x; k ← mapM f l; mret (y :: k).
Proof. reflexivity. Qed.

(** A word between two code units that are not word characters is found
    by the test of its pattern. *)
Lemma word_test (ic : bool) (src v pre post : string) :
  v <> EmptyString -> startsWord v = true -> endsWord v = true ->
  endsWord pre = false -> startsWord post = false ->
  test (Re src (RSeq RWordB (literal v (RSeq RWordB REmpty))) ic)
       (pre +:+ v +:+ post) = true.
Proof.
  intros Hne Hs He Hpre Hpost. apply test_spec.
  exists pre, (v +:+ post). split; [reflexivity|].
  now apply word_matchAt.
Qed.

Lemma matchesImdbId_word (pre w post digits : string) :
  digits <> EmptyString -> allDigits digits = true ->
  w = "tt" +:+ digits \/ w = digits ->
  endsWord pre = false -> startsWord post = false ->
  exists p,
    matchesImdbId (pre +:+ w +:+ post) ("tt" +:+ digits) =
    Ok (MatchResult 1 "direct_imdb" (Some p)).
Proof.
  intros Hne Hd Hw Hpre Hpost. unfold matchesImdbId.
  rewrite replaceString_prefix. cbv zeta.
  pose proof (digits_plain digits Hd) as Hplain.
  assert (Hid : plainStr ("tt" +:+ digits) = true)
    by (apply plainStr_app; [reflexivity | exact Hplain]).
  rewrite !toLowerCase_app.
  pose proof (endsWord_lower pre) as Hpre'. rewrite Hpre in Hpre'.
  pose proof (startsWord_lower post) as Hpost'. rewrite Hpost in Hpost'.
  set (pre' := Js.toLowerCase pre) in *.
  set (post' := Js.toLowerCase post) in *.
  assert (Hlow : Js.toLowerCase w = w).
  { destruct Hw as [-> | ->].
    - rewrite toLowerCase_app, (toLowerCase_digits digits Hd). reflexivity.
    - now apply toLowerCase_digits. }
  rewrite Hlow.
  destruct (mapM_new (fun p : string * bool => fst p) (fun p => snd p)
              [("imdb[\s\-_]*" +:+ digits, true);
               ("\[" +:+ digits +:+ "\]", false);
               ("\(" +:+ digits +:+ "\)", false);
               ("\b" +:+ ("tt" +:+ digits) +:+ "\b", true)])
    as (ps & Hps).
  { repeat (constructor; [cbn [fst]; alt_ok|]). constructor. }
  rewrite (mapM_cons _ ("\btt" +:+ digits +:+ "\b", true)).
  rewrite (mapM_cons _ ("\b" +:+ digits +:+ "\b", false)).
  cbn [fst snd].
  change ("\btt" +:+ digits +:+ "\b") with ("\b" +:+ ("tt" +:+ digits) +:+ "\b").
  rewrite (word_pattern ("tt" +:+ digits) true Hid).
  rewrite (word_pattern digits false Hplain).
  rewrite Hps. cbn [mbind result_bind mret result_ret].
  unfold firstMatching.
  match goal with
  | |- context [List.find ?p (?r1 :: ?r2 :: ps)] =>
      destruct (find_exists p (r1 :: r2 :: ps)
                  (if String.eqb w digits then r2 else r1)) as (y & Hy)
  end.
  - destruct (String.eqb w digits); [right; left | left]; reflexivity.
  - destruct Hw as [-> | ->].
    + assert (E : String.eqb ("tt" +:+ digits) digits = false).
      { apply String.eqb_neq. intros H. apply (f_equal String.length) in H.
        change (S (S (String.length digits)) = String.length digits) in H. lia. }
      rewrite E.
      apply word_test; [discriminate | reflexivity | | exact Hpre' | exact Hpost'].
      unfold endsWord. change ("tt" +:+ digits) with (String "t" (String "t" digits)).
      cbn [lastChar]. now apply digits_lastChar.
    + rewrite String.eqb_refl.
      apply word_test; [exact Hne | | | exact Hpre' | exact Hpost'].
      * now apply digits_startsWord.
      * now apply digits_endsWord.
  - rewrite Hy. eauto.
Qed.

(** X18.  A file name that holds the identifier of the request, or its
    digits alone, as a word (the code units before and after it are not
    letters, digits or underscores) is a direct match: score 1, method
    [direct_imdb]. *)
Theorem identifier_word_is_direct_match (pre w post digits : string) :
  digits <> EmptyString -> allDigits digits = true ->
  w = "tt" +:+ digits \/ w = digits ->
  endsWord pre = false -> startsWord post = false ->
  exists p,
    matchesImdbId (pre +:+ w +:+ post) ("tt" +:+ digits) =
    Ok (MatchResult 1 "direct_imdb" (Some p)).
Proof. apply matchesImdbId_word. Qed.

Lemma identifier_word_is_direct_match_witness :
  exists p,
    matchesImdbId "Movie.2010.tt1375666.en.srt" "tt1375666" =
    Ok (MatchResult 1 "direct_imdb" (Some p)).
Proof.
  apply (identifier_word_is_direct_match "Movie.2010." "tt1375666" ".en.srt" "1375666");
    [discriminate | reflexivity | left; reflexivity | reflexivity | reflexivity].
Defined.

End DirectIdentifier.

(** ** Files that carry the identifier of a movie request *)

Section IdentifiedFiles.
Import FuzzyMatcher Spec SubtitlesHandler Props.
Local Open Scope Q_scope.

Lemma bestOf_first (rest : list strategy) (first : strategy) :
  (forall s, In s rest -> s_score s <= s_score first) ->
  bestOf rest first = first.
Proof.
  unfold bestOf. induction rest as [|s rest IH]; intros H; [reflexivity|].
  cbn [List.fold_left].
  assert (E : Qltb (s_score first) (s_score s) = false).
  { apply Qltb_ge. apply H. now left. }
  rewrite E. apply IH. intros s' Hs'. apply H. now right.
Qed.

(** A direct identifier match decides the result of a movie request. *)
Lemma matchFile_movie_direct (id : string) (targetTitle targetYear : option string)
    (f : file) (p : string) :
  matchesImdbId (name f) id = Ok (MatchResult 1 "direct_imdb" (Some p)) ->
  matchFile "movie" id targetTitle targetYear f =
  Ok (MatchResult 1 "direct_imdb" (Some p)).
Proof.
  intros Hid. unfold matchFile. cbn [String.eqb Ascii.eqb Bool.eqb].
  rewrite Hid. cbn [mbind result_bind]. f_equal.
  set (imdbMatch := MatchResult 1 "direct_imdb" (Some p)).
  pose proof (movieStrategies_weights imdbMatch (name f) targetTitle targetYear)
    as [Hw Hsum].
  pose proof (movieStrategies_results imdbMatch (name f) targetTitle targetYear)
    as Hres.
  destruct (movieStrategies_cons imdbMatch (name f) targetTitle targetYear)
    as (rest & E).
  rewrite E in *. rewrite (combineMovie_best _ rest Hw Hsum).
  rewrite bestOf_first; [reflexivity|].
  intros s Hs. unfold s_score. cbn [s_result]. 
  destruct (Hres s (or_intror Hs)) as [-> | [(title & ->) | ->]].
  - apply Qle_refl.
  - apply (proj1 (matchesByTitle_result _ _ _ _)).
  - apply (proj1 (analyzeFilename_result _ _ _)).
Qed.

(** The candidates of a movie request are collected without an exception
    for every identifier without pattern syntax characters. *)
Lemma collect_movie_total (id : string) (targetTitle targetYear : option string)
    (minScore : Q) (files : list file) :
  plainStr id = true ->
  exists matches, collect "movie" id targetTitle targetYear minScore files = Ok matches.
Proof.
  intros Hid. induction files as [|f files (matches & IH)]; [now exists []|].
  cbn [collect]. 
  assert (Hf : exists r, matchFile "movie" id targetTitle targetYear f = Ok r).
  { unfold matchFile. cbn [String.eqb Ascii.eqb Bool.eqb].
    destruct (matchesImdbId_total (name f) id Hid) as (r & ->).
    cbn [mbind result_bind]. eauto. }
  destruct Hf as (r & ->). cbn [mbind result_bind]. rewrite IH.
  cbn [mbind result_bind]. destruct (Qle_bool minScore (score r)); eauto.
Qed.

(** The entry of a file of the listing whose match result passes the
    minimum of the handler, when no file makes the matcher throw. *)
Lemma request_entry (world : Type)
    (fetchGithub : string -> world -> GithubService.response * world)
    (fetchOmdb : string -> world -> MovieDatabase.omdbResponse * world)
    (fuel : nat) (a : args) (c : MovieDatabase.cache) (w w1 : world)
    (files : list GithubService.subtitleFile) (sf : GithubService.subtitleFile)
    (P : matchResult -> Prop) :
  Js.truthy (github_repo (resolveConfig a)) = true ->
  requestListing world fetchGithub fuel a w = Some (files, w1) ->
  In sf files ->
  (forall targetTitle targetYear fs,
      exists matches,
        collect (type a) (id a) targetTitle targetYear (3 # 10) fs = Ok matches) ->
  (forall targetTitle targetYear,
      exists m,
        matchFile (type a) (id a) targetTitle targetYear (GithubService.sf_file sf) =
          Ok m /\ 3 # 10 <= score m /\ P m) ->
  exists subtitles c' w' m,
    scoredSubtitles world fetchGithub fetchOmdb fuel a c w =
      Some (subtitles, c', w') /\
    P m /\
    In (toScored (default EmptyString (github_repo (resolveConfig a)))
                 (Ranked (GithubService.sf_file sf) m))
       subtitles.
Proof.
  intros Hrepo Hfiles Hsf Htotal Hfile.
  unfold scoredSubtitles. rewrite Hrepo. cbn [negb].
  unfold requestListing in Hfiles. rewrite Hfiles. cbn [mbind option_bind].
  destruct files as [|f0 files']; [contradiction|].
  cbn [List.length Nat.eqb].
  destruct (if String.eqb (type a) "movie" then _ else _)
    as [[movieInfo c2] w2].
  set (fs := List.map GithubService.sf_file (f0 :: files')).
  assert (Hin : In (GithubService.sf_file sf) fs) by (now apply in_map).
  assert (Hall : forall targetTitle targetYear,
             exists matches m,
               findBestMatches fs (type a) (id a) targetTitle targetYear (3 # 10) =
                 Ok matches /\
               P m /\ In (Ranked (GithubService.sf_file sf) m) matches).
  { intros targetTitle targetYear. unfold findBestMatches.
    destruct (Htotal targetTitle targetYear fs) as (matches & Hm).
    destruct (Hfile targetTitle targetYear) as (m & Hfm & Hle & HP).
    rewrite Hm. cbn [mbind result_bind]. exists (sort compareMatches matches), m.
    split; [reflexivity|]. split; [exact HP|].
    apply In_sort.
    exact (collect_complete _ _ _ _ _ _ _ _ _ Hm Hin Hfm Hle). }
  destruct movieInfo as [info|]; cbv beta iota zeta;
    match goal with
    | |- context [findBestMatches fs (type a) (id a) ?tt ?ty (3 # 10)] =>
        destruct (Hall tt ty) as (matches & m & -> & HP & Hm)
    end;
    (do 3 eexists; exists m; split; [reflexivity|]; split; [exact HP|];
     apply In_sort; now apply in_map).
Qed.

(** X19.  A movie request with a configured repository answers with every
    subtitle file of the listing whose name holds the identifier of the
    request, or its digits alone, as a word: the entry has score 1 and
    the method [direct_imdb], whatever the movie database says and
    whatever the other files are. *)
Theorem identified_file_is_answered (world : Type)
    (fetchGithub : string -> world -> GithubService.response * world)
    (fetchOmdb : string -> world -> MovieDatabase.omdbResponse * world)
    (fuel : nat) (a : args) (c : MovieDatabase.cache) (w w1 : world)
    (files : list GithubService.subtitleFile) (sf : GithubService.subtitleFile)
    (pre word post digits : string) :
  type a = "movie" -> id a = "tt" +:+ digits ->
  digits <> EmptyString -> allDigits digits = true ->
  Js.truthy (github_repo (resolveConfig a)) = true ->
  requestListing world fetchGithub fuel a w = Some (files, w1) ->
  In sf files ->
  name (GithubService.sf_file sf) = pre +:+ word +:+ post ->
  word = "tt" +:+ digits \/ word = digits ->
  endsWord pre = false -> startsWord post = false ->
  exists subtitles c' w' s,
    scoredSubtitles world fetchGithub fetchOmdb fuel a c w =
      Some (subtitles, c', w') /\
    handleSubtitlesRequest world fetchGithub fetchOmdb fuel a c w =
      Some (List.map sub subtitles, c', w') /\
    In s subtitles /\
    s_filename (sub s) = name (GithubService.sf_file sf) /\
    url (sub s) = download_url (GithubService.sf_file sf) /\
    _score s = 1 /\ _matchMethod s = "direct_imdb".
Proof.
  intros Htype Hid Hne Hd Hrepo Hfiles Hsf Hname Hword Hpre Hpost.
  destruct (matchesImdbId_word pre word post digits Hne Hd Hword Hpre Hpost)
    as (p & Hp).
  rewrite <- Hname, <- Hid in Hp.
  assert (Hplain : plainStr (id a) = true).
  { rewrite Hid. apply plainStr_app; [reflexivity | now apply digits_plain]. }
  destruct (request_entry world fetchGithub fetchOmdb fuel a c w w1 files sf
              (fun m => m = MatchResult 1 "direct_imdb" (Some p))
              Hrepo Hfiles Hsf)
    as (subtitles & c' & w' & m & Hs & -> & Hin).
  { intros targetTitle targetYear fs. rewrite Htype.
    now apply collect_movie_total. }
  { intros targetTitle targetYear. eexists. rewrite Htype.
    split; [exact (matchFile_movie_direct _ _ _ _ p Hp)|].
    split; [cbn [score]; lra | reflexivity]. }
  exists subtitles, c', w'. eexists. split; [exact Hs|].
  split; [unfold handleSubtitlesRequest; now rewrite Hs|].
  split; [exact Hin|]. repeat split.
Qed.

Lemma identified_file_is_answered_witness :
  let file := fun n => GithubService.Item n n "file" ("https://raw/" +:+ n) 0 "sha" in
  let fetchGithub := fun (_ : string) (requests : nat) =>
    (GithubService.Listing [file "Other.Movie.srt"; file "Inception.tt1375666.en.srt"],
     S requests) in
  let fetchOmdb := fun (_ : string) (requests : nat) =>
    (MovieDatabase.NetworkError, S requests) in
  let a := Args "movie" "tt1375666" None (Some (Config (Some "owner/repo") None)) in
  exists subtitles c' w' s,
    scoredSubtitles nat fetchGithub fetchOmdb 1 a [] 0%nat =
      Some (subtitles, c', w') /\
    handleSubtitlesRequest nat fetchGithub fetchOmdb 1 a [] 0%nat =
      Some (List.map sub subtitles, c', w') /\
    In s subtitles /\
    s_filename (sub s) = "Inception.tt1375666.en.srt" /\
    url (sub s) = "https://raw/Inception.tt1375666.en.srt" /\
    _score s = 1 /\ _matchMethod s = "direct_imdb".
Proof.
  intros file fetchGithub fetchOmdb a.
  destruct (requestListing nat fetchGithub 1 a 0%nat) as [[files w1]|] eqn:E;
    [|vm_compute in E; discriminate].
  pose (sf := GithubService.SubtitleFile
                (File "Inception.tt1375666.en.srt" "Inception.tt1375666.en.srt"
                      "https://raw/Inception.tt1375666.en.srt") 0 "sha").
  assert (Hin : In sf files).
  { vm_compute in E. inversion E. right. left. reflexivity. }
  exact (identified_file_is_answered nat fetchGithub fetchOmdb 1 a [] 0%nat w1 files sf
           "Inception." "tt1375666" ".en.srt" "1375666"
           eq_refl eq_refl ltac:(discriminate) eq_refl eq_refl E Hin eq_refl
           (or_introl eq_refl) eq_refl eq_refl).
Defined.

End IdentifiedFiles.

(** ** Files that carry the identifier of a series request *)

Section IdentifiedEpisodes.
Import FuzzyMatcher Spec SubtitlesHandler Props.
Local Open Scope Q_scope.

(** The combination with a direct identifier match: with no episode score
    the identifier result itself, else the weighted sum. *)
Lemma combineSeries_direct (e i : matchResult) :
  unitScore e -> score i = 1 ->
  3 # 10 <= score (combineSeries e i) <= 1 /\
  (score e <= 0 -> combineSeries e i = i) /\
  (0 < score e ->
   combineSeries e i = mk (score e * (7 # 10) + 1 * (3 # 10)) "series_combined").
Proof.
  unfold unitScore, combineSeries. intros [He0 He1] Hi. rewrite Hi.
  assert (E1 : Qltb 0 1 = true) by reflexivity.
  assert (E2 : Qltb (7 # 10) 1 = true) by reflexivity.
  rewrite E1, E2.
  destruct (Qltb 0 (score e)) eqn:E3;
    [apply Qltb_lt in E3 | apply Qltb_ge in E3]; cbn [andb].
  - cbn [score mk]. split; [split; lra|]. split; [intros H; lra|].
    intros _. unfold mk. f_equal.
  - assert (E4 : Qltb (6 # 10) (score e) = false) by (apply Qltb_ge; lra).
    assert (E5 : Qltb (2 # 10) (score e) = false) by (apply Qltb_ge; lra).
    assert (E6 : Qltb 1 (score e) = false) by (apply Qltb_ge; lra).
    rewrite E4, E5, E6. rewrite Hi.
    split; [split; lra|]. split; [reflexivity | intros H; lra].
Qed.

Lemma matchFile_series_direct (id : string) (targetTitle targetYear : option string)
    (f : file) (p : string) :
  matchesImdbId (name f) (List.nth 0 (Js.split ":" id) EmptyString) =
    Ok (MatchResult 1 "direct_imdb" (Some p)) ->
  exists r,
    matchFile "series" id targetTitle targetYear f = Ok r /\
    3 # 10 <= score r <= 1 /\
    (r = MatchResult 1 "direct_imdb" (Some p) \/ method r = "series_combined").
Proof.
  intros Hid. unfold matchFile.
  change (String.eqb "series" "movie") with false.
  change (String.eqb "series" "series") with true. cbv iota zeta.
  destruct (Js.truthy (List.nth_error (Js.split ":" id) 1) &&
            Js.truthy (List.nth_error (Js.split ":" id) 2)).
  - match goal with
    | |- context [matchesEpisode ?n ?s ?e] =>
        destruct (matchesEpisode_total n s e) as (em & He); rewrite He
    end.
    cbn [mbind result_bind]. rewrite Hid. cbn [mbind result_bind].
    eexists. split; [reflexivity|].
    pose proof (proj1 (matchesEpisode_result _ _ _ _ He)) as Hu.
    destruct (combineSeries_direct em (MatchResult 1 "direct_imdb" (Some p)) Hu eq_refl)
      as (Hb & Hzero & Hpos).
    split; [exact Hb|].
    destruct (Qlt_le_dec 0 (score em)) as [H | H].
    + right. now rewrite (Hpos H).
    + left. exact (Hzero H).
  - rewrite Hid. eexists. split; [reflexivity|]. cbn [score].
    split; [split; lra | now left].
Qed.

Lemma collect_series_total (id : string) (targetTitle targetYear : option string)
    (minScore : Q) (files : list file) :
  plainStr (List.nth 0 (Js.split ":" id) EmptyString) = true ->
  exists matches,
    collect "series" id targetTitle targetYear minScore files = Ok matches.
Proof.
  intros Hid. induction files as [|f files (matches & IH)]; [now exists []|].
  cbn [collect].
  assert (Hf : exists r, matchFile "series" id targetTitle targetYear f = Ok r).
  { unfold matchFile.
    change (String.eqb "series" "movie") with false.
    change (String.eqb "series" "series") with true. cbv iota zeta.
    destruct (matchesImdbId_total (name f) _ Hid) as (r & Hr).
    destruct (Js.truthy _ && Js.truthy _); [|eauto].
    match goal with
    | |- context [matchesEpisode ?n ?s ?e] =>
        destruct (matchesEpisode_total n s e) as (em & ->)
    end.
    cbn [mbind result_bind]. rewrite Hr. cbn [mbind result_bind]. eauto. }
  destruct Hf as (r & ->). cbn [mbind result_bind]. rewrite IH.
  cbn [mbind result_bind]. destruct (Qle_bool minScore (score r)); eauto.
Qed.

(** X20.  A series request with a configured repository answers with
    every subtitle file of the listing whose name holds the identifier of
    the series, or its digits alone, as a word, whatever season and
    episode the request asks for and the file is of: the score of the
    entry is at least 0.3, the minimum of the handler, and either the
    method is [series_combined] or the entry is the direct identifier
    match with score 1. *)
Theorem series_file_is_answered (world : Type)
    (fetchGithub : string -> world -> GithubService.response * world)
    (fetchOmdb : string -> world -> MovieDatabase.omdbResponse * world)
    (fuel : nat) (a : args) (c : MovieDatabase.cache) (w w1 : world)
    (files : list GithubService.subtitleFile) (sf : GithubService.subtitleFile)
    (pre word post digits : string) :
  type a = "series" ->
  List.nth 0 (Js.split ":" (id a)) EmptyString = "tt" +:+ digits ->
  digits <> EmptyString -> allDigits digits = true ->
  Js.truthy (github_repo (resolveConfig a)) = true ->
  requestListing world fetchGithub fuel a w = Some (files, w1) ->
  In sf files ->
  name (GithubService.sf_file sf) = pre +:+ word +:+ post ->
  word = "tt" +:+ digits \/ word = digits ->
  endsWord pre = false -> startsWord post = false ->
  exists subtitles c' w' s,
    scoredSubtitles world fetchGithub fetchOmdb fuel a c w =
      Some (subtitles, c', w') /\
    handleSubtitlesRequest world fetchGithub fetchOmdb fuel a c w =
      Some (List.map sub subtitles, c', w') /\
    In s subtitles /\
    s_filename (sub s) = name (GithubService.sf_file sf) /\
    url (sub s) = download_url (GithubService.sf_file sf) /\
    3 # 10 <= _score s <= 1 /\
    (_matchMethod s = "series_combined" \/
     _score s = 1 /\ _matchMethod s = "direct_imdb").
Proof.
  intros Htype Hid Hne Hd Hrepo Hfiles Hsf Hname Hword Hpre Hpost.
  destruct (matchesImdbId_word pre word post digits Hne Hd Hword Hpre Hpost)
    as (p & Hp).
  rewrite <- Hname, <- Hid in Hp.
  assert (Hplain : plainStr (List.nth 0 (Js.split ":" (id a)) EmptyString) = true).
  { rewrite Hid. apply plainStr_app; [reflexivity | now apply digits_plain]. }
  destruct (request_entry world fetchGithub fetchOmdb fuel a c w w1 files sf
              (fun m => score m <= 1 /\ 3 # 10 <= score m /\
                        (m = MatchResult 1 "direct_imdb" (Some p) \/
                         method m = "series_combined"))
              Hrepo Hfiles Hsf)
    as (subtitles & c' & w' & m & Hs & (Hle & Hge & Hm) & Hin).
  { intros targetTitle targetYear fs. rewrite Htype.
    now apply collect_series_total. }
  { intros targetTitle targetYear. rewrite Htype.
    destruct (matchFile_series_direct (id a) targetTitle targetYear
                (GithubService.sf_file sf) p Hp) as (r & Hr & [Hr0 Hr1] & Hcases).
    exists r. repeat split; assumption. }
  exists subtitles, c', w'. eexists. split; [exact Hs|].
  split; [unfold handleSubtitlesRequest; now rewrite Hs|].
  split; [exact Hin|]. cbn [toScored sub s_filename url _score _matchMethod r_file r_match].
  split; [reflexivity|]. split; [reflexivity|]. split; [split; assumption|].
  destruct Hm as [-> | Hm]; [right; split; reflexivity | left; exact Hm].
Qed.

Lemma series_file_is_answered_witness :
  let file := fun n => GithubService.Item n n "file" ("https://raw/" +:+ n) 0 "sha" in
  let fetchGithub := fun (_ : string) (requests : nat) =>
    (GithubService.Listing [file "Show.tt0903747.S05E09.srt"], S requests) in
  let fetchOmdb := fun (_ : string) (requests : nat) =>
    (MovieDatabase.NetworkError, S requests) in
  let a := Args "series" "tt0903747:1:2" None
                (Some (Config (Some "owner/repo") None)) in
  exists subtitles c' w' s,
    scoredSubtitles nat fetchGithub fetchOmdb 1 a [] 0%nat =
      Some (subtitles, c', w') /\
    handleSubtitlesRequest nat fetchGithub fetchOmdb 1 a [] 0%nat =
      Some (List.map sub subtitles, c', w') /\
    In s subtitles /\
    s_filename (sub s) = "Show.tt0903747.S05E09.srt" /\
    url (sub s) = "https://raw/Show.tt0903747.S05E09.srt" /\
    3 # 10 <= _score s <= 1 /\
    (_matchMethod s = "series_combined" \/
     _score s = 1 /\ _matchMethod s = "direct_imdb").
Proof.
  intros file fetchGithub fetchOmdb a.
  destruct (requestListing nat fetchGithub 1 a 0%nat) as [[files w1]|] eqn:E;
    [|vm_compute in E; discriminate].
  pose (sf := GithubService.SubtitleFile
                (File "Show.tt0903747.S05E09.srt" "Show.tt0903747.S05E09.srt"
                      "https://raw/Show.tt0903747.S05E09.srt") 0 "sha").
  assert (Hin : In sf files).
  { vm_compute in E. inversion E. left. reflexivity. }
  exact (series_file_is_answered nat fetchGithub fetchOmdb 1 a [] 0%nat w1 files sf
           "Show." "tt0903747" ".S05E09.srt" "0903747"
           eq_refl eq_refl ltac:(discriminate) eq_refl eq_refl E Hin eq_refl
           (or_introl eq_refl) eq_refl eq_refl).
Defined.

End IdentifiedEpisodes.

(** ** What a listing keeps, and who asks the movie database *)

Section ListingKeeps.
Import GithubService SubtitlesHandler Props.

Lemma scanItems_keeps (world : Type)
    (recur : string -> world -> option (list subtitleFile * world))
    (data : list item) :
  forall (files out : list subtitleFile) (w w' : world),
    scanItems world recur data files w = Some (out, w') ->
    (forall f, In f files -> In f out) /\
    (forall i, In i data -> i_type i = "file" -> isSubtitleFile (i_name i) = true ->
               In (entryOf i) out).
Proof.
  induction data as [|item rest IH]; intros files out w w'; cbn [scanItems].
  - intros [= <- <-]. split; [auto | intros i []].
  - destruct (String.eqb (i_type item) "file" && isSubtitleFile (i_name item)) eqn:E.
    + intros H. destruct (IH _ _ _ _ H) as [Hold Hnew]. split.
      * intros f Hf. apply Hold, in_or_app. now left.
      * intros i [<- | Hi] Ht Hn; [|now apply Hnew].
        apply Hold, in_or_app. right. left. reflexivity.
    + destruct (String.eqb (i_type item) "dir") eqn:Ed.
      * destruct (recur (i_path item) w) as [[subFiles w1]|];
          cbn [mbind option_bind]; [|discriminate].
        intros H. destruct (IH _ _ _ _ H) as [Hold Hnew]. split.
        -- intros f Hf. apply Hold, in_or_app. now left.
        -- intros i [<- | Hi] Ht Hn; [|now apply Hnew].
           rewrite Ht, Hn in E. discriminate.
      * intros H. destruct (IH _ _ _ _ H) as [Hold Hnew]. split; [exact Hold|].
        intros i [<- | Hi] Ht Hn; [|now apply Hnew].
        rewrite Ht, Hn in E. discriminate.
Qed.

(** X21.  A request for a listing that fails, or whose answer is not an
    array, gives the empty listing after that one request.  When the
    answer is an array, every entry of it that is a file with a subtitle
    extension is in the listing that comes back, whatever the requests for
    its subdirectories answer. *)
Theorem listing_keeps_top_level_files (world : Type)
    (fetch : string -> world -> response * world)
    (fuel : nat) (repo path : string) (w w1 : world) (r : response) :
  fetch (contentsUrl repo path) w = (r, w1) ->
  match r with
  | Failed | NotArray =>
      fetchGitHubFiles world fetch (S fuel) repo path w = Some ([], w1)
  | Listing data =>
      forall (files : list subtitleFile) (w' : world),
        fetchGitHubFiles world fetch (S fuel) repo path w = Some (files, w') ->
        forall i, In i data -> i_type i = "file" ->
                  isSubtitleFile (i_name i) = true -> In (entryOf i) files
  end.
Proof.
  intros Hfetch. cbn [fetchGitHubFiles]. rewrite Hfetch.
  destruct r as [| |data]; [reflexivity | reflexivity|].
  intros files w' H.
  exact (proj2 (scanItems_keeps world _ data [] files w1 w' H)).
Qed.

Lemma listing_keeps_top_level_files_witness :
  let file := fun n => Item n n "file" n 0 "sha" in
  let fetch := fun (url : string) (requests : nat) =>
    (if String.eqb url (contentsUrl "owner/repo" EmptyString)
     then Listing [Item "more" "more" "dir" EmptyString 0 "sha"; file "a.srt"]
     else Failed, S requests) in
  exists (files : list subtitleFile) (w' : nat),
    fetchGitHubFiles nat fetch 2 "owner/repo" EmptyString 0%nat = Some (files, w') /\
    In (entryOf (file "a.srt")) files.
Proof.
  intros file fetch.
  destruct (fetchGitHubFiles nat fetch 2 "owner/repo" EmptyString 0%nat)
    as [[files w']|] eqn:E; [|vm_compute in E; discriminate].
  exists files, w'. split; [reflexivity|].
  exact (listing_keeps_top_level_files nat fetch 1 "owner/repo" EmptyString 0%nat 1%nat
           (Listing [Item "more" "more" "dir" EmptyString 0 "sha"; file "a.srt"])
           eq_refl files w' E (file "a.srt") (or_intror (or_introl eq_refl))
           eq_refl eq_refl).
Defined.

(** X22.  Only a movie request consults the movie database: for any other
    type the answer of the handler is the same whatever the database
    answers, and the cache comes back as it was.  The same holds for
    every request whose listing is empty. *)
Theorem only_movies_consult_the_database (world : Type)
    (fetchGithub : string -> world -> GithubService.response * world)
    (fuel : nat) (a : args) (c : MovieDatabase.cache) (w : world) :
  type a <> "movie" \/
  (exists w1, requestListing world fetchGithub fuel a w = Some ([], w1)) ->
  forall fetchOmdb fetchOmdb' :
           string -> world -> MovieDatabase.omdbResponse * world,
    handleSubtitlesRequest world fetchGithub fetchOmdb fuel a c w =
    handleSubtitlesRequest world fetchGithub fetchOmdb' fuel a c w /\
    forall subtitles c' w',
      handleSubtitlesRequest world fetchGithub fetchOmdb fuel a c w =
        Some (subtitles, c', w') -> c' = c.
Proof.
  intros H fetchOmdb fetchOmdb'.
  unfold handleSubtitlesRequest, scoredSubtitles.
  destruct (negb (Js.truthy (github_repo (resolveConfig a)))).
  { split; [reflexivity|]. cbn [mbind option_bind]. now intros ? ? ? [= _ <- _]. }
  destruct (fetchGitHubFiles _ _ _ _ _ _) as [[files w1]|] eqn:Efiles;
    cbn [mbind option_bind]; [|split; [reflexivity | discriminate]].
  destruct H as [Htype | (w1' & Hempty)].
  - apply String.eqb_neq in Htype. rewrite Htype.
    destruct (Nat.eqb (List.length files) 0).
    { split; [reflexivity|]. cbn [mbind option_bind]. now intros ? ? ? [= _ <- _]. }
    cbv beta iota zeta.
    split; [reflexivity|].
    destruct (FuzzyMatcher.findBestMatches _ _ _ _ _ _);
      cbn [mbind option_bind]; now intros ? ? ? [= _ <- _].
  - unfold requestListing in Hempty. rewrite Efiles in Hempty.
    injection Hempty as -> ->. cbn [List.length Nat.eqb].
    split; [reflexivity|]. cbn [mbind option_bind]. now intros ? ? ? [= _ <- _].
Qed.

Lemma only_movies_consult_the_database_witness :
  let file := fun n => Item n n "file" n 0 "sha" in
  let fetchGithub := fun (_ : string) (requests : nat) =>
    (Listing [file "Show.S01E02.srt"], S requests) in
  let fetchOmdb := fun (_ : string) (requests : nat) =>
    (MovieDatabase.NetworkError, S requests) in
  let fetchOmdb' := fun (_ : string) (requests : nat) =>
    (MovieDatabase.Json
       (MovieDatabase.OmdbData (Some "True") (Some "tt0903747")
                               (Some "Breaking Bad") (Some "2008")
                               None None None None None None),
     S requests) in
  let a := Args "series" "tt0903747:1:2" None
                (Some (Config (Some "owner/repo") None)) in
  handleSubtitlesRequest nat fetchGithub fetchOmdb 1 a [] 0%nat =
  handleSubtitlesRequest nat fetchGithub fetchOmdb' 1 a [] 0%nat.
Proof.
  intros file fetchGithub fetchOmdb fetchOmdb' a.
  apply (only_movies_consult_the_database nat fetchGithub 1 a [] 0%nat).
  left. discriminate.
Defined.

End ListingKeeps.
(** ** The exact patterns of the episode matcher *)

Section EpisodeFamily.
Import FuzzyMatcher Spec RegExp Props.
Local Open Scope Q_scope.

Ltac by_cases_on c :=
  destruct c as [[] [] [] [] [] [] [] []]; try discriminate; try reflexivity.

(** *** The syntax trees of the patterns *)











Ltac next_ok :=
  first [ reflexivity
        | apply nextOk_app; [assumption | next_ok] ].




(** *** What a match consumes *)






(** *** Digits have one letter case *)







(** *** Numbers in digits *)









(** *** The results of the episode matcher *)







End EpisodeFamily.
